(** * À Trous wavelet frequency separation (atwt.cpp): a shallow embedding

    The plugin's numeric core is embedded function by function:
    [mirror_boundary], [conv_h], [conv_v_and_extract],
    [process_extract_plane], [ProcessReplacePlane] and the two
    constructors [ExtractCreate] and [ReplaceCreate].

    Conventions of the embedding.
    - C++ [int] and [ptrdiff_t] values are integers of [Z]; signed overflow
      is undefined in C++, so the embedding agrees with the code wherever
      the code is defined.
    - C++ [float] is IEEE-754 binary32 with round-to-nearest-even, one
      rounding per operation (no fused multiply-add), given by the
      Standard Library's [SpecFloat] at precision 24 and [emax] 128.
    - A buffer is a list; a pointer into it is an offset.  Reading or
      writing outside the buffer has no result ([None]). *)

From Stdlib Require Import ZArith Lia Bool String.
From Stdlib Require Import Floats.SpecFloat.
From stdpp Require Import base option list.

Local Open Scope Z_scope.

(** ** binary32 arithmetic *)

Module F32.

Definition prec : Z := 24.
Definition emax : Z := 128.

Definition float : Type := spec_float.

Definition zero : float := S754_zero false.

Definition add : float -> float -> float := SFadd prec emax.
Definition sub : float -> float -> float := SFsub prec emax.
Definition mul : float -> float -> float := SFmul prec emax.
Definition div : float -> float -> float := SFdiv prec emax.
Definition ltb : float -> float -> bool := SFltb.

(** The binary32 nearest to [z * 2^e]. *)
Definition fl (z e : Z) : float := binary_normalize prec emax z e false.

(** [static_cast<float>(n)] for an integer [n]. *)
Definition of_int (n : Z) : float := fl n 0.

(** [std::round]: to the nearest integer, halfway cases away from zero. *)
Definition round (x : float) : float :=
  match x with
  | S754_finite s m e =>
      if 0 <=? e then x
      else
        let q := (Zpos m + 2 ^ (- e - 1)) / 2 ^ (- e) in
        binary_normalize prec emax (cond_Zopp s q) 0 s
  | _ => x
  end.

(** [std::clamp(v, lo, hi)], that is [(v < lo) ? lo : (hi < v) ? hi : v]. *)
Definition clamp (v lo hi : float) : float :=
  if ltb v lo then lo else if ltb hi v then hi else v.

(** The integer part of [x] (truncation toward zero), as the conversion
    of a float to an integer type takes it.  The conversion of a NaN
    or an infinity is undefined in C++; the embedding gives 0 there. *)
Definition trunc (x : float) : Z :=
  match x with
  | S754_finite s m e =>
      cond_Zopp s (if 0 <=? e then Zpos m * 2 ^ e else Zpos m / 2 ^ (- e))
  | _ => 0
  end.

(** *** Normal forms, used to reason about exact operations *)

(** The number of binary digits of [z]. *)
Definition dig (z : Z) : Z := Zdigits2 z.

(** The 24-digit significand of a non-zero [z] below [2^24]. *)
Definition nm (z : Z) : positive := Z.to_pos (Z.abs z * 2 ^ (24 - dig z)).

(** The normal binary32 of value [z * 2^e]. *)
Definition canon (z e : Z) : float :=
  S754_finite (z <? 0) (nm z) (e + dig z - 24).

(** Exponents that keep the values met here away from both ends of the
    exponent range. *)
Definition mid (e : Z) : Prop := -100 <= e <= 80.

Definition exact_rec (m : Z) : shr_record :=
  {| shr_m := m; shr_r := false; shr_s := false |}.

(** The exponent binary32 gives the value [z * 2^e]: that of a 24-digit
    significand, or the least exponent [-149] for a subnormal. *)
Definition cexp (z e : Z) : Z := Z.max (e + dig z - 24) (-149).

(** The binary32 of value [z * 2^e], normal or subnormal, for a non-zero
    [z] below [2^24] and [-149 <= e <= 104]. *)
Definition repr (z e : Z) : float :=
  S754_finite (z <? 0) (Z.to_pos (Z.abs z * 2 ^ (e - cexp z e))) (cexp z e).

End F32.

Abbreviation float := F32.float.

(** ** Host types (VapourSynth4.h) *)

Inductive VSSampleType := stInteger | stFloat.
Inductive VSColorFamily := cfUndefined | cfGray | cfRGB | cfYUV.

Record VSVideoFormat := {
  colorFamily : VSColorFamily;
  sampleType : VSSampleType;
  bitsPerSample : Z;
  bytesPerSample : Z;
  subSamplingW : Z;
  subSamplingH : Z;
  numPlanes : Z
}.

Record VSVideoInfo := {
  format : VSVideoFormat;
  fpsNum : Z;
  fpsDen : Z;
  width : Z;
  height : Z;
  numFrames : Z
}.

Global Instance VSSampleType_eq_dec : EqDecision VSSampleType.
Proof. solve_decision. Defined.
Global Instance VSColorFamily_eq_dec : EqDecision VSColorFamily.
Proof. solve_decision. Defined.

(** ** Pixel types: the template parameter [T] *)

(** [template <typename T> concept PixelType]: what the templates use of
    [T], namely the two conversions and [std::integral<T>]. *)
Record PixelType := {
  sample : Type;
  integral : bool;
  to_float : sample -> float;
  of_float : float -> sample
}.

(** An unsigned integer type of [w] bits.  A sample is its value, and
    [in_range] says that it fits the type.  The conversion from float
    truncates; it is undefined in C++ when the integer part does not fit
    [T], and the embedding keeps the integer part there. *)
Definition uint (w : Z) : PixelType := {|
  sample := Z;
  integral := true;
  to_float := F32.of_int;
  of_float := F32.trunc
|}.

Definition in_range (w : Z) (v : Z) : Prop := 0 <= v < 2 ^ w.

Definition uint8_t : PixelType := uint 8.
Definition uint16_t : PixelType := uint 16.
Definition uint32_t : PixelType := uint 32.

Definition float_t : PixelType := {|
  sample := float;
  integral := false;
  to_float := fun v => v;
  of_float := fun v => v
|}.

(** ** Buffers and loops *)

Definition load {A} (b : list A) (i : Z) : option A :=
  if i <? 0 then None else b !! Z.to_nat i.

Definition store {A} (b : list A) (i : Z) (v : A) : option (list A) :=
  if (0 <=? i) && (i <? Z.of_nat (length b))
  then Some (<[Z.to_nat i := v]> b) else None.

(** [for (int i = lo; i < hi; ++i) body], threading the state [s]. *)
Fixpoint for_iter {S} (n : nat) (i : Z) (body : Z -> S -> option S) (s : S)
  : option S :=
  match n with
  | O => Some s
  | Datatypes.S n' =>
      match body i s with
      | Some s' => for_iter n' (i + 1) body s'
      | None => None
      end
  end.

Definition for_loop {S} (lo hi : Z) (body : Z -> S -> option S) (s : S)
  : option S :=
  for_iter (Z.to_nat (hi - lo)) lo body s.

(** ** The numeric core *)

Definition KERNEL : list Z := [1; 4; 6; 4; 1].

(** [1 << (fi->bitsPerSample - 1)] is an [int]: the shift wraps to 32
    bits (two's complement). *)
Definition to_int32 (z : Z) : Z := (z + 2 ^ 31) mod 2 ^ 32 - 2 ^ 31.

Definition get_neutral (T : PixelType) (fi : VSVideoFormat) : float :=
  if integral T
  then F32.of_int (to_int32 (Z.shiftl 1 (bitsPerSample fi - 1)))
  else F32.zero.

Definition get_max (T : PixelType) (fi : VSVideoFormat) : float :=
  if integral T
  then F32.of_int (Z.shiftl 1 (bitsPerSample fi) - 1)
  else F32.of_int 1.

(** 101 reflection *)
Definition mirror_boundary (pos max_pos : Z) : Z :=
  if pos <? 0 then - pos
  else if pos >=? max_pos then 2 * max_pos - 2 - pos
  else pos.

(** One tap of the horizontal pass:
    [sum += static_cast<float>(src_row[offset_idx]) * KERNEL.at(k + 2)]. *)
Definition conv_h_tap (T : PixelType) (src : list (sample T))
    (src_row width step x : Z) (k : Z) (sum : float) : option float :=
  let offset_idx := mirror_boundary (x + k * step) width in
  s ← load src (src_row + offset_idx);
  w ← load KERNEL (k + 2);
  Some (F32.add sum (F32.mul (to_float T s) (F32.of_int w))).

Definition conv_h (T : PixelType) (src : list (sample T)) (dst : list float)
    (width height src_stride step : Z) : option (list float) :=
  for_loop 0 height (fun y dst =>
    let src_row := y * src_stride in
    let dst_row := y * width in
    for_loop 0 width (fun x dst =>
      sum ← for_loop (-2) 3 (conv_h_tap T src src_row width step x) F32.zero;
      store dst (dst_row + x) sum) dst) dst.

(** One tap of the vertical pass:
    [sum += temp_src[(y_tap * width) + x] * KERNEL.at(k + 2)]. *)
Definition conv_v_tap (temp_src : list float) (width height step x y : Z)
    (k : Z) (sum : float) : option float :=
  let y_tap := mirror_boundary (y + k * step) height in
  t ← load temp_src (y_tap * width + x);
  w ← load KERNEL (k + 2);
  Some (F32.add sum (F32.mul t (F32.of_int w))).

(** What is written for the float value [v]: rounded, clamped and
    converted for an integral [T], converted only otherwise. *)
Definition write_back (T : PixelType) (max_val : float) (v : float)
  : sample T :=
  if integral T
  then of_float T (F32.clamp (F32.round v) F32.zero max_val)
  else of_float T v.

Definition conv_v_and_extract (T : PixelType) (temp_src : list float)
    (orig_src dst : list (sample T))
    (width height src_stride dst_stride step : Z) (fi : VSVideoFormat)
  : option (list (sample T)) :=
  let neutral := get_neutral T fi in
  let max_val := get_max T fi in
  for_loop 0 height (fun y dst =>
    let src_row := y * src_stride in
    let dst_row := y * dst_stride in
    for_loop 0 width (fun x dst =>
      sum ← for_loop (-2) 3 (conv_v_tap temp_src width height step x y)
              F32.zero;
      let blurred_pixel := F32.div sum (F32.of_int 256) in
      o ← load orig_src (src_row + x);
      let original_pixel := to_float T o in
      let detail := F32.add (F32.sub original_pixel blurred_pixel) neutral in
      store dst (dst_row + x) (write_back T max_val detail)) dst) dst.

(** A plane of a frame: its dimensions, its stride counted in samples
    ([getStride / sizeof(T)]) and its samples. *)
Record Plane (A : Type) := {
  p_width : Z;
  p_height : Z;
  p_stride : Z;
  p_data : list A
}.
Arguments p_width {A} _.
Arguments p_height {A} _.
Arguments p_stride {A} _.
Arguments p_data {A} _.

Definition with_data {A} (p : Plane A) (d : list A) : Plane A :=
  {| p_width := p_width p; p_height := p_height p;
     p_stride := p_stride p; p_data := d |}.

(** [1 << (radius - 1)], the dilation step of [radius].  It is the value
    of the [int] expression for [1 <= radius <= 31] (lemma
    [step_of_int]); at radius 32 the shift leaves the range of [int] and
    from 33 on it is undefined.  A plane whose taps stay inside it has a
    width above [2 * step], so a radius of at most 30; statements that
    do not have that hypothesis bound the radius. *)
Definition step_of (radius : Z) : Z := Z.shiftl 1 (radius - 1).

Definition process_extract_plane (T : PixelType)
    (src dst : Plane (sample T)) (radius : Z) (fi : VSVideoFormat)
  : option (Plane (sample T)) :=
  let width := p_width src in
  let height := p_height src in
  let src_stride := p_stride src in
  let dst_stride := p_stride dst in
  let step := step_of radius in
  let temp_buffer := replicate (Z.to_nat (width * height)) F32.zero in
  temp ← conv_h T (p_data src) temp_buffer width height src_stride step;
  d ← conv_v_and_extract T temp (p_data src) (p_data dst) width height
        src_stride dst_stride step fi;
  Some (with_data dst d).

(** [ProcessReplacePlane]: the three row pointers advance by [stride]
    after each row; [row] is their common offset. *)
Definition ProcessReplacePlane (T : PixelType)
    (base detail dst : Plane (sample T)) (fi : VSVideoFormat)
  : option (Plane (sample T)) :=
  let width := p_width dst in
  let height := p_height dst in
  let stride := p_stride dst in
  let neutral := get_neutral T fi in
  let max_val := get_max T fi in
  r ← for_loop 0 height (fun y '(row, dstp) =>
         dstp' ← for_loop 0 width (fun x dstp =>
           b ← load (p_data base) (row + x);
           d ← load (p_data detail) (row + x);
           let val := F32.sub (F32.add (to_float T b) (to_float T d)) neutral in
           store dstp (row + x) (write_back T max_val val)) dstp;
         Some (row + stride, dstp')) (0, p_data dst);
  Some (with_data dst r.2).

(** The [switch] of [ExtractGetFrame] and [ReplaceGetFrame] on the
    frame's format. *)
Definition dispatch (fi : VSVideoFormat) : option PixelType :=
  match sampleType fi with
  | stInteger =>
      if bytesPerSample fi =? 1 then Some uint8_t
      else if bytesPerSample fi =? 2 then Some uint16_t
      else if bytesPerSample fi =? 4 then Some uint32_t
      else None
  | stFloat =>
      if bytesPerSample fi =? 4 then Some float_t else None
  end.

(** ** The two constructors *)

(** A node stands for the clip it delivers: the constructors read only
    its video info. *)
Definition VSNode : Type := VSVideoInfo.

Record ATWTData := {
  d_node : VSNode;
  d_vi : VSVideoInfo;
  d_radius : Z
}.

Record ReplaceData := {
  r_base : VSNode;
  r_detail : VSNode;
  r_vi : VSVideoInfo
}.

(** What a constructor leaves in the [out] map: an error, or the filter
    with its instance data.  Frames are requested from created filters
    only. *)
Inductive create_result (D : Type) :=
  | mapSetError (msg : string)
  | createVideoFilter (name : string) (vi : VSVideoInfo) (d : D).
Arguments mapSetError {D} _.
Arguments createVideoFilter {D} _ _ _.

Definition INT_MAX : Z := 2 ^ 31 - 1.
Definition INT_MIN : Z := - 2 ^ 31.

(** [vsh::int64ToIntS]: the conversion to [int] saturates. *)
Definition int64ToIntS (i : Z) : Z :=
  if i >? INT_MAX then INT_MAX else if i <? INT_MIN then INT_MIN else i.

(** The format test shared by the two constructors: true when the format
    is neither 8 to 16 bit integer nor 32 bit float. *)
Definition unsupported_format (f : VSVideoFormat) : bool :=
  ((bitsPerSample f <? 8) || (bitsPerSample f >? 16)
   || negb (bool_decide (sampleType f = stInteger)))
  && (negb (bitsPerSample f =? 32)
      || negb (bool_decide (sampleType f = stFloat))).

Section Constructors.

(** The two format predicates of the host's helper header
    (VSHelper4.h) are not part of the repository; the constructors
    take them as parameters. *)
Variable isConstantVideoFormat : VSVideoInfo -> bool.
Variable isSameVideoFormat : VSVideoFormat -> VSVideoFormat -> bool.

(** [clip] is the node argument and [radius] the optional integer
    argument of the [in] map.  The call of [createVideoFilter] has the
    arguments [&d->vi] and [d.release()], which C++ evaluates in an
    unspecified order; the embedding reads [d->vi] before the release.
    The name and the instance data of the filter do not depend on that
    order. *)
Definition ExtractCreate (clip : VSNode) (radius : option Z)
  : create_result ATWTData :=
  let vi := clip in
  let radius :=
    match radius with
    | Some r => int64ToIntS r
    | None => 1
    end in
  if radius <? 1 then
    mapSetError "ExtractFrequency: radius must be >= 1"
  else if negb (isConstantVideoFormat vi) then
    mapSetError
      "ExtractFrequency: only clips with constant format are accepted"
  else if unsupported_format (format vi) then
    mapSetError
      "ExtractFrequency: only 8-16 bit integer or 32 bit float input are accepted"
  else
    createVideoFilter "ExtractFrequency" vi
      {| d_node := clip; d_vi := vi; d_radius := radius |}.

(** The same holds of the arguments [&d->vi] and [d.release()] here. *)
Definition ReplaceCreate (base detail : VSNode)
  : create_result ReplaceData :=
  let vi := base in
  let vi_detail := detail in
  if negb (isSameVideoFormat (format vi) (format vi_detail)) then
    mapSetError
      "ReplaceFrequency: base and detail must have the same format and dimensions"
  else if unsupported_format (format vi)
          || negb (isConstantVideoFormat vi) then
    mapSetError
      "ReplaceFrequency: only constant 8-16 bit integer or 32 bit float input are accepted"
  else
    createVideoFilter "ReplaceFrequency" vi
      {| r_base := base; r_detail := detail; r_vi := vi |}.

End Constructors.

(** The constructor left an error and no filter. *)
Definition rejected {D} (r : create_result D) : bool :=
  match r with
  | mapSetError _ => true
  | createVideoFilter _ _ _ => false
  end.

(** The helper header's two predicates, as the VapourSynth SDK defines
    them; they instantiate the parameters above in the examples. *)
Definition vsh_isConstantVideoFormat (vi : VSVideoInfo) : bool :=
  (height vi >? 0) && (width vi >? 0)
  && negb (bool_decide (colorFamily (format vi) = cfUndefined)).

Definition vsh_isSameVideoFormat (v1 v2 : VSVideoFormat) : bool :=
  bool_decide (colorFamily v1 = colorFamily v2)
  && bool_decide (sampleType v1 = sampleType v2)
  && (bitsPerSample v1 =? bitsPerSample v2)
  && (subSamplingW v1 =? subSamplingW v2)
  && (subSamplingH v1 =? subSamplingH v2).

(** ** Planes as images *)

(** The sample of [p] at column [x] of row [y]. *)
Definition pixel {A} (p : Plane A) (x y : Z) : option A :=
  load (p_data p) (y * p_stride p + x).

(** [p] holds the image [img] on its [p_width] by [p_height] samples. *)
Definition shows {A} (p : Plane A) (img : Z -> Z -> A) : Prop :=
  forall x y, 0 <= x < p_width p -> 0 <= y < p_height p ->
    pixel p x y = Some (img x y).

(** Rows do not overlap and the buffer holds all of them. *)
Definition plane_ok {A} (p : Plane A) : Prop :=
  0 <= p_width p <= p_stride p /\ 0 <= p_height p /\
  p_stride p * p_height p <= Z.of_nat (length (p_data p)).

(** Two planes of one frame geometry. *)
Definition same_geometry {A B} (p : Plane A) (q : Plane B) : Prop :=
  p_width p = p_width q /\ p_height p = p_height q /\
  p_stride p = p_stride q.

(** A plane of stride [w] filled with [v]. *)
Definition flat_plane {A} (w h : Z) (v : A) : Plane A :=
  {| p_width := w; p_height := h; p_stride := w;
     p_data := replicate (Z.to_nat (w * h)) v |}.

(** Every tap of every position of an axis of [size] samples is mirrored
    into the axis. *)
Definition taps_in_range (step size : Z) : Prop :=
  forall x k, 0 <= x < size -> -2 <= k <= 2 ->
    0 <= mirror_boundary (x + k * step) size < size.

(** The image a plane holds; [d] stands for the samples the buffer does
    not have. *)
Definition image_of {A} (d : A) (p : Plane A) : Z -> Z -> A :=
  fun x y => default d (pixel p x y).

(** The samples of an image of [width] by [height] are between 0 and [B]. *)
Definition bounded_image (src : Z -> Z -> Z) (width height B : Z) : Prop :=
  forall x y, 0 <= x < width -> 0 <= y < height -> 0 <= src x y <= B.

(** [i] is the index of a sample of the [width] by [height] window of a
    buffer of rows [stride] apart. *)
Definition in_window (width height stride i : Z) : Prop :=
  exists x y, 0 <= x < width /\ 0 <= y < height /\ i = y * stride + x.

(** The formats the constructors accept. *)
Definition supported (f : VSVideoFormat) : Prop :=
  (8 <= bitsPerSample f <= 16 /\ sampleType f = stInteger) \/
  (bitsPerSample f = 32 /\ sampleType f = stFloat).

(** The radius a constructor call works with: the argument converted to
    [int], or 1 when it is absent. *)
Definition radius_of (radius : option Z) : Z :=
  match radius with
  | Some r => int64ToIntS r
  | None => 1
  end.

(** The image [img] with rows and columns exchanged. *)
Definition transposed {A} (img : Z -> Z -> A) : Z -> Z -> A :=
  fun x y => img y x.

(** ** The operations as the specification words them *)

Module Spec.

(** The kernel [1,4,6,4,1]. *)
Definition kernel (i : Z) : Z := nth (Z.to_nat i) [1; 4; 6; 4; 1] 0.

(** The sum over [k = -2 .. 2] of [term k], accumulated in this order
    from zero. *)
Definition sum5 (term : Z -> float) : float :=
  fold_left (fun acc k => F32.add acc (term k)) [-2; -1; 0; 1; 2] F32.zero.

(** Horizontal pass (4.2): the unnormalized 5-tap sum along the row. *)
Definition hpass (src : Z -> Z -> float) (step width x y : Z) : float :=
  sum5 (fun k =>
    F32.mul (src (mirror_boundary (x + k * step) width) y)
            (F32.of_int (kernel (k + 2)))).

(** Vertical pass (4.3): the 5-tap sum down the column of the horizontal
    sums, divided by 256. *)
Definition blurred (src : Z -> Z -> float) (step width height x y : Z)
  : float :=
  F32.div
    (sum5 (fun k =>
       F32.mul (hpass src step width x (mirror_boundary (y + k * step) height))
               (F32.of_int (kernel (k + 2)))))
    (F32.of_int 256).

(** [detail = source - blurred + neutral]. *)
Definition detail (src : Z -> Z -> float) (neutral : float)
    (step width height x y : Z) : float :=
  F32.add (F32.sub (src x y) (blurred src step width height x y)) neutral.

(** Integer representation of [bits] bits: neutral [2^(bits-1)], maximum
    [2^bits - 1]; the value is rounded half away from zero and clamped to
    [0, max] before it is truncated. *)
Definition int_neutral (bits : Z) : Z := 2 ^ (bits - 1).
Definition int_max (bits : Z) : Z := 2 ^ bits - 1.

Definition to_int (bits : Z) (v : float) : Z :=
  F32.trunc (F32.clamp (F32.round v) F32.zero (F32.of_int (int_max bits))).

Definition extract_int (bits : Z) (src : Z -> Z -> Z)
    (step width height x y : Z) : Z :=
  to_int bits
    (detail (fun x y => F32.of_int (src x y)) (F32.of_int (int_neutral bits))
       step width height x y).

(** Float representation: neutral 0, nothing rounded or clamped. *)
Definition extract_float (src : Z -> Z -> float)
    (step width height x y : Z) : float :=
  detail src F32.zero step width height x y.

(** Replace (4.4): [value = base + detail - neutral]. *)
Definition replace_value (b d neutral : float) : float :=
  F32.sub (F32.add b d) neutral.

Definition replace_int (bits : Z) (b d : Z) : Z :=
  to_int bits
    (replace_value (F32.of_int b) (F32.of_int d)
       (F32.of_int (int_neutral bits))).

Definition replace_float (b d : float) : float :=
  replace_value b d F32.zero.

End Spec.

(** ** The integer operations in exact arithmetic *)

Module Exact.

(** The integer nearest to [a / 256], halfway cases away from zero. *)
Definition round_half_away (a : Z) : Z :=
  Z.sgn a * ((Z.abs a + 128) / 256).

Definition clampZ (v lo hi : Z) : Z :=
  if v <? lo then lo else if hi <? v then hi else v.

Definition sum5 (term : Z -> Z) : Z :=
  term (-2) + term (-1) + term 0 + term 1 + term 2.

Definition hpass (src : Z -> Z -> Z) (step width x y : Z) : Z :=
  sum5 (fun k =>
    src (mirror_boundary (x + k * step) width) y * Spec.kernel (k + 2)).

(** 256 times the blurred value. *)
Definition blurred256 (src : Z -> Z -> Z) (step width height x y : Z) : Z :=
  sum5 (fun k =>
    hpass src step width x (mirror_boundary (y + k * step) height)
    * Spec.kernel (k + 2)).

(** [source - blurred + neutral], rounded half away from zero and clamped
    to [0, max]. *)
Definition extract (bits : Z) (src : Z -> Z -> Z)
    (step width height x y : Z) : Z :=
  clampZ
    (round_half_away
       (256 * (src x y + Spec.int_neutral bits)
        - blurred256 src step width height x y))
    0 (Spec.int_max bits).

(** [base + detail - neutral], clamped to [0, max]. *)
Definition replace (bits : Z) (b d : Z) : Z :=
  clampZ (b + d - Spec.int_neutral bits) 0 (Spec.int_max bits).

End Exact.

(** ** The low band of the decomposition *)

(** The per-pixel difference [S - D] of two float planes. *)
Definition MakeLowBand_float (S D : Plane float) : Plane float :=
  with_data S (zip_with F32.sub (p_data S) (p_data D)).

(** The per-pixel difference [S - D] of two integer planes. *)
Definition MakeLowBand_int (S D : Plane Z) : Plane Z :=
  with_data S (zip_with Z.sub (p_data S) (p_data D)).

(** The difference re-centred on the neutral value and clamped, as the
    host's [std.MakeDiff] of the decomposition script computes it for
    integer formats: [S - D + neutral]. *)
Definition MakeDiff_int (bits : Z) (S D : Plane Z) : Plane Z :=
  with_data S
    (zip_with
       (fun s d =>
          Exact.clampZ (s - d + Spec.int_neutral bits) 0 (Spec.int_max bits))
       (p_data S) (p_data D)).

(** ** Formats and planes of the examples *)

Definition GRAY8 : VSVideoFormat := {|
  colorFamily := cfGray; sampleType := stInteger;
  bitsPerSample := 8; bytesPerSample := 1;
  subSamplingW := 0; subSamplingH := 0; numPlanes := 1
|}.

Definition GRAY16 : VSVideoFormat := {|
  colorFamily := cfGray; sampleType := stInteger;
  bitsPerSample := 16; bytesPerSample := 2;
  subSamplingW := 0; subSamplingH := 0; numPlanes := 1
|}.

Definition GRAYS : VSVideoFormat := {|
  colorFamily := cfGray; sampleType := stFloat;
  bitsPerSample := 32; bytesPerSample := 4;
  subSamplingW := 0; subSamplingH := 0; numPlanes := 1
|}.

Definition clip_info (f : VSVideoFormat) (w h : Z) : VSVideoInfo := {|
  format := f; fpsNum := 24; fpsDen := 1;
  width := w; height := h; numFrames := 1
|}.

(** A plane of five by five ones with [2^-30] at its centre. *)
Definition spike_plane : Plane float :=
  {| p_width := 5; p_height := 5; p_stride := 5;
     p_data := <[12%nat := F32.fl 1 (-30)]> (replicate 25 (F32.of_int 1)) |}.

(** A float plane of five by five ones with 17 at its centre. *)
Definition bump_plane : Plane float :=
  {| p_width := 5; p_height := 5; p_stride := 5;
     p_data := <[12%nat := F32.of_int 17]> (replicate 25 (F32.of_int 1)) |}.

(** The binary32 nearest to one hundredth. *)
Definition hundredth : float := F32.div (F32.of_int 1) (F32.of_int 100).

(** Extract at radius 1, the low band [S - D] and Replace, on
    [spike_plane]. *)
Definition spike_roundtrip : option (Plane float) :=
  D ← process_extract_plane float_t spike_plane (flat_plane 5 5 F32.zero)
        1 GRAYS;
  ProcessReplacePlane float_t (MakeLowBand_float spike_plane D) D
    (flat_plane 5 5 F32.zero) GRAYS.

(** The same on the 8-bit plane of five by five samples 128. *)
Definition grey_roundtrip : option (Plane Z) :=
  D ← process_extract_plane uint8_t (flat_plane 5 5 128) (flat_plane 5 5 0)
        1 GRAY8;
  ProcessReplacePlane uint8_t (MakeLowBand_int (flat_plane 5 5 128) D) D
    (flat_plane 5 5 0) GRAY8.

(** An 8-bit plane of five by five samples, rows 8 samples apart, with
    a ramp in the window and 99 in the padding. *)
Definition ramp_plane : Plane Z :=
  {| p_width := 5; p_height := 5; p_stride := 8;
     p_data := [ 0;  10;  20;  30;  40; 99; 99; 99;
                50;  60;  70;  80;  90; 99; 99; 99;
               100; 110; 120; 130; 140; 99; 99; 99;
               150; 160; 170; 180; 190; 99; 99; 99;
               200; 210; 220; 230; 255; 99; 99; 99] |}.

(** A destination of the same geometry. *)
Definition blank_plane : Plane Z :=
  {| p_width := 5; p_height := 5; p_stride := 8;
     p_data := replicate 40 7 |}.

(** [ramp_plane] with rows and columns exchanged, rows 5 samples apart. *)
Definition ramp_columns : Plane Z :=
  {| p_width := 5; p_height := 5; p_stride := 5;
     p_data := [ 0; 50; 100; 150; 200;
                10; 60; 110; 160; 210;
                20; 70; 120; 170; 220;
                30; 80; 130; 180; 230;
                40; 90; 140; 190; 255] |}.

(** A clip of variable format. *)
Definition variable_clip : VSVideoInfo := {|
  format := {| colorFamily := cfUndefined; sampleType := stInteger;
               bitsPerSample := 0; bytesPerSample := 0;
               subSamplingW := 0; subSamplingH := 0; numPlanes := 0 |};
  fpsNum := 24; fpsDen := 1; width := 0; height := 0; numFrames := 1
|}.

(** The five taps [k = -2 .. 2]. *)
Definition taps : list Z := [-2; -1; 0; 1; 2].

(** The indices the taps of column [x] are mirrored to. *)
Definition tap_indices (step size x : Z) : list Z :=
  map (fun k => mirror_boundary (x + k * step) size) taps.

(** * Facts

    ** binary32: operations that are exact *)

Module F32_facts.
Import F32.
Import Exact.


Lemma fexp_eq x : fexp prec emax x = Z.max (x - 24) (-149).
Proof. reflexivity. Qed.

Lemma digits2_bounds p :
  2 ^ (Zpos (digits2_pos p) - 1) <= Zpos p < 2 ^ Zpos (digits2_pos p).
Proof.
  induction p as [p IH|p IH|]; cbn [digits2_pos]; [| |cbn; lia];
    rewrite Pos2Z.inj_succ;
    replace (Z.succ (Zpos (digits2_pos p)) - 1)
      with (Z.succ (Zpos (digits2_pos p) - 1)) by lia;
    rewrite !Z.pow_succ_r by lia; lia.
Qed.

Lemma digits2_unique p d :
  2 ^ (d - 1) <= Zpos p < 2 ^ d -> Zpos (digits2_pos p) = d.
Proof.
  intros [Hlo Hhi]. pose proof (digits2_bounds p) as [Blo Bhi].
  set (d' := Zpos (digits2_pos p)) in *.
  assert (0 < d).
  { destruct (Z.lt_trichotomy d 0) as [?|[->|?]]; [|cbn in Hhi; lia|lia].
    rewrite Z.pow_neg_r in Hhi by lia. lia. }
  destruct (Z.lt_trichotomy d d') as [Hlt|[?|Hlt]]; [|done|].
  - assert (2 ^ d <= 2 ^ (d' - 1)) by (apply Z.pow_le_mono_r; lia). lia.
  - assert (2 ^ d' <= 2 ^ (d - 1)) by (apply Z.pow_le_mono_r; lia). lia.
Qed.

Lemma digits2_shift p q k :
  0 <= k -> Zpos q = Zpos p * 2 ^ k ->
  Zpos (digits2_pos q) = Zpos (digits2_pos p) + k.
Proof.
  intros Hk Hq. apply digits2_unique. rewrite Hq.
  pose proof (digits2_bounds p) as [Blo Bhi].
  replace (Zpos (digits2_pos p) + k - 1) with (Zpos (digits2_pos p) - 1 + k) by lia.
  rewrite !Z.pow_add_r by lia.
  assert (0 < 2 ^ k) by (apply Z.pow_pos_nonneg; lia).
  split; nia.
Qed.

Lemma dig_bounds z : z <> 0 -> 2 ^ (dig z - 1) <= Z.abs z < 2 ^ dig z.
Proof. destruct z; [done| |]; intros _; apply digits2_bounds. Qed.

Lemma dig_pos z : z <> 0 -> 0 < dig z.
Proof. destruct z; [done| |]; intros _; cbn; lia. Qed.

Lemma dig_le z n : 0 <= n -> Z.abs z < 2 ^ n -> dig z <= n.
Proof.
  intros Hn Hz. destruct (Z.eq_dec z 0) as [->|Hnz]; [cbn; lia|].
  pose proof (dig_bounds z Hnz) as [Blo _].
  destruct (Z.le_gt_cases (dig z) n) as [|Hgt]; [done|].
  assert (2 ^ n <= 2 ^ (dig z - 1)) by (apply Z.pow_le_mono_r; lia). lia.
Qed.

Lemma nm_spec z :
  z <> 0 -> Z.abs z < 2 ^ 24 ->
  Zpos (nm z) = Z.abs z * 2 ^ (24 - dig z) /\
  Zpos (digits2_pos (nm z)) = 24.
Proof.
  intros Hnz Hz. pose proof (dig_le z 24 ltac:(lia) Hz).
  pose proof (dig_pos z Hnz).
  assert (0 < 2 ^ (24 - dig z)) by (apply Z.pow_pos_nonneg; lia).
  assert (E : Zpos (nm z) = Z.abs z * 2 ^ (24 - dig z)).
  { unfold nm. rewrite Z2Pos.id; [done|nia]. }
  split; [done|].
  destruct z as [|p|p]; [done| |];
    rewrite (digits2_shift p _ (24 - Zpos (digits2_pos p)));
    cbn in *; try lia; exact E.
Qed.

Lemma iter_pos_nat {A} (f : A -> A) p x :
  SpecFloat.iter_pos f p x = Nat.iter (Pos.to_nat p) f x.
Proof.
  revert x. induction p as [p IH|p IH|]; intros x; cbn [SpecFloat.iter_pos].
  - rewrite !IH, Pos2Nat.inj_xI.
    replace (Datatypes.S (2 * Pos.to_nat p)) with (Pos.to_nat p + Datatypes.S (Pos.to_nat p))%nat by lia.
    rewrite Nat.iter_add. f_equal. rewrite Nat.iter_succ_r. done.
  - rewrite !IH, Pos2Nat.inj_xO.
    replace (2 * Pos.to_nat p)%nat with (Pos.to_nat p + Pos.to_nat p)%nat by lia.
    rewrite Nat.iter_add. done.
  - done.
Qed.


Lemma shr_1_double z : 0 < z -> shr_1 (exact_rec (2 * z)) = exact_rec z.
Proof. destruct z; done. Qed.

Lemma shr_iter_exact n z :
  0 < z -> Nat.iter n shr_1 (exact_rec (z * 2 ^ Z.of_nat n)) = exact_rec z.
Proof.
  intros Hz. induction n as [|n IH].
  - cbn. f_equal. lia.
  - rewrite Nat.iter_succ_r, Nat2Z.inj_succ, Z.pow_succ_r by lia.
    replace (z * (2 * 2 ^ Z.of_nat n)) with (2 * (z * 2 ^ Z.of_nat n)) by lia.
    rewrite shr_1_double; [done|].
    assert (0 < 2 ^ Z.of_nat n) by (apply Z.pow_pos_nonneg; lia). nia.
Qed.

Lemma shr_exact z e n :
  0 < z -> 0 <= n -> shr (exact_rec (z * 2 ^ n)) e n = (exact_rec z, e + n).
Proof.
  intros Hz Hn. unfold shr. destruct n as [|p|p]; [|f_equal|lia].
  - by rewrite Z.pow_0_r, Z.mul_1_r, Z.add_0_r.
  - rewrite iter_pos_nat. rewrite <- (positive_nat_Z p) at 1.
    by apply shr_iter_exact.
Qed.

Lemma bounded_spec m e :
  bounded prec emax m e = true <->
  Z.max (Zpos (digits2_pos m) + e - 24) (-149) = e /\ e <= 104.
Proof.
  unfold bounded, canonical_mantissa. rewrite andb_true_iff, Z.eqb_eq, Z.leb_le.
  rewrite fexp_eq. done.
Qed.

Lemma bra_exact s P e m' e' :
  bounded prec emax m' e' = true -> e <= e' ->
  Zpos P = Zpos m' * 2 ^ (e' - e) ->
  binary_round_aux prec emax s (Zpos P) e loc_Exact = S754_finite s m' e'.
Proof.
  intros Hb He HP. apply bounded_spec in Hb as [Hc Hle].
  assert (Hd : Zpos (digits2_pos P) = Zpos (digits2_pos m') + (e' - e))
    by (apply digits2_shift; [lia|done]).
  assert (H1 : shr_fexp prec emax (Zpos P) e loc_Exact = (exact_rec (Zpos m'), e')).
  { unfold shr_fexp. cbn [Zdigits2 shr_record_of_loc]. rewrite fexp_eq, Hd.
    replace (Zpos (digits2_pos m') + (e' - e) + e - 24)
      with (Zpos (digits2_pos m') + e' - 24) by lia.
    rewrite Hc, HP. change (Build_shr_record ?m false false) with (exact_rec m).
    rewrite shr_exact by lia. f_equal. lia. }
  assert (H2 : shr_fexp prec emax (Zpos m') e' loc_Exact = (exact_rec (Zpos m'), e')).
  { unfold shr_fexp. cbn [Zdigits2 shr_record_of_loc]. rewrite fexp_eq, Hc, Z.sub_diag. done. }
  unfold binary_round_aux. rewrite H1. cbn [exact_rec shr_m loc_of_shr_record round_nearest_even].
  rewrite H2. cbn [exact_rec shr_m].
  apply Z.leb_le in Hle. unfold prec, emax. cbn [Z.sub Z.add Z.opp Z.pos_sub Pos.pred_double] .
  change (128 - 24) with 104. rewrite Hle. done.
Qed.



Lemma shl_align_le m ex ez :
  ez <= ex ->
  exists m', shl_align m ex ez = (m', ez) /\ Zpos m' = Zpos m * 2 ^ (ex - ez).
Proof.
  intros Hle. unfold shl_align. destruct (ez - ex) as [|d|d] eqn:E; [|lia|].
  - exists m. replace ex with ez by lia. by rewrite Z.sub_diag, Z.mul_1_r.
  - exists (Pos.iter xO m d). split; [done|].
    change (Pos.iter xO m d) with (shift_pos d m). rewrite shift_pos_correct.
    replace (ex - ez) with (Zpos d) by lia. rewrite Z.mul_comm. done.
Qed.

Lemma shl_align_ge m ex ez : ex <= ez -> shl_align m ex ez = (m, ex).
Proof.
  intros Hle. unfold shl_align. destruct (ez - ex) as [|d|d] eqn:E; [done|done|lia].
Qed.

Lemma bounded_nm z e :
  z <> 0 -> Z.abs z < 2 ^ 24 -> -149 <= e <= 104 ->
  bounded prec emax (nm z) e = true.
Proof.
  intros Hnz Hz He. apply bounded_spec.
  destruct (nm_spec z Hnz Hz) as [_ ->]. lia.
Qed.

Lemma binary_round_canon s p j z e :
  z <> 0 -> Z.abs z < 2 ^ 24 -> 0 <= j ->
  -149 <= e + dig z - 24 <= 104 ->
  Zpos p = Z.abs z * 2 ^ j ->
  binary_round prec emax s p (e - j) = S754_finite s (nm z) (e + dig z - 24).
Proof.
  intros Hnz Hz Hj He Hp.
  destruct (nm_spec z Hnz Hz) as [Hnm Hdn].
  pose proof (dig_le z 24 ltac:(lia) Hz) as Hd24.
  pose proof (dig_pos z Hnz) as Hd0.
  assert (Hdp : Zpos (digits2_pos p) = dig z + j).
  { destruct z as [|q|q]; [done| |]; by apply digits2_shift. }
  unfold binary_round. rewrite fexp_eq, Hdp.
  replace (Z.max (dig z + j + (e - j) - 24) (-149)) with (e + dig z - 24) by lia.
  destruct (Z.le_gt_cases (e + dig z - 24) (e - j)) as [Hc|Hc].
  - destruct (shl_align_le p (e - j) (e + dig z - 24) Hc) as (m' & -> & Hm').
    apply bra_exact; [by apply bounded_nm|lia|].
    rewrite Z.sub_diag, Z.mul_1_r, Hm', Hp, Hnm, <- Z.mul_assoc, <- Z.pow_add_r by lia.
    do 2 f_equal. lia.
  - rewrite shl_align_ge by lia.
    apply bra_exact; [by apply bounded_nm|lia|].
    rewrite Hp, Hnm, <- Z.mul_assoc, <- Z.pow_add_r by lia.
    do 2 f_equal. lia.
Qed.

Lemma bn_canon z j e sz :
  z <> 0 -> Z.abs z < 2 ^ 24 -> 0 <= j ->
  -149 <= e + dig z - 24 <= 104 ->
  binary_normalize prec emax (z * 2 ^ j) (e - j) sz = canon z e.
Proof.
  intros Hnz Hz Hj He.
  assert (H2 : 0 < 2 ^ j) by (apply Z.pow_pos_nonneg; lia).
  unfold binary_normalize, canon.
  destruct (z * 2 ^ j) as [|p|p] eqn:E; [nia| |].
  - replace (z <? 0) with false by (symmetry; apply Z.ltb_ge; nia).
    apply binary_round_canon; try done. rewrite Z.abs_eq by nia. lia.
  - replace (z <? 0) with true by (symmetry; apply Z.ltb_lt; nia).
    apply binary_round_canon; try done. rewrite Z.abs_neq by nia. lia.
Qed.


Lemma fl_0 e : fl 0 e = zero.
Proof. done. Qed.

Lemma of_int_fl n : of_int n = fl n 0.
Proof. done. Qed.

Lemma fl_canon z e :
  z <> 0 -> Z.abs z < 2 ^ 24 -> mid e -> fl z e = canon z e.
Proof.
  intros Hnz Hz He. unfold fl.
  pose proof (dig_le z 24 ltac:(lia) Hz). pose proof (dig_pos z Hnz).
  rewrite <- (Z.mul_1_r z) at 1. change 1 with (2 ^ 0) at 1.
  rewrite <- (Z.sub_0_r e) at 1. apply bn_canon; unfold mid in *; lia.
Qed.

Lemma fl_shift z j e :
  Z.abs z < 2 ^ 24 -> 0 <= j -> mid e -> fl (z * 2 ^ j) (e - j) = fl z e.
Proof.
  intros Hz Hj He. destruct (Z.eq_dec z 0) as [->|Hnz]; [done|].
  pose proof (dig_le z 24 ltac:(lia) Hz). pose proof (dig_pos z Hnz).
  rewrite (fl_canon z e) by done. apply bn_canon; unfold mid in *; lia.
Qed.


Lemma signed_nm a k :
  a <> 0 -> Z.abs a < 2 ^ 24 ->
  cond_Zopp (a <? 0) (Zpos (nm a) * k) = a * 2 ^ (24 - dig a) * k.
Proof.
  intros Hnz Hz. destruct (nm_spec a Hnz Hz) as [-> _].
  unfold cond_Zopp. destruct (Z.ltb_spec a 0); [rewrite Z.abs_neq|rewrite Z.abs_eq]; lia.
Qed.

Lemma aligned_nm a e ez :
  a <> 0 -> Z.abs a < 2 ^ 24 -> ez <= e + dig a - 24 ->
  cond_Zopp (a <? 0) (Zpos (shl_align (nm a) (e + dig a - 24) ez).1)
  = a * 2 ^ (e - ez).
Proof.
  intros Hnz Hz Hle.
  pose proof (dig_le a 24 ltac:(lia) Hz).
  destruct (shl_align_le (nm a) _ _ Hle) as (m' & E1 & E2).
  rewrite E1. cbn [fst]. rewrite E2.
  rewrite signed_nm, <- Z.mul_assoc, <- Z.pow_add_r by (done || lia).
  do 2 f_equal. lia.
Qed.

Lemma add_canon a b e :
  a <> 0 -> b <> 0 -> Z.abs a < 2 ^ 24 -> Z.abs b < 2 ^ 24 ->
  exists j, 0 <= j <= 24 /\
    add (canon a e) (canon b e)
    = binary_normalize prec emax ((a + b) * 2 ^ j) (e - j) false.
Proof.
  intros Ha Hb Hza Hzb.
  pose proof (dig_le a 24 ltac:(lia) Hza). pose proof (dig_pos a Ha).
  pose proof (dig_le b 24 ltac:(lia) Hzb). pose proof (dig_pos b Hb).
  set (ez := Z.min (e + dig a - 24) (e + dig b - 24)).
  exists (e - ez). split; [lia|].
  unfold add, canon, SFadd. fold ez.
  rewrite !aligned_nm by (done || lia).
  f_equal; lia.
Qed.

Lemma add_exact a b e :
  Z.abs a < 2 ^ 24 -> Z.abs b < 2 ^ 24 -> Z.abs (a + b) < 2 ^ 24 -> mid e ->
  add (fl a e) (fl b e) = fl (a + b) e.
Proof.
  intros Hza Hzb Hzs He.
  destruct (Z.eq_dec a 0) as [->|Ha].
  { destruct (Z.eq_dec b 0) as [->|Hb]; [done|].
    rewrite Z.add_0_l, fl_0, (fl_canon b) by done. done. }
  destruct (Z.eq_dec b 0) as [->|Hb].
  { rewrite Z.add_0_r, fl_0, (fl_canon a) by done. done. }
  rewrite (fl_canon a), (fl_canon b) by done.
  destruct (add_canon a b e) as (j & Hj & ->); try done.
  destruct (Z.eq_dec (a + b) 0) as [->|Hs]; [done|].
  rewrite fl_canon by done.
  pose proof (dig_le (a + b) 24 ltac:(lia) Hzs). pose proof (dig_pos (a + b) Hs).
  apply bn_canon; unfold mid in *; lia.
Qed.

Lemma opp_fl a e : Z.abs a < 2 ^ 24 -> mid e -> a <> 0 -> SFopp (fl a e) = fl (- a) e.
Proof.
  intros Hz He Ha. rewrite !fl_canon by (done || lia).
  unfold canon, SFopp. f_equal.
  - destruct (Z.ltb_spec a 0), (Z.ltb_spec (- a) 0); done || lia.
  - unfold nm. rewrite Z.abs_opp. destruct a; done.
  - destruct a; done.
Qed.


Lemma sub_add_opp x y : SFsub prec emax x y = SFadd prec emax x (SFopp y).
Proof.
  destruct x as [[]|[]| |sx mx ex], y as [[]|[]| |sy my ey]; try done.
  cbn [SFsub SFadd SFopp]. f_equal. destruct sy; cbn [negb cond_Zopp]; lia.
Qed.

Lemma sub_exact a b e :
  Z.abs a < 2 ^ 24 -> Z.abs b < 2 ^ 24 -> Z.abs (a - b) < 2 ^ 24 -> mid e ->
  sub (fl a e) (fl b e) = fl (a - b) e.
Proof.
  intros Hza Hzb Hzs He. unfold sub. rewrite sub_add_opp.
  destruct (Z.eq_dec b 0) as [->|Hb].
  { rewrite Z.sub_0_r, fl_0. destruct (Z.eq_dec a 0) as [->|Ha]; [done|].
    rewrite (fl_canon a) by done. done. }
  rewrite opp_fl by done. apply add_exact; try done; lia.
Qed.


Lemma dig_mul a b :
  0 < a -> 0 < b -> dig a + dig b - 1 <= dig (a * b).
Proof.
  intros Ha Hb.
  pose proof (dig_bounds a ltac:(lia)) as [La _].
  pose proof (dig_bounds b ltac:(lia)) as [Lb _].
  pose proof (dig_bounds (a * b) ltac:(nia)) as [_ Uab].
  pose proof (dig_pos a ltac:(lia)). pose proof (dig_pos b ltac:(lia)).
  rewrite Z.abs_eq in * by nia.
  destruct (Z.le_gt_cases (dig a + dig b - 1) (dig (a * b))) as [|Hgt]; [done|].
  assert (2 ^ dig (a * b) <= 2 ^ (dig a - 1 + (dig b - 1)))
    by (apply Z.pow_le_mono_r; lia).
  rewrite Z.pow_add_r in * by lia. nia.
Qed.

Lemma mul_exact a b e1 e2 :
  0 <= a -> 0 < b -> b < 2 ^ 24 -> a * b < 2 ^ 24 ->
  mid e1 -> mid e2 -> mid (e1 + e2) ->
  mul (fl a e1) (fl b e2) = fl (a * b) (e1 + e2).
Proof.
  intros Ha Hb Hzb Hab He1 He2 He.
  rewrite (fl_canon b) by (done || lia).
  destruct (Z.eq_dec a 0) as [->|Hnz].
  { rewrite Z.mul_0_l, !fl_0. unfold canon.
    replace (b <? 0) with false by (symmetry; apply Z.ltb_ge; lia). done. }
  assert (Hza : Z.abs a < 2 ^ 24) by nia.
  rewrite (fl_canon a), (fl_canon (a * b)) by (done || nia).
  unfold canon, mul, SFmul.
  replace (a <? 0) with false by (symmetry; apply Z.ltb_ge; lia).
  replace (b <? 0) with false by (symmetry; apply Z.ltb_ge; lia).
  replace (a * b <? 0) with false by (symmetry; apply Z.ltb_ge; nia).
  cbn [xorb].
  destruct (nm_spec a) as [Na _]; [done..|].
  destruct (nm_spec b) as [Nb _]; [lia..|].
  destruct (nm_spec (a * b)) as [Nab _]; [nia..|].
  pose proof (dig_mul a b ltac:(lia) Hb).
  pose proof (dig_le a 24 ltac:(lia) Hza).
  pose proof (dig_le b 24 ltac:(lia) ltac:(lia)).
  pose proof (dig_le (a * b) 24 ltac:(lia) ltac:(nia)).
  pose proof (dig_pos a Hnz). pose proof (dig_pos b ltac:(lia)).
  pose proof (dig_pos (a * b) ltac:(nia)).
  apply bra_exact.
  - apply bounded_nm; [nia..|]. unfold mid in *. lia.
  - lia.
  - rewrite Pos2Z.inj_mul, Na, Nb, Nab. rewrite !Z.abs_eq by nia.
    replace (e1 + e2 + dig (a * b) - 24 - (e1 + dig a - 24 + (e2 + dig b - 24)))
      with (24 - dig a + (24 - dig b) - (24 - dig (a * b))) by lia.
    set (x := 24 - dig a). set (y := 24 - dig b). set (z := 24 - dig (a * b)).
    replace (a * b * 2 ^ z * 2 ^ (x + y - z)) with (a * b * (2 ^ z * 2 ^ (x + y - z))) by lia.
    rewrite <- Z.pow_add_r by lia. replace (z + (x + y - z)) with (x + y) by lia.
    rewrite Z.pow_add_r by lia. subst x y. ring.
Qed.

Lemma div_core_256 m ex :
  Zpos (digits2_pos m) = 24 -> -140 <= ex ->
  SFdiv_core_binary prec emax (Zpos m) ex 8388608 (-15)
  = (Zpos m~0, ex - 9, loc_Exact).
Proof.
  intros Hd He. unfold SFdiv_core_binary. cbn [Zdigits2]. rewrite Hd, fexp_eq.
  change (Zpos (digits2_pos 8388608)) with 24.
  replace (Z.min (Z.max (24 + ex - (24 + -15) - 24) (-149)) (ex - -15))
    with (ex - 9) by lia.
  replace (ex - -15 - (ex - 9)) with 24 by lia.
  rewrite Z.shiftl_mul_pow2 by lia.
  destruct (Z.div_eucl (Zpos m * 2 ^ 24) 8388608) as [q r] eqn:E.
  assert (Hq : q = Zpos m * 2 ^ 24 / 8388608) by (unfold Z.div; by rewrite E).
  assert (Hr : r = (Zpos m * 2 ^ 24) mod 8388608) by (unfold Z.modulo; by rewrite E).
  replace (Zpos m * 2 ^ 24) with (Zpos m~0 * 8388608) in Hq, Hr by lia.
  rewrite Z.div_mul in Hq by lia. rewrite Z.mod_mul in Hr by lia.
  subst q r. done.
Qed.

Lemma div_256 a e :
  0 <= a < 2 ^ 24 -> mid e -> mid (e - 8) ->
  div (fl a e) (of_int 256) = fl a (e - 8).
Proof.
  intros Ha He He8. destruct (Z.eq_dec a 0) as [->|Hnz]; [done|].
  pose proof (dig_le a 24 ltac:(lia) ltac:(lia)). pose proof (dig_pos a Hnz).
  rewrite (fl_canon a e), (fl_canon a (e - 8)) by (done || lia).
  unfold mid in *.
  change (of_int 256) with (S754_finite false 8388608 (-15)).
  unfold canon, div, SFdiv.
  destruct (nm_spec a) as [_ Hd]; [done|lia|].
  rewrite div_core_256 by (done || lia).
  rewrite xorb_false_r. apply bra_exact.
  - apply bounded_nm; [done|lia|lia].
  - lia.
  - replace (e - 8 + dig a - 24 - (e + dig a - 24 - 9)) with 1 by lia. lia.
Qed.


Lemma mag_cmp a b e :
  a <> 0 -> b <> 0 -> Z.abs a < 2 ^ 24 -> Z.abs b < 2 ^ 24 ->
  match e + dig a - 24 ?= e + dig b - 24 with
  | Lt => Lt
  | Gt => Gt
  | Eq => Pos.compare_cont Eq (nm a) (nm b)
  end = (Z.abs a ?= Z.abs b).
Proof.
  intros Ha Hb Hza Hzb.
  pose proof (dig_bounds a Ha) as [La Ua]. pose proof (dig_bounds b Hb) as [Lb Ub].
  destruct (nm_spec a Ha Hza) as [Na _]. destruct (nm_spec b Hb Hzb) as [Nb _].
  pose proof (dig_le a 24 ltac:(lia) Hza).
  destruct (Z.compare_spec (e + dig a - 24) (e + dig b - 24)) as [E|E|E].
  - change (Pos.compare_cont Eq (nm a) (nm b)) with (Zpos (nm a) ?= Zpos (nm b)).
    rewrite Na, Nb. replace (dig b) with (dig a) by lia.
    symmetry. apply Zmult_compare_compat_r, Z.lt_gt, Z.pow_pos_nonneg; lia.
  - symmetry. apply Z.compare_lt_iff.
    assert (2 ^ dig a <= 2 ^ (dig b - 1)) by (apply Z.pow_le_mono_r; lia). lia.
  - symmetry. apply Z.compare_gt_iff.
    assert (2 ^ dig b <= 2 ^ (dig a - 1)) by (apply Z.pow_le_mono_r; lia). lia.
Qed.

Lemma ltb_exact a b e :
  Z.abs a < 2 ^ 24 -> Z.abs b < 2 ^ 24 -> mid e ->
  ltb (fl a e) (fl b e) = (a <? b).
Proof.
  intros Hza Hzb He. unfold ltb, SFltb.
  destruct (Z.eq_dec a 0) as [->|Ha], (Z.eq_dec b 0) as [->|Hb];
    rewrite ?fl_0, ?(fl_canon a), ?(fl_canon b) by done; unfold canon, zero;
    cbn [SFcompare].
  - done.
  - destruct (Z.ltb_spec b 0), (Z.ltb_spec 0 b); done || lia.
  - destruct (Z.ltb_spec a 0); done.
  - pose proof (mag_cmp a b e Ha Hb Hza Hzb) as Hc.
    destruct (Z.ltb_spec a 0), (Z.ltb_spec b 0); unfold Z.ltb.
    + rewrite <- (Z.compare_opp b a), <- !Z.abs_neq by lia.
      rewrite (Z.compare_antisym (Z.abs a) (Z.abs b)), <- Hc.
      by destruct (e + dig a - 24 ?= e + dig b - 24), (Pos.compare_cont Eq (nm a) (nm b)).
    + by replace (a ?= b) with Lt by (symmetry; apply Z.compare_lt_iff; lia).
    + by replace (a ?= b) with Gt by (symmetry; apply Z.compare_gt_iff; lia).
    + replace (a ?= b) with (Z.abs a ?= Z.abs b)
        by (rewrite !Z.abs_eq by lia; done).
      rewrite <- Hc.
      by destruct (e + dig a - 24 ?= e + dig b - 24).
Qed.

Lemma trunc_fl n : 0 <= n < 2 ^ 24 -> trunc (fl n 0) = n.
Proof.
  intros Hn. destruct (Z.eq_dec n 0) as [->|Hnz]; [done|].
  rewrite fl_canon by (done || unfold mid; lia). unfold canon, trunc.
  destruct (nm_spec n) as [-> _]; [done|lia|].
  pose proof (dig_le n 24 ltac:(lia) ltac:(lia)).
  replace (n <? 0) with false by (symmetry; apply Z.ltb_ge; lia).
  rewrite Z.abs_eq by lia. cbn [cond_Zopp].
  destruct (Z.leb_spec 0 (0 + dig n - 24)).
  - replace (dig n) with 24 by lia. cbn. lia.
  - replace (- (0 + dig n - 24)) with (24 - dig n) by lia.
    apply Z.div_mul. apply Z.pow_nonzero; lia.
Qed.

Lemma bn_nonzero z e s s' :
  z <> 0 -> binary_normalize prec emax z e s = binary_normalize prec emax z e s'.
Proof. by destruct z. Qed.

Lemma round_fl a :
  a <> 0 -> Z.abs a < 2 ^ 24 ->
  round (fl a (-8))
  = binary_normalize prec emax
      (cond_Zopp (a <? 0) ((Z.abs a + 128) / 256)) 0 (a <? 0).
Proof.
  intros Ha Hz. rewrite fl_canon by (done || unfold mid; lia).
  unfold canon, round.
  pose proof (dig_le a 24 ltac:(lia) Hz). pose proof (dig_pos a Ha).
  destruct (Z.leb_spec 0 (-8 + dig a - 24)); [lia|].
  destruct (nm_spec a Ha Hz) as [-> _].
  replace (- (-8 + dig a - 24)) with (8 + (24 - dig a)) by lia.
  replace (8 + (24 - dig a) - 1) with (7 + (24 - dig a)) by lia.
  rewrite !Z.pow_add_r by lia.
  replace (Z.abs a * 2 ^ (24 - dig a) + 2 ^ 7 * 2 ^ (24 - dig a))
    with ((Z.abs a + 128) * 2 ^ (24 - dig a)) by (change (2 ^ 7) with 128; lia).
  change (2 ^ 8) with 256.
  rewrite Z.div_mul_cancel_r; [done|lia|]. apply Z.pow_nonzero; lia.
Qed.



Lemma clamp_fl v mx :
  Z.abs v < 2 ^ 24 -> 0 <= mx < 2 ^ 24 ->
  trunc (clamp (fl v 0) zero (of_int mx)) = clampZ v 0 mx.
Proof.
  intros Hv Hmx. unfold clamp, clampZ, of_int.
  change zero with (fl 0 0).
  rewrite !ltb_exact by (done || lia || unfold mid; lia).
  destruct (v <? 0) eqn:E1; [done|]. apply Z.ltb_ge in E1.
  destruct (mx <? v); apply trunc_fl; lia.
Qed.

Lemma clamp_zero s mx :
  0 <= mx < 2 ^ 24 -> clamp (S754_zero s) zero (of_int mx) = S754_zero s.
Proof.
  intros Hmx. unfold clamp, of_int, ltb, SFltb.
  destruct (Z.eq_dec mx 0) as [->|Hnz]; [done|].
  rewrite fl_canon by (done || lia || unfold mid; lia). unfold canon.
  by replace (mx <? 0) with false by (symmetry; apply Z.ltb_ge; lia).
Qed.

Lemma to_int_exact a mx :
  Z.abs a < 2 ^ 24 -> 0 <= mx < 2 ^ 24 ->
  trunc (clamp (round (fl a (-8))) zero (of_int mx))
  = clampZ (round_half_away a) 0 mx.
Proof.
  intros Ha Hmx.
  assert (Hc0 : clampZ 0 0 mx = 0).
  { unfold clampZ. cbn. destruct (Z.ltb_spec mx 0); [lia|done]. }
  destruct (Z.eq_dec a 0) as [->|Hnz].
  { rewrite fl_0. change (round zero) with (S754_zero false).
    change (round_half_away 0) with 0. by rewrite clamp_zero, Hc0. }
  rewrite round_fl by done. unfold round_half_away.
  assert (Hq : 0 <= (Z.abs a + 128) / 256 < 2 ^ 24).
  { split; [apply Z.div_pos; lia|]. apply Z.div_lt_upper_bound; lia. }
  set (q := (Z.abs a + 128) / 256) in *.
  destruct (Z.eq_dec q 0) as [->|Hq0].
  { replace (cond_Zopp (a <? 0) 0) with 0 by (by destruct (a <? 0)).
    cbn [binary_normalize]. by rewrite clamp_zero, Z.mul_0_r, Hc0. }
  replace (cond_Zopp (a <? 0) q) with (Z.sgn a * q)
    by (unfold cond_Zopp; destruct (Z.ltb_spec a 0); lia).
  rewrite (bn_nonzero _ _ _ false) by nia.
  apply (clamp_fl (Z.sgn a * q)); [nia|done].
Qed.

Lemma round_int v : Z.abs v < 2 ^ 24 -> round (fl v 0) = fl v 0.
Proof.
  intros Hz. destruct (Z.eq_dec v 0) as [->|Hnz]; [done|].
  assert (M0 : mid 0) by (unfold mid; lia).
  rewrite fl_canon by done. unfold canon, round.
  destruct (Z.leb_spec 0 (0 + dig v - 24)) as [|Hneg]; [done|].
  destruct (nm_spec v Hnz Hz) as [Hnm _].
  pose proof (dig_pos v Hnz).
  set (k := 24 - dig v) in *.
  replace (- (0 + dig v - 24)) with k by lia.
  assert (Hk : 0 < 2 ^ (k - 1) < 2 ^ k).
  { split; [apply Z.pow_pos_nonneg; lia|apply Z.pow_lt_mono_r; lia]. }
  rewrite Hnm, Z.div_add_l, Z.div_small, Z.add_0_r by lia.
  replace (cond_Zopp (v <? 0) (Z.abs v)) with v
    by (unfold cond_Zopp; destruct (Z.ltb_spec v 0); lia).
  rewrite (bn_nonzero _ _ _ false) by done.
  change (binary_normalize prec emax v 0 false) with (fl v 0).
  by rewrite fl_canon.
Qed.

Lemma to_int_int v mx :
  Z.abs v < 2 ^ 24 -> 0 <= mx < 2 ^ 24 ->
  trunc (clamp (round (fl v 0)) zero (of_int mx)) = clampZ v 0 mx.
Proof. intros Hv Hmx. rewrite round_int by done. by apply clamp_fl. Qed.

Lemma shr_1_pos t :
  0 < t ->
  shr_1 (exact_rec t)
  = {| shr_m := Z.div2 t; shr_r := Z.odd t; shr_s := false |}.
Proof. destruct t as [|[p|p|]|]; done. Qed.

Lemma shr_succ t j e :
  0 < t -> 0 <= j ->
  shr (exact_rec (t * 2 ^ j)) e (j + 1)
  = ({| shr_m := Z.div2 t; shr_r := Z.odd t; shr_s := false |}, e + (j + 1)).
Proof.
  intros Ht Hj. unfold shr. destruct (j + 1) as [|p|p] eqn:E; [lia| |lia].
  rewrite iter_pos_nat.
  replace (Pos.to_nat p) with (Datatypes.S (Z.to_nat j)) by lia.
  rewrite Nat.iter_succ.
  replace (2 ^ j) with (2 ^ Z.of_nat (Z.to_nat j)) by (by rewrite Z2Nat.id).
  rewrite shr_iter_exact by done. by rewrite shr_1_pos.
Qed.

Lemma binary_round_big p t j e :
  2 ^ 24 <= t < 2 ^ 25 -> 0 <= j -> mid e -> Zpos p = t * 2 ^ j ->
  exists m e',
    binary_round prec emax false p (e - j) = S754_finite false m e' /\
    (e' = e + 1 \/ e' = e + 2) /\ 2 ^ 23 <= Zpos m < 2 ^ 24.
Proof.
  intros Ht Hj He Hp. unfold mid in He.
  assert (Hdp : Zpos (digits2_pos p) = 25 + j).
  { apply digits2_unique. rewrite Hp.
    replace (25 + j - 1) with (24 + j) by lia. rewrite !Z.pow_add_r by lia.
    assert (0 < 2 ^ j) by (apply Z.pow_pos_nonneg; lia). nia. }
  unfold binary_round. rewrite fexp_eq, Hdp, shl_align_ge by lia.
  assert (H1 : shr_fexp prec emax (Zpos p) (e - j) loc_Exact
               = ({| shr_m := Z.div2 t; shr_r := Z.odd t; shr_s := false |}, e + 1)).
  { unfold shr_fexp. cbn [Zdigits2 shr_record_of_loc].
    rewrite fexp_eq, Hdp, Hp.
    replace (Z.max (25 + j + (e - j) - 24) (-149) - (e - j)) with (j + 1) by lia.
    change (Build_shr_record ?m false false) with (exact_rec m).
    rewrite shr_succ by lia. f_equal. lia. }
  unfold binary_round_aux. rewrite H1. cbn [shr_m].
  set (h := Z.div2 t).
  assert (Hh : 2 ^ 23 <= h < 2 ^ 24).
  { subst h. rewrite Z.div2_div. split.
    - apply Z.div_le_lower_bound; lia.
    - apply Z.div_lt_upper_bound; lia. }
  set (m1 := round_nearest_even h
               (loc_of_shr_record
                  {| shr_m := h; shr_r := Z.odd t; shr_s := false |})).
  assert (Hm1 : 2 ^ 23 <= m1 <= 2 ^ 24).
  { subst m1. cbn [loc_of_shr_record]. destruct (Z.odd t); cbn [round_nearest_even];
      [destruct (Z.even h)|]; lia. }
  clearbody m1.
  destruct (Z.eq_dec m1 (2 ^ 24)) as [->|Hne].
  - exists 8388608%positive, (e + 2). split; [|split; [lia|done]].
    unfold shr_fexp. rewrite fexp_eq.
    change (Zdigits2 (2 ^ 24)) with 25.
    replace (Z.max (25 + (e + 1) - 24) (-149) - (e + 1)) with 1 by lia.
    cbn [shr_record_of_loc shr SpecFloat.iter_pos]. cbn [shr_m].
    change (shr_m (shr_1 {| shr_m := 2 ^ 24; shr_r := false; shr_s := false |}))
      with 8388608.
    replace (e + 1 + 1) with (e + 2) by lia.
    replace (e + 2 <=? emax - prec) with true
      by (symmetry; apply Z.leb_le; unfold emax, prec; lia).
    done.
  - destruct m1 as [|m|m]; [lia| |lia]. exists m, (e + 1).
    split; [|split; [lia|lia]].
    assert (Hd : Zpos (digits2_pos m) = 24) by (apply digits2_unique; lia).
    unfold shr_fexp. cbn [Zdigits2]. rewrite fexp_eq, Hd.
    replace (Z.max (24 + (e + 1) - 24) (-149) - (e + 1)) with 0 by lia.
    cbn [shr_record_of_loc shr shr_m].
    replace (e + 1 <=? emax - prec) with true
      by (symmetry; apply Z.leb_le; unfold emax, prec; lia).
    done.
Qed.

Lemma add_big a b e :
  a <> 0 -> b <> 0 -> Z.abs a < 2 ^ 24 -> Z.abs b < 2 ^ 24 ->
  2 ^ 24 <= a + b -> mid e ->
  exists m e',
    add (fl a e) (fl b e) = S754_finite false m e' /\
    (e' = e + 1 \/ e' = e + 2) /\ 2 ^ 23 <= Zpos m < 2 ^ 24.
Proof.
  intros Ha Hb Hza Hzb Hs He.
  rewrite (fl_canon a), (fl_canon b) by done.
  destruct (add_canon a b e) as (j & Hj & ->); try done.
  assert (0 < 2 ^ j) by (apply Z.pow_pos_nonneg; lia).
  unfold binary_normalize. destruct ((a + b) * 2 ^ j) as [|p|p] eqn:E; [nia| |nia].
  apply (binary_round_big p (a + b)); try done; lia.
Qed.

Lemma to_int_big m e' mx :
  e' = -7 \/ e' = -6 -> 2 ^ 23 <= Zpos m < 2 ^ 24 -> 0 <= mx < 2 ^ 16 ->
  trunc (clamp (round (S754_finite false m e')) zero (of_int mx)) = mx.
Proof.
  intros He Hm Hmx. unfold round.
  replace (0 <=? e') with false by (symmetry; apply Z.leb_gt; lia).
  cbn [cond_Zopp].
  set (q := (Zpos m + 2 ^ (- e' - 1)) / 2 ^ (- e')).
  assert (Hq : 2 ^ 16 <= q < 2 ^ 24).
  { subst q. destruct He as [-> | ->]; cbn [Z.opp Z.sub Z.add Z.pos_sub Z.pow Z.pow_pos Pos.iter Z.mul Pos.mul Pos.pred_double Z.succ_double Z.pred_double Z.double];
      (split; [apply Z.div_le_lower_bound|apply Z.div_lt_upper_bound]; lia). }
  change (binary_normalize prec emax q 0 false) with (fl q 0).
  rewrite clamp_fl by lia. unfold clampZ.
  replace (q <? 0) with false by (symmetry; apply Z.ltb_ge; lia).
  by replace (mx <? q) with true by (symmetry; apply Z.ltb_lt; lia).
Qed.

(** *** Sums and differences over the whole exponent range *)

Lemma cexp_le z e : Z.abs z < 2 ^ 24 -> -149 <= e -> -149 <= cexp z e <= e.
Proof.
  intros Hz He. pose proof (dig_le z 24 ltac:(lia) Hz). unfold cexp. lia.
Qed.

Lemma repr_mant z e :
  z <> 0 -> Z.abs z < 2 ^ 24 -> -149 <= e ->
  Zpos (Z.to_pos (Z.abs z * 2 ^ (e - cexp z e)))
  = Z.abs z * 2 ^ (e - cexp z e) /\
  Zpos (digits2_pos (Z.to_pos (Z.abs z * 2 ^ (e - cexp z e))))
  = dig z + (e - cexp z e).
Proof.
  intros Hnz Hz He. pose proof (cexp_le z e Hz He).
  assert (0 < 2 ^ (e - cexp z e)) by (apply Z.pow_pos_nonneg; lia).
  assert (E : Zpos (Z.to_pos (Z.abs z * 2 ^ (e - cexp z e)))
              = Z.abs z * 2 ^ (e - cexp z e))
    by (rewrite Z2Pos.id; [done|nia]).
  split; [done|].
  destruct z as [|p|p]; [done| |];
    apply (digits2_shift p); try lia; exact E.
Qed.

Lemma bounded_repr z e :
  z <> 0 -> Z.abs z < 2 ^ 24 -> -149 <= e <= 104 ->
  bounded prec emax (Z.to_pos (Z.abs z * 2 ^ (e - cexp z e))) (cexp z e)
  = true.
Proof.
  intros Hnz Hz He. apply bounded_spec.
  destruct (repr_mant z e Hnz Hz) as [_ ->]; [lia|].
  pose proof (cexp_le z e Hz ltac:(lia)). unfold cexp in *. lia.
Qed.

Lemma binary_round_repr s p j z e :
  z <> 0 -> Z.abs z < 2 ^ 24 -> 0 <= j -> -149 <= e <= 104 ->
  Zpos p = Z.abs z * 2 ^ j ->
  binary_round prec emax s p (e - j)
  = S754_finite s (Z.to_pos (Z.abs z * 2 ^ (e - cexp z e))) (cexp z e).
Proof.
  intros Hnz Hz Hj He Hp.
  destruct (repr_mant z e Hnz Hz ltac:(lia)) as [Hm Hdm].
  pose proof (cexp_le z e Hz ltac:(lia)) as Hce.
  assert (Hdp : Zpos (digits2_pos p) = dig z + j).
  { destruct z as [|q|q]; [done| |]; by apply digits2_shift. }
  unfold binary_round. rewrite fexp_eq, Hdp.
  replace (Z.max (dig z + j + (e - j) - 24) (-149)) with (cexp z e)
    by (unfold cexp; lia).
  destruct (Z.le_gt_cases (cexp z e) (e - j)) as [Hc|Hc].
  - destruct (shl_align_le p (e - j) (cexp z e) Hc) as (m' & -> & Hm').
    apply bra_exact; [by apply bounded_repr|lia|].
    rewrite Z.sub_diag, Z.mul_1_r, Hm', Hp, Hm, <- Z.mul_assoc,
      <- Z.pow_add_r by lia.
    do 2 f_equal. lia.
  - rewrite shl_align_ge by lia.
    apply bra_exact; [by apply bounded_repr|lia|].
    rewrite Hp, Hm, <- Z.mul_assoc, <- Z.pow_add_r by lia.
    do 2 f_equal. lia.
Qed.

Lemma bn_repr z j e sz :
  z <> 0 -> Z.abs z < 2 ^ 24 -> 0 <= j -> -149 <= e <= 104 ->
  binary_normalize prec emax (z * 2 ^ j) (e - j) sz = repr z e.
Proof.
  intros Hnz Hz Hj He.
  assert (H2 : 0 < 2 ^ j) by (apply Z.pow_pos_nonneg; lia).
  unfold binary_normalize, repr.
  destruct (z * 2 ^ j) as [|p|p] eqn:E; [nia| |].
  - replace (z <? 0) with false by (symmetry; apply Z.ltb_ge; nia).
    apply binary_round_repr; try done. rewrite Z.abs_eq by nia. lia.
  - replace (z <? 0) with true by (symmetry; apply Z.ltb_lt; nia).
    apply binary_round_repr; try done. rewrite Z.abs_neq by nia. lia.
Qed.

Lemma fl_repr z e :
  z <> 0 -> Z.abs z < 2 ^ 24 -> -149 <= e <= 104 -> fl z e = repr z e.
Proof.
  intros Hnz Hz He. unfold fl.
  rewrite <- (Z.mul_1_r z) at 1. change 1 with (2 ^ 0) at 1.
  rewrite <- (Z.sub_0_r e) at 1. by apply bn_repr.
Qed.

Lemma aligned_repr a e ez :
  a <> 0 -> Z.abs a < 2 ^ 24 -> -149 <= e -> ez <= cexp a e ->
  cond_Zopp (a <? 0)
    (Zpos (shl_align (Z.to_pos (Z.abs a * 2 ^ (e - cexp a e)))
             (cexp a e) ez).1)
  = a * 2 ^ (e - ez).
Proof.
  intros Hnz Hz He Hle.
  pose proof (cexp_le a e Hz He).
  destruct (repr_mant a e Hnz Hz He) as [Hm _].
  destruct (shl_align_le (Z.to_pos (Z.abs a * 2 ^ (e - cexp a e))) _ _ Hle)
    as (m' & E1 & E2).
  rewrite E1. cbn [fst]. rewrite E2, Hm, <- Z.mul_assoc, <- Z.pow_add_r by lia.
  replace (e - cexp a e + (cexp a e - ez)) with (e - ez) by lia.
  unfold cond_Zopp.
  destruct (Z.ltb_spec a 0); [rewrite Z.abs_neq|rewrite Z.abs_eq]; lia.
Qed.

Lemma add_repr a b e :
  a <> 0 -> b <> 0 -> Z.abs a < 2 ^ 24 -> Z.abs b < 2 ^ 24 -> -149 <= e ->
  exists j, 0 <= j /\
    add (repr a e) (repr b e)
    = binary_normalize prec emax ((a + b) * 2 ^ j) (e - j) false.
Proof.
  intros Ha Hb Hza Hzb He.
  pose proof (cexp_le a e Hza He). pose proof (cexp_le b e Hzb He).
  set (ez := Z.min (cexp a e) (cexp b e)).
  exists (e - ez). split; [lia|].
  unfold add, repr, SFadd. fold ez.
  rewrite !aligned_repr by (done || lia).
  f_equal; lia.
Qed.

Lemma add_exact_wide a b e :
  Z.abs a < 2 ^ 24 -> Z.abs b < 2 ^ 24 -> Z.abs (a + b) < 2 ^ 24 ->
  -149 <= e <= 104 ->
  add (fl a e) (fl b e) = fl (a + b) e.
Proof.
  intros Hza Hzb Hzs He.
  destruct (Z.eq_dec a 0) as [->|Ha].
  { destruct (Z.eq_dec b 0) as [->|Hb]; [done|].
    rewrite Z.add_0_l, fl_0, (fl_repr b) by done. done. }
  destruct (Z.eq_dec b 0) as [->|Hb].
  { rewrite Z.add_0_r, fl_0, (fl_repr a) by done. done. }
  rewrite (fl_repr a), (fl_repr b) by done.
  destruct (add_repr a b e) as (j & Hj & ->); try done; [lia|].
  destruct (Z.eq_dec (a + b) 0) as [->|Hs]; [done|].
  rewrite fl_repr by done. by apply bn_repr.
Qed.

Lemma opp_fl_wide a e :
  Z.abs a < 2 ^ 24 -> -149 <= e <= 104 -> a <> 0 ->
  SFopp (fl a e) = fl (- a) e.
Proof.
  intros Hz He Ha. rewrite !fl_repr by (done || lia).
  assert (Hd : dig (- a) = dig a) by (by destruct a).
  unfold repr, cexp, SFopp. rewrite Hd, Z.abs_opp. f_equal.
  destruct (Z.ltb_spec a 0), (Z.ltb_spec (- a) 0); done || lia.
Qed.

Lemma sub_exact_wide a b e :
  Z.abs a < 2 ^ 24 -> Z.abs b < 2 ^ 24 -> Z.abs (a - b) < 2 ^ 24 ->
  -149 <= e <= 104 ->
  sub (fl a e) (fl b e) = fl (a - b) e.
Proof.
  intros Hza Hzb Hzs He. unfold sub. rewrite sub_add_opp.
  destruct (Z.eq_dec b 0) as [->|Hb].
  { rewrite Z.sub_0_r, fl_0. destruct (Z.eq_dec a 0) as [->|Ha]; [done|].
    rewrite (fl_repr a) by done. done. }
  rewrite opp_fl_wide by done. apply add_exact_wide; try done; lia.
Qed.

End F32_facts.

(** From here on the binary32 operations are used through the facts above. *)
#[local] Opaque F32.add F32.sub F32.mul F32.div F32.round F32.clamp F32.trunc
  F32.fl F32.of_int F32.ltb.

(** ** Buffers *)

Lemma load_Some {A} (b : list A) i v :
  load b i = Some v -> 0 <= i < Z.of_nat (length b).
Proof.
  unfold load. destruct (Z.ltb_spec i 0) as [|Hi]; [done|].
  intros Hv%lookup_lt_Some. lia.
Qed.

Lemma load_in_range {A} (b : list A) i :
  0 <= i < Z.of_nat (length b) -> is_Some (load b i).
Proof.
  intros Hi. unfold load. destruct (Z.ltb_spec i 0); [lia|].
  apply lookup_lt_is_Some. lia.
Qed.

Lemma store_in_range {A} (b : list A) i v :
  0 <= i < Z.of_nat (length b) ->
  store b i v = Some (<[Z.to_nat i := v]> b).
Proof.
  intros Hi. unfold store.
  destruct (Z.leb_spec 0 i), (Z.ltb_spec i (Z.of_nat (length b))); done || lia.
Qed.

Lemma store_Some {A} (b b' : list A) i v :
  store b i v = Some b' ->
  0 <= i < Z.of_nat (length b) /\ b' = <[Z.to_nat i := v]> b.
Proof.
  unfold store.
  destruct (Z.leb_spec 0 i), (Z.ltb_spec i (Z.of_nat (length b)));
    cbn; intros [= <-]; done || lia.
Qed.

Lemma load_insert_eq {A} (b : list A) i v :
  0 <= i < Z.of_nat (length b) -> load (<[Z.to_nat i := v]> b) i = Some v.
Proof.
  intros Hi. unfold load. destruct (Z.ltb_spec i 0); [lia|].
  apply list_lookup_insert_eq. lia.
Qed.

Lemma load_insert_ne {A} (b : list A) i j v :
  0 <= i -> i <> j -> load (<[Z.to_nat i := v]> b) j = load b j.
Proof.
  intros Hi Hne. unfold load. destruct (Z.ltb_spec j 0); [done|].
  apply list_lookup_insert_ne. lia.
Qed.

(** ** Loops *)

Lemma for_iter_inv {S} (I : Z -> S -> Prop) (body : Z -> S -> option S) n lo s :
  I lo s ->
  (forall i s, lo <= i < lo + Z.of_nat n -> I i s ->
     exists s', body i s = Some s' /\ I (i + 1) s') ->
  exists s', for_iter n lo body s = Some s' /\ I (lo + Z.of_nat n) s'.
Proof.
  revert lo s. induction n as [|n IH]; intros lo s HI Hstep.
  - exists s. rewrite Z.add_0_r. done.
  - destruct (Hstep lo s) as (s1 & E1 & HI1); [lia|done|].
    cbn [for_iter]. rewrite E1.
    destruct (IH (lo + 1) s1 HI1) as (s' & E & HI').
    { intros i s2 Hi. apply Hstep. lia. }
    exists s'. split; [done|].
    by replace (lo + Z.of_nat (Datatypes.S n)) with (lo + 1 + Z.of_nat n) by lia.
Qed.

Lemma for_loop_inv {S} (I : Z -> S -> Prop) (body : Z -> S -> option S) lo hi s :
  lo <= hi -> I lo s ->
  (forall i s, lo <= i < hi -> I i s ->
     exists s', body i s = Some s' /\ I (i + 1) s') ->
  exists s', for_loop lo hi body s = Some s' /\ I hi s'.
Proof.
  intros Hle HI Hstep. unfold for_loop.
  destruct (for_iter_inv I body (Z.to_nat (hi - lo)) lo s HI) as (s' & E & HI').
  { intros i s1 Hi. apply Hstep. lia. }
  exists s'. split; [done|]. by replace hi with (lo + Z.of_nat (Z.to_nat (hi - lo))) by lia.
Qed.

(** One row of a raster loop: the body stores [F x] at [row + x]. *)
Lemma row_fill {A} (body : Z -> list A -> option (list A)) (F : Z -> A)
    (row width : Z) (d0 : list A) :
  0 <= row -> 0 <= width -> row + width <= Z.of_nat (length d0) ->
  (forall x d, 0 <= x < width -> body x d = store d (row + x) (F x)) ->
  exists d',
    for_loop 0 width body d0 = Some d' /\
    length d' = length d0 /\
    (forall x, 0 <= x < width -> load d' (row + x) = Some (F x)) /\
    (forall i, ~ (row <= i < row + width) -> load d' i = load d0 i).
Proof.
  intros Hrow Hw Hlen Hbody.
  destruct (for_loop_inv
    (fun x d => length d = length d0 /\
       (forall x', 0 <= x' < x -> load d (row + x') = Some (F x')) /\
       (forall i, ~ (row <= i < row + x) -> load d i = load d0 i))
    body 0 width d0) as (d' & E & HI); [done| |..].
  - split; [done|]. split; [lia|done].
  - intros x d Hx (Hl & Hdone & Hrest).
    rewrite Hbody, store_in_range by lia.
    eexists. split; [done|]. split; [by rewrite length_insert|]. split.
    + intros x' Hx'. destruct (Z.eq_dec x' x) as [->|Hne].
      * apply load_insert_eq. lia.
      * rewrite load_insert_ne by lia. apply Hdone. lia.
    + intros i Hi. rewrite load_insert_ne by lia. apply Hrest. lia.
  - exists d'. done.
Qed.

(** A raster loop over [height] rows of [width] cells, rows [stride]
    apart: the body stores [F x y] at [y * stride + x]. *)
Lemma raster_fill {A} (body : Z -> Z -> list A -> option (list A))
    (F : Z -> Z -> A) (width height stride : Z) (d0 : list A) :
  0 <= width <= stride -> 0 <= height ->
  stride * height <= Z.of_nat (length d0) ->
  (forall x y d, 0 <= x < width -> 0 <= y < height ->
     body y x d = store d (y * stride + x) (F x y)) ->
  exists d',
    for_loop 0 height (fun y d => for_loop 0 width (body y) d) d0 = Some d' /\
    length d' = length d0 /\
    (forall x y, 0 <= x < width -> 0 <= y < height ->
       load d' (y * stride + x) = Some (F x y)).
Proof.
  intros Hw Hh Hlen Hbody.
  destruct (for_loop_inv
    (fun y d => length d = length d0 /\
       (forall x y', 0 <= x < width -> 0 <= y' < y ->
          load d (y' * stride + x) = Some (F x y')))
    (fun y d => for_loop 0 width (body y) d) 0 height d0)
    as (d' & E & HI); [done| |..].
  - split; [done|lia].
  - intros y d Hy (Hl & Hdone).
    destruct (row_fill (body y) (fun x => F x y) (y * stride) width d)
      as (d1 & E1 & Hl1 & Hrow & Hrest); [nia|lia|nia| |].
    { intros x d2 Hx. by apply Hbody. }
    exists d1. split; [done|]. split; [congruence|].
    intros x y' Hx Hy'. destruct (Z.eq_dec y' y) as [->|Hne]; [by apply Hrow|].
    rewrite Hrest by nia. apply Hdone; lia.
  - exists d'. done.
Qed.

(** ** The convolution passes *)

Lemma mirror_in_range step size :
  0 <= step -> 2 * step <= size - 1 -> taps_in_range step size.
Proof.
  intros Hs Hsz x k Hx Hk. unfold mirror_boundary.
  destruct (Z.ltb_spec (x + k * step) 0);
    [|destruct (Z.geb_spec (x + k * step) size)]; nia.
Qed.

Lemma conv_h_taps T (src : list (sample T)) src_row width step x
    (vals : Z -> sample T) :
  (forall k, -2 <= k <= 2 ->
     load src (src_row + mirror_boundary (x + k * step) width) = Some (vals k)) ->
  for_loop (-2) 3 (conv_h_tap T src src_row width step x) F32.zero
  = Some (Spec.sum5 (fun k =>
      F32.mul (to_float T (vals k)) (F32.of_int (Spec.kernel (k + 2))))).
Proof.
  intros H. unfold for_loop. change (Z.to_nat (3 - -2)) with 5%nat.
  cbn [for_iter]. unfold conv_h_tap.
  rewrite !H by lia. done.
Qed.

Lemma conv_v_taps (temp : list float) width height step x y
    (vals : Z -> float) :
  (forall k, -2 <= k <= 2 ->
     load temp (mirror_boundary (y + k * step) height * width + x)
     = Some (vals k)) ->
  for_loop (-2) 3 (conv_v_tap temp width height step x y) F32.zero
  = Some (Spec.sum5 (fun k =>
      F32.mul (vals k) (F32.of_int (Spec.kernel (k + 2))))).
Proof.
  intros H. unfold for_loop. change (Z.to_nat (3 - -2)) with 5%nat.
  cbn [for_iter]. unfold conv_v_tap.
  rewrite !H by lia. done.
Qed.

Lemma conv_h_correct T (src : list (sample T)) (dst : list float)
    width height stride step (img : Z -> Z -> sample T) :
  0 <= width <= stride -> 0 <= height ->
  width * height <= Z.of_nat (length dst) ->
  taps_in_range step width ->
  (forall x y, 0 <= x < width -> 0 <= y < height ->
     load src (y * stride + x) = Some (img x y)) ->
  exists temp,
    conv_h T src dst width height stride step = Some temp /\
    length temp = length dst /\
    forall x y, 0 <= x < width -> 0 <= y < height ->
      load temp (y * width + x)
      = Some (Spec.hpass (fun x y => to_float T (img x y)) step width x y).
Proof.
  intros Hw Hh Hlen Htaps Hsrc. unfold conv_h.
  apply (raster_fill
    (fun y x d =>
       sum ← for_loop (-2) 3 (conv_h_tap T src (y * stride) width step x)
               F32.zero;
       store d (y * width + x) sum)); [lia|done|done|].
  intros x y d Hx Hy.
  rewrite (conv_h_taps T src (y * stride) width step x
             (fun k => img (mirror_boundary (x + k * step) width) y)).
  - done.
  - intros k Hk. apply Hsrc; [|done]. by apply Htaps.
Qed.

Lemma conv_v_and_extract_correct T (temp : list float)
    (src dst : list (sample T)) width height src_stride dst_stride step fi
    (img : Z -> Z -> sample T) (H : Z -> Z -> float) :
  0 <= width <= src_stride -> 0 <= width <= dst_stride -> 0 <= height ->
  dst_stride * height <= Z.of_nat (length dst) ->
  taps_in_range step height ->
  (forall x y, 0 <= x < width -> 0 <= y < height ->
     load src (y * src_stride + x) = Some (img x y)) ->
  (forall x y, 0 <= x < width -> 0 <= y < height ->
     load temp (y * width + x) = Some (H x y)) ->
  exists d,
    conv_v_and_extract T temp src dst width height src_stride dst_stride
      step fi = Some d /\
    length d = length dst /\
    forall x y, 0 <= x < width -> 0 <= y < height ->
      load d (y * dst_stride + x)
      = Some (write_back T (get_max T fi)
          (F32.add
             (F32.sub (to_float T (img x y))
                (F32.div
                   (Spec.sum5 (fun k =>
                      F32.mul (H x (mirror_boundary (y + k * step) height))
                              (F32.of_int (Spec.kernel (k + 2)))))
                   (F32.of_int 256)))
             (get_neutral T fi))).
Proof.
  intros Hws Hwd Hh Hlen Htaps Hsrc Htemp. unfold conv_v_and_extract.
  apply (raster_fill
    (fun y x d =>
       sum ← for_loop (-2) 3 (conv_v_tap temp width height step x y) F32.zero;
       o ← load src (y * src_stride + x);
       store d (y * dst_stride + x)
         (write_back T (get_max T fi)
            (F32.add (F32.sub (to_float T o) (F32.div sum (F32.of_int 256)))
               (get_neutral T fi))))); [done..|].
  intros x y d Hx Hy.
  rewrite (conv_v_taps temp width height step x y
             (fun k => H x (mirror_boundary (y + k * step) height))).
  - cbn. rewrite Hsrc by done. done.
  - intros k Hk. apply Htemp; [done|]. by apply Htaps.
Qed.


Lemma process_extract_plane_correct T (src dst : Plane (sample T)) radius fi
    (img : Z -> Z -> sample T) :
  plane_ok src -> plane_ok dst ->
  p_width dst = p_width src -> p_height dst = p_height src ->
  taps_in_range (step_of radius) (p_width src) ->
  taps_in_range (step_of radius) (p_height src) ->
  shows src img ->
  exists dst',
    process_extract_plane T src dst radius fi = Some dst' /\
    same_geometry dst' dst /\
    length (p_data dst') = length (p_data dst) /\
    shows dst' (fun x y =>
      write_back T (get_max T fi)
        (Spec.detail (fun x y => to_float T (img x y)) (get_neutral T fi)
           (step_of radius) (p_width src) (p_height src) x y)).
Proof.
  intros (Hws & Hhs & Hls) (Hwd & Hhd & Hld) Ew Eh Htw Hth Himg.
  unfold process_extract_plane. cbv zeta.
  destruct (conv_h_correct T (p_data src)
              (replicate (Z.to_nat (p_width src * p_height src)) F32.zero)
              (p_width src) (p_height src) (p_stride src) (step_of radius) img)
    as (temp & E1 & _ & Htemp); [done|done| |done| |].
  { rewrite length_replicate. nia. }
  { intros x y Hx Hy. by apply Himg. }
  rewrite E1. cbn [mbind option_bind].
  assert (Hl' : p_stride dst * p_height src <= Z.of_nat (length (p_data dst)))
    by (by rewrite <- Eh).
  assert (Hwd' : 0 <= p_width src <= p_stride dst) by lia.
  destruct (conv_v_and_extract_correct T temp (p_data src) (p_data dst)
              (p_width src) (p_height src) (p_stride src) (p_stride dst)
              (step_of radius) fi img _ Hws Hwd' Hhs Hl' Hth Himg Htemp)
    as (d & Ed & Hl & Hd).
  rewrite Ed. cbn [mbind option_bind].
  exists (with_data dst d). split; [reflexivity|]. split; [by unfold same_geometry|].
  split; [exact Hl|].
  intros x y Hx Hy. unfold pixel. cbn [with_data p_data p_stride p_width p_height] in *.
  rewrite Hd by lia. unfold Spec.detail, Spec.blurred. reflexivity.
Qed.

(** ** Replace *)

Lemma ProcessReplacePlane_correct T (base detail dst : Plane (sample T)) fi
    (bimg dimg : Z -> Z -> sample T) :
  plane_ok dst ->
  same_geometry base dst -> same_geometry detail dst ->
  shows base bimg -> shows detail dimg ->
  exists dst',
    ProcessReplacePlane T base detail dst fi = Some dst' /\
    same_geometry dst' dst /\
    length (p_data dst') = length (p_data dst) /\
    shows dst' (fun x y =>
      write_back T (get_max T fi)
        (Spec.replace_value (to_float T (bimg x y)) (to_float T (dimg x y))
           (get_neutral T fi))).
Proof.
  intros (Hw & Hh & Hlen) (Ebw & Ebh & Ebs) (Edw & Edh & Eds) Hb Hd.
  set (F := fun x y =>
      write_back T (get_max T fi)
        (Spec.replace_value (to_float T (bimg x y)) (to_float T (dimg x y))
           (get_neutral T fi))).
  unfold ProcessReplacePlane. cbv zeta.
  destruct (for_loop_inv
    (fun y (st : Z * list (sample T)) =>
       st.1 = y * p_stride dst /\
       length st.2 = length (p_data dst) /\
       forall x y', 0 <= x < p_width dst -> 0 <= y' < y ->
         load st.2 (y' * p_stride dst + x) = Some (F x y'))
    (fun y '(row, dstp) =>
       dstp' ← for_loop 0 (p_width dst) (fun x dstp =>
           b ← load (p_data base) (row + x);
           d ← load (p_data detail) (row + x);
           store dstp (row + x)
             (write_back T (get_max T fi)
                (F32.sub (F32.add (to_float T b) (to_float T d))
                   (get_neutral T fi)))) dstp;
       Some (row + p_stride dst, dstp'))
    0 (p_height dst) (0, p_data dst)) as (st & E & Hrow & Hl & Hdone);
    [done| |..].
  - cbn [fst snd]. split; [lia|]. split; [reflexivity|]. intros; lia.
  - intros y [row dstp] Hy (Hr & Hl & Hdone). cbn [fst snd] in Hr, Hl, Hdone.
    subst row.
    destruct (row_fill
      (fun x dstp =>
         b ← load (p_data base) (y * p_stride dst + x);
         d ← load (p_data detail) (y * p_stride dst + x);
         store dstp (y * p_stride dst + x)
           (write_back T (get_max T fi)
              (F32.sub (F32.add (to_float T b) (to_float T d))
                 (get_neutral T fi))))
      (fun x => F x y) (y * p_stride dst) (p_width dst) dstp)
      as (d1 & E1 & Hl1 & Hfill & Hrest); [nia|lia|nia| |].
    { intros x d2 Hx.
      pose proof (Hb x y ltac:(lia) ltac:(lia)) as Hbx.
      pose proof (Hd x y ltac:(lia) ltac:(lia)) as Hdx.
      unfold pixel in Hbx, Hdx. rewrite Ebs in Hbx. rewrite Eds in Hdx.
      rewrite Hbx, Hdx. reflexivity. }
    rewrite E1. cbn [mbind option_bind].
    eexists. split; [reflexivity|]. cbn [fst snd].
    split; [lia|]. split; [congruence|].
    intros x y' Hx Hy'. destruct (Z.eq_dec y' y) as [->|Hne]; [by apply Hfill|].
    rewrite Hrest by nia. apply Hdone; lia.
  - rewrite E. cbn [mbind option_bind].
    exists (with_data dst st.2). split; [reflexivity|].
    split; [by unfold same_geometry|]. split; [exact Hl|].
    intros x y Hx Hy. unfold pixel.
    cbn [with_data p_data p_stride p_width p_height] in *.
    by apply Hdone.
Qed.

(** ** Integer planes: the float arithmetic is exact *)

Module Exact_facts.
Import F32 F32_facts.

Lemma sum5_ext (f g : Z -> float) :
  (forall k, -2 <= k <= 2 -> f k = g k) -> Spec.sum5 f = Spec.sum5 g.
Proof.
  intros H. unfold Spec.sum5. cbn [fold_left]. rewrite !H by lia. reflexivity.
Qed.

Lemma kernel_values :
  Spec.kernel (-2 + 2) = 1 /\ Spec.kernel (-1 + 2) = 4 /\
  Spec.kernel (0 + 2) = 6 /\ Spec.kernel (1 + 2) = 4 /\
  Spec.kernel (2 + 2) = 1.
Proof. by vm_compute. Qed.

(** A 5-tap sum of non-negative multiples of [2^e] below [B * 2^e]. *)
Lemma sum5_exact (g : Z -> Z) (B e : Z) :
  (forall k, -2 <= k <= 2 -> 0 <= g k <= B) -> 16 * B < 2 ^ 24 -> mid e ->
  Spec.sum5 (fun k => mul (fl (g k) e) (of_int (Spec.kernel (k + 2))))
  = fl (Exact.sum5 (fun k => g k * Spec.kernel (k + 2))) e.
Proof.
  intros Hg HB He.
  pose proof (Hg (-2) ltac:(lia)). pose proof (Hg (-1) ltac:(lia)).
  pose proof (Hg 0 ltac:(lia)). pose proof (Hg 1 ltac:(lia)).
  pose proof (Hg 2 ltac:(lia)).
  destruct kernel_values as (K0 & K1 & K2 & K3 & K4).
  unfold Spec.sum5, Exact.sum5. cbn [fold_left].
  rewrite K0, K1, K2, K3, K4, !of_int_fl.
  assert (M0 : mid 0) by (unfold mid; lia).
  assert (Me : mid (e + 0)) by (by rewrite Z.add_0_r).
  rewrite !mul_exact by (done || lia). rewrite !Z.add_0_r.
  change zero with (fl 0 e).
  rewrite !add_exact by (done || lia). reflexivity.
Qed.

Lemma sum5_bounds (g : Z -> Z) (B : Z) :
  (forall k, -2 <= k <= 2 -> 0 <= g k <= B) ->
  0 <= Exact.sum5 (fun k => g k * Spec.kernel (k + 2)) <= 16 * B.
Proof.
  intros Hg.
  pose proof (Hg (-2) ltac:(lia)). pose proof (Hg (-1) ltac:(lia)).
  pose proof (Hg 0 ltac:(lia)). pose proof (Hg 1 ltac:(lia)).
  pose proof (Hg 2 ltac:(lia)).
  destruct kernel_values as (K0 & K1 & K2 & K3 & K4).
  unfold Exact.sum5. rewrite K0, K1, K2, K3, K4. lia.
Qed.

Lemma hpass_exact src step width height B e x y :
  bounded_image src width height B -> 16 * B < 2 ^ 24 -> mid e ->
  taps_in_range step width -> 0 <= x < width -> 0 <= y < height ->
  Spec.hpass (fun x y => fl (src x y) e) step width x y
  = fl (Exact.hpass src step width x y) e /\
  0 <= Exact.hpass src step width x y <= 16 * B.
Proof.
  intros Hsrc HB He Ht Hx Hy. unfold Spec.hpass, Exact.hpass. split.
  - apply (sum5_exact (fun k => src (mirror_boundary (x + k * step) width) y) B);
      [|done..].
    intros k Hk. apply Hsrc; [by apply Ht|done].
  - apply (sum5_bounds (fun k => src (mirror_boundary (x + k * step) width) y)).
    intros k Hk. apply Hsrc; [by apply Ht|done].
Qed.

Lemma blurred_exact src step width height B e x y :
  bounded_image src width height B -> 256 * B < 2 ^ 24 -> mid e -> mid (e - 8) ->
  taps_in_range step width -> taps_in_range step height ->
  0 <= x < width -> 0 <= y < height ->
  Spec.blurred (fun x y => fl (src x y) e) step width height x y
  = fl (Exact.blurred256 src step width height x y) (e - 8) /\
  0 <= Exact.blurred256 src step width height x y <= 256 * B.
Proof.
  intros Hsrc HB He He8 Htw Hth Hx Hy. unfold Spec.blurred, Exact.blurred256.
  assert (Hh : forall k, -2 <= k <= 2 ->
    0 <= Exact.hpass src step width x (mirror_boundary (y + k * step) height)
      <= 16 * B).
  { intros k Hk.
    apply (hpass_exact src step width height B e); try done; [lia|].
    by apply Hth. }
  pose proof (sum5_bounds _ _ Hh) as Hb.
  split; [|lia].
  rewrite (sum5_ext _ (fun k =>
    mul (fl (Exact.hpass src step width x
               (mirror_boundary (y + k * step) height)) e)
        (of_int (Spec.kernel (k + 2))))).
  - rewrite (sum5_exact _ (16 * B)) by (done || lia).
    apply div_256; [lia|done|done].
  - intros k Hk. f_equal.
    apply (hpass_exact src step width height B e); try done; [lia|].
    by apply Hth.
Qed.

Lemma int_consts bits :
  8 <= bits <= 16 ->
  Spec.int_max bits = 2 * Spec.int_neutral bits - 1 /\
  2 ^ 7 <= Spec.int_neutral bits <= 2 ^ 15.
Proof.
  intros Hb. unfold Spec.int_max, Spec.int_neutral.
  replace bits with (Z.succ (bits - 1)) at 1 by lia.
  rewrite Z.pow_succ_r by lia. split; [lia|].
  split; apply Z.pow_le_mono_r; lia.
Qed.

Lemma round_half_away_big t :
  2 ^ 24 <= t -> 2 ^ 16 <= Exact.round_half_away t.
Proof.
  intros Ht. unfold Exact.round_half_away.
  rewrite Z.sgn_pos, Z.abs_eq, Z.mul_1_l by lia.
  apply Z.div_le_lower_bound; lia.
Qed.

Lemma extract_int_exact bits src step width height x y :
  8 <= bits <= 16 ->
  bounded_image src width height (Spec.int_max bits) ->
  taps_in_range step width -> taps_in_range step height ->
  0 <= x < width -> 0 <= y < height ->
  Spec.extract_int bits src step width height x y
  = Exact.extract bits src step width height x y.
Proof.
  intros Hb Hsrc Htw Hth Hx Hy.
  destruct (int_consts bits Hb) as [Hmx Hn].
  assert (M0 : mid 0) by (unfold mid; lia).
  assert (M8 : mid (-8)) by (unfold mid; lia).
  unfold Spec.extract_int, Spec.to_int, Spec.detail, Exact.extract.
  change (fun x y => of_int (src x y)) with (fun x y => fl (src x y) 0).
  destruct (blurred_exact src step width height (Spec.int_max bits) 0 x y)
    as [-> HN]; try done; [lia|].
  change (0 - 8) with (-8).
  pose proof (Hsrc x y Hx Hy) as Hs.
  set (s := src x y) in *. set (n := Spec.int_neutral bits) in *.
  set (mx := Spec.int_max bits) in *.
  set (N := Exact.blurred256 src step width height x y) in *.
  rewrite (of_int_fl n), (of_int_fl s).
  rewrite <- (fl_shift s 8 0), <- (fl_shift n 8 0) by (done || lia).
  change (0 - 8) with (-8). change (2 ^ 8) with 256.
  rewrite sub_exact by (done || lia).
  replace (256 * (s + n) - N) with (s * 256 - N + n * 256) by lia.
  destruct (Z.lt_ge_cases (s * 256 - N + n * 256) (2 ^ 24)) as [Hsmall|Hbig].
  - rewrite add_exact by (done || lia). apply to_int_exact; lia.
  - destruct (add_big (s * 256 - N) (n * 256) (-8)) as (m & e' & -> & He' & Hm);
      [lia..|done|].
    rewrite to_int_big by lia.
    pose proof (round_half_away_big _ Hbig) as Hr.
    unfold Exact.clampZ.
    destruct (Z.ltb_spec (Exact.round_half_away (s * 256 - N + n * 256)) 0); [lia|].
    destruct (Z.ltb_spec mx (Exact.round_half_away (s * 256 - N + n * 256))); lia.
Qed.

Lemma replace_int_exact bits b d :
  8 <= bits <= 16 -> 0 <= b < 2 ^ 16 -> 0 <= d < 2 ^ 16 ->
  Spec.replace_int bits b d = Exact.replace bits b d.
Proof.
  intros Hb Hbv Hdv. destruct (int_consts bits Hb) as [Hmx Hn].
  assert (M0 : mid 0) by (unfold mid; lia).
  unfold Spec.replace_int, Spec.replace_value, Spec.to_int, Exact.replace.
  rewrite (of_int_fl b), (of_int_fl d), (of_int_fl (Spec.int_neutral bits)).
  rewrite add_exact, sub_exact by (done || lia).
  apply to_int_int; lia.
Qed.

Lemma get_neutral_uint w fi :
  1 <= bitsPerSample fi <= 31 ->
  get_neutral (uint w) fi = of_int (Spec.int_neutral (bitsPerSample fi)).
Proof.
  intros Hb. unfold get_neutral, Spec.int_neutral. cbn [integral uint].
  f_equal. rewrite Z.shiftl_1_l. unfold to_int32.
  assert (0 < 2 ^ (bitsPerSample fi - 1) < 2 ^ 31).
  { split; [apply Z.pow_pos_nonneg; lia|apply Z.pow_lt_mono_r; lia]. }
  rewrite Z.mod_small; lia.
Qed.

Lemma get_max_uint w fi :
  0 <= bitsPerSample fi ->
  get_max (uint w) fi = of_int (Spec.int_max (bitsPerSample fi)).
Proof.
  intros Hb. unfold get_max, Spec.int_max. cbn [integral uint].
  by rewrite Z.shiftl_1_l.
Qed.

End Exact_facts.

(** ** Planes *)

Lemma step_of_pos radius : 1 <= radius -> 1 <= step_of radius.
Proof.
  intros Hr. unfold step_of. rewrite Z.shiftl_1_l.
  assert (0 < 2 ^ (radius - 1)) by (apply Z.pow_pos_nonneg; lia). lia.
Qed.

(** Up to radius 31 the shift stays inside [int]. *)
Lemma step_of_int radius :
  1 <= radius <= 31 -> to_int32 (Z.shiftl 1 (radius - 1)) = step_of radius.
Proof.
  intros Hr. unfold to_int32, step_of. rewrite Z.shiftl_1_l.
  assert (0 < 2 ^ (radius - 1)) by (apply Z.pow_pos_nonneg; lia).
  assert (2 ^ (radius - 1) <= 2 ^ 30) by (apply Z.pow_le_mono_r; lia).
  rewrite Z.mod_small by lia. lia.
Qed.

Lemma taps_of_radius radius size :
  1 <= radius -> 2 * step_of radius <= size - 1 ->
  taps_in_range (step_of radius) size.
Proof.
  intros Hr Hs. pose proof (step_of_pos radius Hr).
  apply mirror_in_range; lia.
Qed.

Lemma pixel_in_plane {A} (p : Plane A) x y :
  plane_ok p -> 0 <= x < p_width p -> 0 <= y < p_height p ->
  0 <= y * p_stride p + x < Z.of_nat (length (p_data p)).
Proof. intros (Hw & Hh & Hl) Hx Hy. nia. Qed.

Lemma shows_image_of {A} (d : A) (p : Plane A) :
  plane_ok p -> shows p (image_of d p).
Proof.
  intros Hp x y Hx Hy. unfold image_of, pixel.
  destruct (load_in_range (p_data p) (y * p_stride p + x)) as [v ->];
    [by apply pixel_in_plane|done].
Qed.

Lemma image_of_shows {A} (d : A) (p : Plane A) img x y :
  shows p img -> 0 <= x < p_width p -> 0 <= y < p_height p ->
  image_of d p x y = img x y.
Proof. intros Hs Hx Hy. unfold image_of. by rewrite Hs. Qed.

Lemma plane_ok_flat {A} w h (v : A) :
  0 <= w -> 0 <= h -> plane_ok (flat_plane w h v).
Proof.
  intros Hw Hh. unfold plane_ok, flat_plane. cbn.
  rewrite length_replicate. nia.
Qed.

Lemma shows_flat {A} w h (v : A) :
  0 <= w -> 0 <= h -> shows (flat_plane w h v) (fun _ _ => v).
Proof.
  intros Hw Hh x y Hx Hy. unfold pixel, flat_plane, load in *. cbn in *.
  destruct (Z.ltb_spec (y * w + x) 0); [nia|].
  apply lookup_replicate_2. nia.
Qed.

Lemma load_zip_with {A B C} (f : A -> B -> C) a b i u v :
  load a i = Some u -> load b i = Some v ->
  load (zip_with f a b) i = Some (f u v).
Proof.
  unfold load. destruct (Z.ltb_spec i 0); [done|].
  intros Ha Hb. apply lookup_zip_with_Some. eauto.
Qed.

(** ** Integer planes, in exact arithmetic *)

Lemma write_back_uint w mx v :
  write_back (uint w) mx v = F32.trunc (F32.clamp (F32.round v) F32.zero mx).
Proof. reflexivity. Qed.

Lemma extract_uint_correct w (src dst : Plane Z) radius fi img :
  8 <= bitsPerSample fi <= 16 ->
  plane_ok src -> plane_ok dst ->
  p_width dst = p_width src -> p_height dst = p_height src ->
  1 <= radius ->
  2 * step_of radius <= p_width src - 1 ->
  2 * step_of radius <= p_height src - 1 ->
  shows src img ->
  bounded_image img (p_width src) (p_height src)
    (Spec.int_max (bitsPerSample fi)) ->
  exists dst' : Plane Z,
    process_extract_plane (uint w) src dst radius fi = Some dst' /\
    same_geometry dst' dst /\
    length (p_data dst') = length (p_data dst) /\
    shows dst' (Spec.extract_int (bitsPerSample fi) img (step_of radius)
                  (p_width src) (p_height src)) /\
    shows dst' (Exact.extract (bitsPerSample fi) img (step_of radius)
                  (p_width src) (p_height src)).
Proof.
  intros Hb Hps Hpd Ew Eh Hr Htw Hth Himg Hbd.
  pose proof (taps_of_radius radius _ Hr Htw) as Tw.
  pose proof (taps_of_radius radius _ Hr Hth) as Th.
  destruct (process_extract_plane_correct (uint w) src dst radius fi img)
    as (dst' & E & Hg & Hl & Hs); try done.
  exists dst'. split; [exact E|]. split; [exact Hg|]. split; [exact Hl|].
  destruct Hg as (Gw & Gh & Gs). cbn [sample uint] in *.
  assert (Hspec : shows dst' (Spec.extract_int (bitsPerSample fi) img
                    (step_of radius) (p_width src) (p_height src))).
  { intros x y Hx Hy. rewrite Hs by done.
    rewrite write_back_uint, Exact_facts.get_neutral_uint,
      Exact_facts.get_max_uint by lia.
    unfold Spec.extract_int, Spec.to_int. cbn [to_float uint]. reflexivity. }
  split; [exact Hspec|].
  intros x y Hx Hy. rewrite Hspec by done. f_equal.
  apply Exact_facts.extract_int_exact; try done; lia.
Qed.

Lemma replace_uint_correct w (base detail dst : Plane Z) fi bimg dimg :
  8 <= bitsPerSample fi <= 16 ->
  plane_ok dst -> same_geometry base dst -> same_geometry detail dst ->
  shows base bimg -> shows detail dimg ->
  bounded_image bimg (p_width dst) (p_height dst) (2 ^ 16 - 1) ->
  bounded_image dimg (p_width dst) (p_height dst) (2 ^ 16 - 1) ->
  exists dst' : Plane Z,
    ProcessReplacePlane (uint w) base detail dst fi = Some dst' /\
    same_geometry dst' dst /\
    length (p_data dst') = length (p_data dst) /\
    shows dst' (fun x y =>
      Spec.replace_int (bitsPerSample fi) (bimg x y) (dimg x y)) /\
    shows dst' (fun x y =>
      Exact.replace (bitsPerSample fi) (bimg x y) (dimg x y)).
Proof.
  intros Hb Hpd Gb Gd Hsb Hsd Hbb Hbd.
  destruct (ProcessReplacePlane_correct (uint w) base detail dst fi bimg dimg)
    as (dst' & E & Hg & Hl & Hs); try done.
  exists dst'. split; [exact E|]. split; [exact Hg|]. split; [exact Hl|].
  destruct Hg as (Gw & Gh & Gs). cbn [sample uint] in *.
  assert (Hspec : shows dst' (fun x y =>
      Spec.replace_int (bitsPerSample fi) (bimg x y) (dimg x y))).
  { intros x y Hx Hy. rewrite Hs by done.
    rewrite write_back_uint, Exact_facts.get_neutral_uint,
      Exact_facts.get_max_uint by lia.
    unfold Spec.replace_int, Spec.to_int. cbn [to_float uint]. reflexivity. }
  split; [exact Hspec|].
  intros x y Hx Hy. rewrite Hspec by done. f_equal.
  pose proof (Hbb x y ltac:(lia) ltac:(lia)).
  pose proof (Hbd x y ltac:(lia) ltac:(lia)).
  apply Exact_facts.replace_int_exact; lia.
Qed.

(** ** The operations on planes, as the specification words them *)

Lemma extract_uint_spec w (src dst : Plane Z) radius fi img :
  1 <= bitsPerSample fi <= 31 ->
  plane_ok src -> plane_ok dst ->
  p_width dst = p_width src -> p_height dst = p_height src ->
  1 <= radius ->
  2 * step_of radius <= p_width src - 1 ->
  2 * step_of radius <= p_height src - 1 ->
  shows src img ->
  exists dst' : Plane Z,
    process_extract_plane (uint w) src dst radius fi = Some dst' /\
    same_geometry dst' dst /\
    length (p_data dst') = length (p_data dst) /\
    shows dst' (Spec.extract_int (bitsPerSample fi) img (step_of radius)
                  (p_width src) (p_height src)).
Proof.
  intros Hb Hps Hpd Ew Eh Hr Htw Hth Himg.
  destruct (process_extract_plane_correct (uint w) src dst radius fi img
              Hps Hpd Ew Eh (taps_of_radius radius _ Hr Htw)
              (taps_of_radius radius _ Hr Hth) Himg)
    as (dst' & E & Hg & Hl & Hs).
  exists dst'. split; [exact E|]. split; [exact Hg|]. split; [exact Hl|].
  intros x y Hx Hy. rewrite Hs by done.
  rewrite write_back_uint, Exact_facts.get_neutral_uint,
    Exact_facts.get_max_uint by lia.
  unfold Spec.extract_int, Spec.to_int. cbn [to_float uint]. reflexivity.
Qed.

Lemma extract_float_spec (src dst : Plane float) radius fi img :
  plane_ok src -> plane_ok dst ->
  p_width dst = p_width src -> p_height dst = p_height src ->
  1 <= radius ->
  2 * step_of radius <= p_width src - 1 ->
  2 * step_of radius <= p_height src - 1 ->
  shows src img ->
  exists dst' : Plane float,
    process_extract_plane float_t src dst radius fi = Some dst' /\
    same_geometry dst' dst /\
    length (p_data dst') = length (p_data dst) /\
    shows dst' (Spec.extract_float img (step_of radius)
                  (p_width src) (p_height src)).
Proof.
  intros Hps Hpd Ew Eh Hr Htw Hth Himg.
  destruct (process_extract_plane_correct float_t src dst radius fi img
              Hps Hpd Ew Eh (taps_of_radius radius _ Hr Htw)
              (taps_of_radius radius _ Hr Hth) Himg)
    as (dst' & E & Hg & Hl & Hs).
  exists dst'. split; [exact E|]. split; [exact Hg|]. split; [exact Hl|].
  intros x y Hx Hy. rewrite Hs by done. reflexivity.
Qed.

Lemma replace_uint_spec w (base detail dst : Plane Z) fi bimg dimg :
  1 <= bitsPerSample fi <= 31 ->
  plane_ok dst -> same_geometry base dst -> same_geometry detail dst ->
  shows base bimg -> shows detail dimg ->
  exists dst' : Plane Z,
    ProcessReplacePlane (uint w) base detail dst fi = Some dst' /\
    same_geometry dst' dst /\
    length (p_data dst') = length (p_data dst) /\
    shows dst' (fun x y =>
      Spec.replace_int (bitsPerSample fi) (bimg x y) (dimg x y)).
Proof.
  intros Hb Hpd Gb Gd Hsb Hsd.
  destruct (ProcessReplacePlane_correct (uint w) base detail dst fi bimg dimg)
    as (dst' & E & Hg & Hl & Hs); try done.
  exists dst'. split; [exact E|]. split; [exact Hg|]. split; [exact Hl|].
  intros x y Hx Hy. rewrite Hs by done.
  rewrite write_back_uint, Exact_facts.get_neutral_uint,
    Exact_facts.get_max_uint by lia.
  unfold Spec.replace_int, Spec.to_int. cbn [to_float uint]. reflexivity.
Qed.

Lemma replace_float_spec (base detail dst : Plane float) fi bimg dimg :
  plane_ok dst -> same_geometry base dst -> same_geometry detail dst ->
  shows base bimg -> shows detail dimg ->
  exists dst' : Plane float,
    ProcessReplacePlane float_t base detail dst fi = Some dst' /\
    same_geometry dst' dst /\
    length (p_data dst') = length (p_data dst) /\
    shows dst' (fun x y => Spec.replace_float (bimg x y) (dimg x y)).
Proof.
  intros Hpd Gb Gd Hsb Hsd.
  destruct (ProcessReplacePlane_correct float_t base detail dst fi bimg dimg)
    as (dst' & E & Hg & Hl & Hs); try done.
  exists dst'. split; [exact E|]. split; [exact Hg|]. split; [exact Hl|].
  intros x y Hx Hy. rewrite Hs by done. reflexivity.
Qed.

Lemma same_geometry_ok {A B} (p : Plane A) (q : Plane B) :
  same_geometry p q -> plane_ok q ->
  length (p_data p) = length (p_data q) -> plane_ok p.
Proof.
  intros (Ew & Eh & Es) (Hw & Hh & Hl) El. unfold plane_ok.
  rewrite Ew, Eh, Es, El. done.
Qed.

(** ** Flat planes and round trips, pixel by pixel *)

Lemma blurred256_const c step width height x y :
  Exact.blurred256 (fun _ _ => c) step width height x y = 256 * c.
Proof.
  unfold Exact.blurred256, Exact.hpass, Exact.sum5.
  destruct Exact_facts.kernel_values as (K0 & K1 & K2 & K3 & K4).
  rewrite K0, K1, K2, K3, K4. lia.
Qed.

Lemma round_half_away_bounds t lo hi :
  256 * lo <= t <= 256 * hi -> lo <= Exact.round_half_away t <= hi.
Proof.
  intros Ht. unfold Exact.round_half_away.
  destruct (Z.lt_trichotomy t 0) as [Hn|[->|Hp]].
  - rewrite Z.sgn_neg, Z.abs_neq by lia.
    pose proof (Z.div_mod (- t + 128) 256 ltac:(lia)).
    pose proof (Z.mod_pos_bound (- t + 128) 256 ltac:(lia)). lia.
  - cbn. lia.
  - rewrite Z.sgn_pos, Z.abs_eq by lia.
    pose proof (Z.div_mod (t + 128) 256 ltac:(lia)).
    pose proof (Z.mod_pos_bound (t + 128) 256 ltac:(lia)). lia.
Qed.

Lemma clampZ_bounds v lo hi :
  lo <= hi -> lo <= Exact.clampZ v lo hi <= hi.
Proof.
  intros H. unfold Exact.clampZ.
  destruct (Z.ltb_spec v lo); [lia|]. destruct (Z.ltb_spec hi v); lia.
Qed.

Lemma clampZ_id v lo hi : lo <= v <= hi -> Exact.clampZ v lo hi = v.
Proof.
  intros H. unfold Exact.clampZ.
  destruct (Z.ltb_spec v lo); [lia|]. destruct (Z.ltb_spec hi v); lia.
Qed.

Lemma extract_const bits c step width height x y :
  8 <= bits <= 16 ->
  Exact.extract bits (fun _ _ => c) step width height x y
  = Spec.int_neutral bits.
Proof.
  intros Hb. destruct (Exact_facts.int_consts bits Hb) as [Hmx Hn].
  unfold Exact.extract. rewrite blurred256_const.
  pose proof (round_half_away_bounds (256 * Spec.int_neutral bits)
                (Spec.int_neutral bits) (Spec.int_neutral bits) ltac:(lia)).
  replace (256 * (c + Spec.int_neutral bits) - 256 * c)
    with (256 * Spec.int_neutral bits) by lia.
  rewrite clampZ_id; lia.
Qed.

(** Extract, then the low band re-centred on neutral, then Replace. *)
Lemma inverse_Z bits s N :
  8 <= bits <= 16 -> 0 <= s <= Spec.int_max bits ->
  0 <= N <= 256 * Spec.int_max bits ->
  let D := Exact.clampZ
             (Exact.round_half_away (256 * (s + Spec.int_neutral bits) - N))
             0 (Spec.int_max bits) in
  Exact.replace bits
    (Exact.clampZ (s - D + Spec.int_neutral bits) 0 (Spec.int_max bits)) D
  = s.
Proof.
  intros Hb Hs HN D. destruct (Exact_facts.int_consts bits Hb) as [Hmx Hn].
  set (n := Spec.int_neutral bits) in *. set (mx := Spec.int_max bits) in *.
  pose proof (round_half_away_bounds (256 * (s + n) - N) (s + n - mx) (s + n)
                ltac:(lia)) as Hr.
  assert (HD : s + n - mx <= D <= s + n /\ 0 <= D <= mx).
  { subst D. unfold Exact.clampZ.
    destruct (Z.ltb_spec (Exact.round_half_away (256 * (s + n) - N)) 0);
      [lia|].
    destruct (Z.ltb_spec mx (Exact.round_half_away (256 * (s + n) - N))); lia. }
  clearbody D. unfold Exact.replace. fold n mx.
  rewrite (clampZ_id (s - D + n)) by lia.
  rewrite clampZ_id; lia.
Qed.

Lemma extract_float_const a e step width height x y :
  0 <= a < 2 ^ 16 -> -92 <= e <= 80 ->
  taps_in_range step width -> taps_in_range step height ->
  0 <= x < width -> 0 <= y < height ->
  Spec.extract_float (fun _ _ => F32.fl a e) step width height x y = F32.zero.
Proof.
  intros Ha He Tw Th Hx Hy.
  assert (Me : F32.mid e) by (unfold F32.mid; lia).
  assert (Me8 : F32.mid (e - 8)) by (unfold F32.mid; lia).
  unfold Spec.extract_float, Spec.detail.
  destruct (Exact_facts.blurred_exact (fun _ _ => a) step width height a e x y)
    as [E _]; try done; [intros ? ? ? ?; lia|lia|].
  rewrite E, blurred256_const.
  replace (256 * a) with (a * 2 ^ 8) by lia.
  rewrite F32_facts.fl_shift by (done || lia).
  rewrite F32_facts.sub_exact by (done || lia).
  rewrite Z.sub_diag, F32_facts.fl_0. reflexivity.
Qed.

Lemma float_roundtrip_exact a b e :
  Z.abs a < 2 ^ 24 -> Z.abs b < 2 ^ 24 -> Z.abs (a - b) < 2 ^ 24 ->
  -149 <= e <= 104 ->
  F32.sub (F32.add (F32.sub (F32.fl a e) (F32.fl b e)) (F32.fl b e)) F32.zero
  = F32.fl a e.
Proof.
  intros Ha Hb Hab He.
  rewrite F32_facts.sub_exact_wide by done.
  rewrite F32_facts.add_exact_wide
    by (done || (replace (a - b + b) with a by lia; done)).
  replace (a - b + b) with a by lia.
  rewrite <- (F32_facts.fl_0 e), F32_facts.sub_exact_wide by (done || lia).
  by rewrite Z.sub_0_r.
Qed.

Lemma zip_plane_ok {A} (f : A -> A -> A) (S D : Plane A) :
  plane_ok S -> plane_ok D -> same_geometry D S ->
  plane_ok (with_data S (zip_with f (p_data S) (p_data D))).
Proof.
  intros (Hw & Hh & Hl) (_ & _ & Hl') (Ew & Eh & Es).
  unfold plane_ok. cbn [with_data p_width p_height p_stride p_data].
  rewrite length_zip_with. rewrite Eh, Es in Hl'. lia.
Qed.

Lemma zip_shows {A} (f : A -> A -> A) (S D : Plane A) imgS imgD :
  shows S imgS -> shows D imgD -> same_geometry D S ->
  shows (with_data S (zip_with f (p_data S) (p_data D)))
    (fun x y => f (imgS x y) (imgD x y)).
Proof.
  intros HS HD (Ew & Eh & Es) x y Hx Hy. unfold pixel.
  cbn [with_data p_width p_height p_stride p_data] in *.
  apply load_zip_with; [by apply HS|].
  rewrite <- Es. apply HD; lia.
Qed.

Lemma same_geometry_sym {A B} (p : Plane A) (q : Plane B) :
  same_geometry p q -> same_geometry q p.
Proof. intros (? & ? & ?). by unfold same_geometry. Qed.

Lemma same_geometry_trans {A B C} (p : Plane A) (q : Plane B) (r : Plane C) :
  same_geometry p q -> same_geometry q r -> same_geometry p r.
Proof. intros (? & ? & ?) (? & ? & ?). unfold same_geometry. lia. Qed.

(** * The claims *)

(** ** The mirror-boundary resolver *)

(** C6 (counterexample): at [pos = -5] on an axis of 3 samples the
    resolver returns 5, which is not an index of the axis. *)
Lemma C6_counterexample : ~ (0 <= mirror_boundary (-5) 3 < 3).
Proof. unfold mirror_boundary. cbn. lia. Qed.

(** C6 (amended): the resolver returns [-pos] below zero,
    [2*size - 2 - pos] from [size] on and [pos] in between; on an axis
    of [size > 0] samples its result is an index of the axis exactly
    when [-size < pos < 2*size - 1]. *)
Theorem C6_mirror_boundary_reflection pos size :
  (pos < 0 -> mirror_boundary pos size = - pos) /\
  (0 <= pos -> size <= pos -> mirror_boundary pos size = 2 * size - 2 - pos) /\
  (0 <= pos < size -> mirror_boundary pos size = pos) /\
  (0 < size ->
     (0 <= mirror_boundary pos size < size <-> - size < pos < 2 * size - 1)).
Proof.
  unfold mirror_boundary.
  destruct (Z.ltb_spec pos 0), (Z.geb_spec pos size); repeat split; lia.
Qed.

Lemma C6_mirror_boundary_reflection_witness :
  mirror_boundary (-1) 5 = 1 /\ mirror_boundary 6 5 = 2 /\
  mirror_boundary 3 5 = 3 /\ 0 <= mirror_boundary 6 5 < 5.
Proof.
  destruct (C6_mirror_boundary_reflection (-1) 5) as (H1 & _).
  destruct (C6_mirror_boundary_reflection 6 5) as (_ & H2 & _ & H4).
  destruct (C6_mirror_boundary_reflection 3 5) as (_ & _ & H3 & _).
  split; [apply H1; lia|]. split; [apply H2; lia|].
  split; [apply H3; lia|]. apply H4; lia.
Defined.

(** C7 (counterexample): for radius 1 on an axis of 5 samples the taps
    around [x = 0] are not mirrored to 1, 0, 0, 1, 2. *)
Lemma C7_counterexample : tap_indices (step_of 1) 5 0 <> [1; 0; 0; 1; 2].
Proof. vm_compute. discriminate. Qed.

(** C7 (amended): for radius 1 on an axis of 5 samples the taps around
    [x = 0] are mirrored to 2, 1, 0, 1, 2 and those around [x = 4] to
    2, 3, 4, 3, 2; at every column all five indices are indices of the
    axis. *)
Theorem C7_taps_of_width_5 :
  tap_indices (step_of 1) 5 0 = [2; 1; 0; 1; 2] /\
  tap_indices (step_of 1) 5 4 = [2; 3; 4; 3; 2] /\
  Forall (fun x => Forall (fun i => 0 <= i < 5) (tap_indices (step_of 1) 5 x))
    [0; 1; 2; 3; 4].
Proof.
  split; [reflexivity|]. split; [reflexivity|].
  repeat constructor; vm_compute; congruence.
Qed.

(** C10: when twice the dilation step is at most [size - 1], every tap of
    every position is mirrored to an index of the axis by one
    reflection; and when this holds of the width and of the height of a
    plane, both passes read and write inside their buffers, so that
    [process_extract_plane] has a result. *)
Theorem C10_single_reflection_suffices :
  (forall size step, 0 <= step -> 2 * step <= size - 1 ->
     taps_in_range step size) /\
  (forall (T : PixelType) (src dst : Plane (sample T)) radius fi,
     plane_ok src -> plane_ok dst ->
     p_width dst = p_width src -> p_height dst = p_height src ->
     1 <= radius ->
     2 * step_of radius <= p_width src - 1 ->
     2 * step_of radius <= p_height src - 1 ->
     is_Some (process_extract_plane T src dst radius fi)).
Proof.
  split; [intros size step; apply mirror_in_range|].
  intros T src dst radius fi Hs Hd Ew Eh Hr Hw Hh.
  destruct (process_extract_plane_correct T src dst radius fi
              (image_of (of_float T F32.zero) src) Hs Hd Ew Eh
              (taps_of_radius radius _ Hr Hw) (taps_of_radius radius _ Hr Hh)
              (shows_image_of _ src Hs))
    as (dst' & E & _).
  by exists dst'.
Qed.

Lemma C10_single_reflection_suffices_witness :
  0 <= mirror_boundary (0 + -2 * 2) 5 < 5 /\
  is_Some (process_extract_plane uint8_t (flat_plane 5 5 7) (flat_plane 5 5 0)
             2 GRAY8).
Proof.
  destruct C10_single_reflection_suffices as [H1 H2]. split.
  - apply (H1 5 2); lia.
  - apply H2; try (apply plane_ok_flat; lia); try reflexivity;
      vm_compute; congruence.
Defined.

(** C9: for [pos <= -size] and for [pos >= 2*size - 1] one reflection
    leaves the index outside the axis; and nothing stops such an index
    from being used: the constructor accepts every radius from 1 on
    whatever the dimensions of the clip, and on a plane of 4 by 4 samples
    radius 3 makes the horizontal pass read outside the plane. *)
Theorem C9_single_reflection_out_of_range :
  (forall size pos, 0 < size -> pos <= - size \/ 2 * size - 1 <= pos ->
     ~ (0 <= mirror_boundary pos size < size)) /\
  (forall w h radius, 0 < w -> 0 < h -> 1 <= radius <= INT_MAX ->
     ExtractCreate vsh_isConstantVideoFormat (clip_info GRAY8 w h)
       (Some radius)
     = createVideoFilter "ExtractFrequency" (clip_info GRAY8 w h)
         {| d_node := clip_info GRAY8 w h; d_vi := clip_info GRAY8 w h;
            d_radius := radius |}) /\
  mirror_boundary (0 + -2 * step_of 3) 4 = 8 /\
  process_extract_plane uint8_t (flat_plane 4 4 128) (flat_plane 4 4 0) 3 GRAY8
  = None.
Proof.
  split; [|split; [|split; reflexivity]].
  - intros size pos Hs Hp. unfold mirror_boundary.
    destruct (Z.ltb_spec pos 0), (Z.geb_spec pos size); lia.
  - intros w h radius Hw Hh Hr. unfold ExtractCreate, int64ToIntS.
    unfold INT_MAX, INT_MIN in *.
    destruct (Z.gtb_spec radius (2 ^ 31 - 1)); [lia|].
    destruct (Z.ltb_spec radius (- 2 ^ 31)); [lia|].
    destruct (Z.ltb_spec radius 1); [lia|].
    unfold vsh_isConstantVideoFormat. cbn.
    destruct (Z.gtb_spec h 0); [|lia]. destruct (Z.gtb_spec w 0); [|lia].
    reflexivity.
Qed.

Lemma C9_single_reflection_out_of_range_witness :
  ~ (0 <= mirror_boundary (-8) 4 < 4) /\
  ExtractCreate vsh_isConstantVideoFormat (clip_info GRAY8 4 4) (Some 3)
  = createVideoFilter "ExtractFrequency" (clip_info GRAY8 4 4)
      {| d_node := clip_info GRAY8 4 4; d_vi := clip_info GRAY8 4 4;
         d_radius := 3 |}.
Proof.
  destruct C9_single_reflection_out_of_range as (H1 & H2 & _). split.
  - apply H1; lia.
  - apply H2; unfold INT_MAX; lia.
Defined.

(** ** The constructors *)

(** C8: [ReplaceCreate] compares the formats of base and detail and never
    their dimensions, whatever the two format predicates are; with the
    helper header's predicates a base of 640 by 480 and a detail of 320
    by 240 of one format are accepted and the filter is created. *)
Theorem C8_replace_accepts_mismatched_dimensions :
  (forall isConstant isSame base f w h w' h',
     rejected (ReplaceCreate isConstant isSame base (clip_info f w h))
     = rejected (ReplaceCreate isConstant isSame base (clip_info f w' h'))) /\
  ReplaceCreate vsh_isConstantVideoFormat vsh_isSameVideoFormat
    (clip_info GRAY8 640 480) (clip_info GRAY8 320 240)
  = createVideoFilter "ReplaceFrequency" (clip_info GRAY8 640 480)
      {| r_base := clip_info GRAY8 640 480;
         r_detail := clip_info GRAY8 320 240;
         r_vi := clip_info GRAY8 640 480 |}.
Proof.
  split; [|reflexivity].
  intros isConstant isSame base f w h w' h'. unfold ReplaceCreate.
  cbn [format clip_info].
  destruct (negb (isSame (format base) f)); [reflexivity|].
  destruct (unsupported_format (format base) || negb (isConstant base));
    reflexivity.
Qed.

(** ** Extract and Replace, pixel by pixel *)

(** C3: Extract works in two passes.  The horizontal pass leaves in the
    float buffer, at every position, the unnormalized 5-tap sum of the
    mirrored samples of the row; the vertical pass sums that buffer down
    the mirrored column with the same kernel, divides by 256 and stores
    [source - blurred + neutral]: rounded half away from zero, clamped
    to [0, max] and truncated for an integer representation, as it is
    for the float representation. *)
Theorem C3_extract_two_passes :
  (forall w (src dst : Plane Z) radius fi,
     1 <= bitsPerSample fi <= 31 ->
     plane_ok src -> plane_ok dst ->
     p_width dst = p_width src -> p_height dst = p_height src ->
     1 <= radius ->
     2 * step_of radius <= p_width src - 1 ->
     2 * step_of radius <= p_height src - 1 ->
     exists (temp : list float) (dst' : Plane Z),
       conv_h (uint w) (p_data src)
         (replicate (Z.to_nat (p_width src * p_height src)) F32.zero)
         (p_width src) (p_height src) (p_stride src) (step_of radius)
       = Some temp /\
       (forall x y, 0 <= x < p_width src -> 0 <= y < p_height src ->
          load temp (y * p_width src + x)
          = Some (Spec.hpass (fun x y => F32.of_int (image_of 0 src x y))
                    (step_of radius) (p_width src) x y)) /\
       process_extract_plane (uint w) src dst radius fi = Some dst' /\
       same_geometry dst' dst /\
       shows dst'
         (Spec.extract_int (bitsPerSample fi) (image_of 0 src)
            (step_of radius) (p_width src) (p_height src))) /\
  (forall (src dst : Plane float) radius fi,
     plane_ok src -> plane_ok dst ->
     p_width dst = p_width src -> p_height dst = p_height src ->
     1 <= radius ->
     2 * step_of radius <= p_width src - 1 ->
     2 * step_of radius <= p_height src - 1 ->
     exists (temp : list float) (dst' : Plane float),
       conv_h float_t (p_data src)
         (replicate (Z.to_nat (p_width src * p_height src)) F32.zero)
         (p_width src) (p_height src) (p_stride src) (step_of radius)
       = Some temp /\
       (forall x y, 0 <= x < p_width src -> 0 <= y < p_height src ->
          load temp (y * p_width src + x)
          = Some (Spec.hpass (image_of F32.zero src)
                    (step_of radius) (p_width src) x y)) /\
       process_extract_plane float_t src dst radius fi = Some dst' /\
       same_geometry dst' dst /\
       shows dst'
         (Spec.extract_float (image_of F32.zero src)
            (step_of radius) (p_width src) (p_height src))).
Proof.
  split.
  - intros w src dst radius fi Hb Hps Hpd Ew Eh Hr Htw Hth.
    pose proof (shows_image_of 0 src Hps) as Himg.
    destruct (conv_h_correct (uint w) (p_data src)
                (replicate (Z.to_nat (p_width src * p_height src)) F32.zero)
                (p_width src) (p_height src) (p_stride src) (step_of radius)
                (image_of 0 src))
      as (temp & E1 & _ & Htemp).
    { apply Hps. } { apply Hps. }
    { rewrite length_replicate. destruct Hps as (? & ? & _). nia. }
    { by apply taps_of_radius. }
    { intros x y Hx Hy. by apply Himg. }
    destruct (extract_uint_spec w src dst radius fi (image_of 0 src))
      as (dst' & E2 & Hg & _ & Hs); try done.
    exists temp, dst'. split; [exact E1|]. split; [exact Htemp|].
    split; [exact E2|]. split; [exact Hg|exact Hs].
  - intros src dst radius fi Hps Hpd Ew Eh Hr Htw Hth.
    pose proof (shows_image_of F32.zero src Hps) as Himg.
    destruct (conv_h_correct float_t (p_data src)
                (replicate (Z.to_nat (p_width src * p_height src)) F32.zero)
                (p_width src) (p_height src) (p_stride src) (step_of radius)
                (image_of F32.zero src))
      as (temp & E1 & _ & Htemp).
    { apply Hps. } { apply Hps. }
    { rewrite length_replicate. destruct Hps as (? & ? & _). nia. }
    { by apply taps_of_radius. }
    { intros x y Hx Hy. by apply Himg. }
    destruct (extract_float_spec src dst radius fi (image_of F32.zero src))
      as (dst' & E2 & Hg & _ & Hs); try done.
    exists temp, dst'. split; [exact E1|]. split; [exact Htemp|].
    split; [exact E2|]. split; [exact Hg|exact Hs].
Qed.

Lemma C3_extract_two_passes_witness :
  (exists dst' : Plane Z,
     process_extract_plane uint8_t (flat_plane 5 5 7) (flat_plane 5 5 0) 1 GRAY8
     = Some dst' /\
     shows dst'
       (Spec.extract_int 8 (image_of 0 (flat_plane 5 5 7)) (step_of 1) 5 5)) /\
  (exists dst' : Plane float,
     process_extract_plane float_t (flat_plane 5 5 hundredth)
       (flat_plane 5 5 F32.zero) 1 GRAYS
     = Some dst' /\
     shows dst'
       (Spec.extract_float (image_of F32.zero (flat_plane 5 5 hundredth))
          (step_of 1) 5 5)).
Proof.
  destruct C3_extract_two_passes as [Hi Hf]. split.
  - destruct (Hi 8 (flat_plane 5 5 7) (flat_plane 5 5 0) 1 GRAY8
                ltac:(cbn; lia)
                ltac:(apply plane_ok_flat; lia) ltac:(apply plane_ok_flat; lia)
                eq_refl eq_refl ltac:(lia)
                ltac:(vm_compute; congruence) ltac:(vm_compute; congruence))
      as (temp & dst' & _ & _ & E & _ & Hs).
    exists dst'. split; [exact E|exact Hs].
  - destruct (Hf (flat_plane 5 5 hundredth) (flat_plane 5 5 F32.zero) 1 GRAYS
                ltac:(apply plane_ok_flat; lia) ltac:(apply plane_ok_flat; lia)
                eq_refl eq_refl ltac:(lia)
                ltac:(vm_compute; congruence) ltac:(vm_compute; congruence))
      as (temp & dst' & _ & _ & E & _ & Hs).
    exists dst'. split; [exact E|exact Hs].
Defined.

(** C4: for planes of one geometry, Replace stores at every pixel
    [base + detail - neutral].  For an integer representation of 8 to
    16 bits the neutral value is [2^(bits-1)] and the value is rounded
    half away from zero and clamped to [0, 2^bits - 1], which on samples
    below [2^16] is the integer [base + detail - 2^(bits-1)] clamped;
    for the float representation the neutral value is 0 and the sum is
    stored as it is. *)
Theorem C4_replace_pixelwise :
  (forall w (base detail dst : Plane Z) fi,
     8 <= bitsPerSample fi <= 16 ->
     plane_ok base -> plane_ok detail -> plane_ok dst ->
     same_geometry base dst -> same_geometry detail dst ->
     bounded_image (image_of 0 base) (p_width dst) (p_height dst) (2 ^ 16 - 1) ->
     bounded_image (image_of 0 detail) (p_width dst) (p_height dst) (2 ^ 16 - 1) ->
     exists dst' : Plane Z,
       ProcessReplacePlane (uint w) base detail dst fi = Some dst' /\
       same_geometry dst' dst /\
       shows dst' (fun x y =>
         Spec.replace_int (bitsPerSample fi)
           (image_of 0 base x y) (image_of 0 detail x y)) /\
       shows dst' (fun x y =>
         Exact.clampZ
           (image_of 0 base x y + image_of 0 detail x y
            - 2 ^ (bitsPerSample fi - 1))
           0 (2 ^ bitsPerSample fi - 1))) /\
  (forall (base detail dst : Plane float) fi,
     plane_ok base -> plane_ok detail -> plane_ok dst ->
     same_geometry base dst -> same_geometry detail dst ->
     exists dst' : Plane float,
       ProcessReplacePlane float_t base detail dst fi = Some dst' /\
       same_geometry dst' dst /\
       shows dst' (fun x y =>
         F32.sub (F32.add (image_of F32.zero base x y)
                    (image_of F32.zero detail x y))
                 F32.zero)).
Proof.
  split.
  - intros w base detail dst fi Hb Hpb Hpd Hp Gb Gd Bb Bd.
    destruct (replace_uint_correct w base detail dst fi
                (image_of 0 base) (image_of 0 detail))
      as (dst' & E & Hg & _ & Hs & Hx); try done;
      try (by apply shows_image_of).
    exists dst'. split; [exact E|]. split; [exact Hg|].
    split; [exact Hs|exact Hx].
  - intros base detail dst fi Hpb Hpd Hp Gb Gd.
    destruct (replace_float_spec base detail dst fi
                (image_of F32.zero base) (image_of F32.zero detail))
      as (dst' & E & Hg & _ & Hs); try done;
      try (by apply shows_image_of).
    exists dst'. split; [exact E|]. split; [exact Hg|exact Hs].
Qed.

Lemma C4_replace_pixelwise_witness :
  (exists dst' : Plane Z,
     ProcessReplacePlane uint8_t (flat_plane 4 4 200) (flat_plane 4 4 100)
       (flat_plane 4 4 0) GRAY8 = Some dst' /\
     shows dst' (fun x y =>
       Exact.clampZ
         (image_of 0 (flat_plane 4 4 200) x y
          + image_of 0 (flat_plane 4 4 100) x y - 2 ^ (8 - 1))
         0 (2 ^ 8 - 1))) /\
  (exists dst' : Plane float,
     ProcessReplacePlane float_t (flat_plane 4 4 hundredth)
       (flat_plane 4 4 hundredth) (flat_plane 4 4 F32.zero) GRAYS = Some dst').
Proof.
  destruct C4_replace_pixelwise as [Hi Hf].
  assert (B : forall v, 0 <= v <= 2 ^ 16 - 1 ->
            bounded_image (image_of 0 (flat_plane 4 4 v)) 4 4 (2 ^ 16 - 1)).
  { intros v Hv x y Hx Hy.
    by rewrite (image_of_shows 0 (flat_plane 4 4 v) (fun _ _ => v))
      by (done || apply shows_flat; lia). }
  assert (G : forall {A} (u v : A),
            same_geometry (flat_plane 4 4 u) (flat_plane 4 4 v))
    by (intros; by unfold same_geometry).
  split.
  - destruct (Hi 8 (flat_plane 4 4 200) (flat_plane 4 4 100) (flat_plane 4 4 0)
                GRAY8 ltac:(cbn; lia)
                ltac:(apply plane_ok_flat; lia) ltac:(apply plane_ok_flat; lia)
                ltac:(apply plane_ok_flat; lia) (G _ _ _) (G _ _ _)
                ltac:(apply B; lia) ltac:(apply B; lia))
      as (dst' & E & _ & _ & Hs).
    exists dst'. split; [exact E|exact Hs].
  - destruct (Hf (flat_plane 4 4 hundredth) (flat_plane 4 4 hundredth)
                (flat_plane 4 4 F32.zero) GRAYS
                ltac:(apply plane_ok_flat; lia) ltac:(apply plane_ok_flat; lia)
                ltac:(apply plane_ok_flat; lia) (G _ _ _) (G _ _ _))
      as (dst' & E & _).
    by exists dst'.
Defined.

(** ** Flat planes *)

(** C5 (counterexample): on the float plane of five by five samples
    one hundredth, Extract at radius 1 does not return the plane of
    zeros: its sample at the centre is not 0. *)
Lemma C5_counterexample :
  exists D : Plane float,
    process_extract_plane float_t (flat_plane 5 5 hundredth)
      (flat_plane 5 5 F32.zero) 1 GRAYS = Some D /\
    pixel D 2 2 <> Some F32.zero.
Proof.
  eexists. split; [vm_compute; reflexivity|]. vm_compute. discriminate.
Qed.

(** C5 (amended): on a flat plane whose taps stay inside it, Extract
    returns the neutral value everywhere when the representation is an
    integer one of 8 to 16 bits and the value a sample of it, and when
    the representation is float and the value is [a * 2^e] with
    [0 <= a < 2^16] and [-92 <= e <= 80]; the 8-bit plane of 4 by 4
    samples 128 gives the plane of 128 at radius 1, and Replace of two
    such planes gives it again. *)
Theorem C5_flat_plane_extracts_neutral :
  (forall w (src dst : Plane Z) radius fi c,
     8 <= bitsPerSample fi <= 16 ->
     0 <= c <= Spec.int_max (bitsPerSample fi) ->
     plane_ok src -> plane_ok dst ->
     p_width dst = p_width src -> p_height dst = p_height src ->
     1 <= radius ->
     2 * step_of radius <= p_width src - 1 ->
     2 * step_of radius <= p_height src - 1 ->
     shows src (fun _ _ => c) ->
     exists dst' : Plane Z,
       process_extract_plane (uint w) src dst radius fi = Some dst' /\
       same_geometry dst' dst /\
       shows dst' (fun _ _ => Spec.int_neutral (bitsPerSample fi))) /\
  (forall (src dst : Plane float) radius fi a e,
     0 <= a < 2 ^ 16 -> -92 <= e <= 80 ->
     plane_ok src -> plane_ok dst ->
     p_width dst = p_width src -> p_height dst = p_height src ->
     1 <= radius ->
     2 * step_of radius <= p_width src - 1 ->
     2 * step_of radius <= p_height src - 1 ->
     shows src (fun _ _ => F32.fl a e) ->
     exists dst' : Plane float,
       process_extract_plane float_t src dst radius fi = Some dst' /\
       same_geometry dst' dst /\
       shows dst' (fun _ _ => F32.zero)) /\
  process_extract_plane uint8_t (flat_plane 4 4 128) (flat_plane 4 4 0) 1 GRAY8
  = Some (flat_plane 4 4 128) /\
  ProcessReplacePlane uint8_t (flat_plane 4 4 128) (flat_plane 4 4 128)
    (flat_plane 4 4 0) GRAY8
  = Some (flat_plane 4 4 128).
Proof.
  split; [|split; [|split; reflexivity]].
  - intros w src dst radius fi c Hb Hc Hps Hpd Ew Eh Hr Htw Hth Hsrc.
    destruct (extract_uint_correct w src dst radius fi (fun _ _ => c))
      as (dst' & E & Hg & _ & _ & Hx); try done.
    { intros x y _ _. exact Hc. }
    exists dst'. split; [exact E|]. split; [exact Hg|].
    destruct Hg as (Gw & Gh & _).
    intros x y Hx' Hy'. rewrite Hx by done. f_equal.
    by apply extract_const.
  - intros src dst radius fi a e Ha He Hps Hpd Ew Eh Hr Htw Hth Hsrc.
    destruct (extract_float_spec src dst radius fi (fun _ _ => F32.fl a e))
      as (dst' & E & Hg & _ & Hs); try done.
    exists dst'. split; [exact E|]. split; [exact Hg|].
    destruct Hg as (Gw & Gh & _).
    intros x y Hx Hy. rewrite Hs by done. f_equal.
    apply extract_float_const; try done; try (by apply taps_of_radius); lia.
Qed.

Lemma C5_flat_plane_extracts_neutral_witness :
  (exists dst' : Plane Z,
     process_extract_plane uint16_t (flat_plane 5 5 1000) (flat_plane 5 5 0)
       2 GRAY16 = Some dst' /\
     same_geometry dst' (flat_plane 5 5 0) /\
     shows dst' (fun _ _ => Spec.int_neutral 16)) /\
  (exists dst' : Plane float,
     process_extract_plane float_t (flat_plane 5 5 (F32.fl 3 (-2)))
       (flat_plane 5 5 F32.zero) 2 GRAYS = Some dst' /\
     same_geometry dst' (flat_plane 5 5 F32.zero) /\
     shows dst' (fun _ _ => F32.zero)).
Proof.
  destruct C5_flat_plane_extracts_neutral as (Hi & Hf & _). split.
  - apply (Hi 16 (flat_plane 5 5 1000) (flat_plane 5 5 0) 2 GRAY16 1000
             ltac:(cbn; lia) ltac:(vm_compute; split; congruence)
             ltac:(apply plane_ok_flat; lia) ltac:(apply plane_ok_flat; lia)
             eq_refl eq_refl ltac:(lia)
             ltac:(vm_compute; congruence) ltac:(vm_compute; congruence)
             ltac:(apply shows_flat; lia)).
  - apply (Hf (flat_plane 5 5 (F32.fl 3 (-2))) (flat_plane 5 5 F32.zero) 2
             GRAYS 3 (-2) ltac:(lia) ltac:(lia)
             ltac:(apply plane_ok_flat; lia) ltac:(apply plane_ok_flat; lia)
             eq_refl eq_refl ltac:(lia)
             ltac:(vm_compute; congruence) ltac:(vm_compute; congruence)
             ltac:(apply shows_flat; lia)).
Defined.

(** ** Extract, the low band, Replace *)

(** C1 (counterexample): on the float plane of ones with [2^-30] at its
    centre, Extract at radius 1, the low band [S - D] and Replace return
    a plane whose centre sample is not the one of the source. *)
Lemma C1_counterexample :
  exists R : Plane float,
    spike_roundtrip = Some R /\ pixel R 2 2 <> pixel spike_plane 2 2.
Proof.
  eexists. split; [vm_compute; reflexivity|]. vm_compute. discriminate.
Qed.

(** C1 (amended): for a float plane [S] whose taps stay inside it,
    Extract gives a plane [D], and Replace of the low band [S - D] and
    [D] gives a plane [R] of the same geometry that holds, at every
    pixel, [((s - d) + d) - 0] in rounded binary32 arithmetic, for the
    samples [s] of [S] and [d] of [D].  This is the sample of [S] again,
    bit for bit, at every pixel where [s] and [d] are multiples
    [a * 2^e] and [b * 2^e] of one power of two, [-149 <= e <= 104],
    with [a], [b] and [a - b] below [2^24] in absolute value, so that
    the subtraction and the addition are exact there. *)
Theorem C1_float_inverse_where_exact
    (S dst0 dst1 : Plane float) radius fi :
  plane_ok S -> plane_ok dst0 -> plane_ok dst1 ->
  same_geometry dst0 S -> same_geometry dst1 S ->
  1 <= radius ->
  2 * step_of radius <= p_width S - 1 ->
  2 * step_of radius <= p_height S - 1 ->
  exists D R : Plane float,
    process_extract_plane float_t S dst0 radius fi = Some D /\
    ProcessReplacePlane float_t (MakeLowBand_float S D) D dst1 fi = Some R /\
    same_geometry D S /\ same_geometry R S /\
    (forall x y s d,
       0 <= x < p_width S -> 0 <= y < p_height S ->
       pixel S x y = Some s -> pixel D x y = Some d ->
       pixel R x y
       = Some (F32.sub (F32.add (F32.sub s d) d) F32.zero)) /\
    (forall x y a b e,
       0 <= x < p_width S -> 0 <= y < p_height S ->
       pixel S x y = Some (F32.fl a e) -> pixel D x y = Some (F32.fl b e) ->
       Z.abs a < 2 ^ 24 -> Z.abs b < 2 ^ 24 -> Z.abs (a - b) < 2 ^ 24 ->
       -149 <= e <= 104 ->
       pixel R x y = Some (F32.fl a e)).
Proof.
  intros HS H0 H1 G0 G1 Hr Htw Hth.
  pose proof (shows_image_of F32.zero S HS) as HsS.
  destruct G0 as (G0w & G0h & G0s).
  destruct (extract_float_spec S dst0 radius fi (image_of F32.zero S))
    as (D & E & GD & LD & _); try done.
  assert (GDS : same_geometry D S)
    by (apply (same_geometry_trans D dst0 S); by unfold same_geometry).
  assert (HD : plane_ok D) by (by apply (same_geometry_ok D dst0)).
  pose proof (shows_image_of F32.zero D HD) as HsD.
  destruct (replace_float_spec (MakeLowBand_float S D) D dst1 fi
              (fun x y => F32.sub (image_of F32.zero S x y)
                            (image_of F32.zero D x y))
              (image_of F32.zero D))
    as (R & ER & GR & _ & HsR); try done.
  { apply same_geometry_sym. exact G1. }
  { apply (same_geometry_trans D S dst1); [done|by apply same_geometry_sym]. }
  { by apply zip_shows. }
  assert (GRS : same_geometry R S)
    by (by apply (same_geometry_trans R dst1 S)).
  assert (Hgen : forall x y s d,
    0 <= x < p_width S -> 0 <= y < p_height S ->
    pixel S x y = Some s -> pixel D x y = Some d ->
    pixel R x y = Some (F32.sub (F32.add (F32.sub s d) d) F32.zero)).
  { intros x y s d Hx Hy Ps Pd. destruct GRS as (GRw & GRh & _).
    rewrite HsR by lia. unfold image_of. rewrite Ps, Pd. reflexivity. }
  exists D, R. split; [exact E|]. split; [exact ER|].
  split; [exact GDS|]. split; [exact GRS|]. split; [exact Hgen|].
  intros x y a b e Hx Hy Ps Pd Ha Hb Hab He.
  rewrite (Hgen x y _ _ Hx Hy Ps Pd). f_equal.
  by apply float_roundtrip_exact.
Qed.

Lemma C1_float_inverse_where_exact_witness :
  exists D R : Plane float,
    process_extract_plane float_t bump_plane (flat_plane 5 5 F32.zero)
      1 GRAYS = Some D /\
    ProcessReplacePlane float_t (MakeLowBand_float bump_plane D) D
      (flat_plane 5 5 F32.zero) GRAYS = Some R /\
    pixel bump_plane 2 2 = Some (F32.fl 68 (-2)) /\
    pixel D 2 2 = Some (F32.fl 55 (-2)) /\
    pixel R 2 2 = Some (F32.fl 68 (-2)).
Proof.
  destruct (C1_float_inverse_where_exact
              bump_plane (flat_plane 5 5 F32.zero)
              (flat_plane 5 5 F32.zero) 1 GRAYS
              ltac:(repeat split; vm_compute; congruence)
              ltac:(apply plane_ok_flat; lia)
              ltac:(apply plane_ok_flat; lia)
              ltac:(by unfold same_geometry) ltac:(by unfold same_geometry)
              ltac:(lia)
              ltac:(vm_compute; congruence) ltac:(vm_compute; congruence))
    as (D & R & E & ER & _ & _ & _ & H).
  assert (ES : pixel bump_plane 2 2 = Some (F32.fl 68 (-2)))
    by (vm_compute; reflexivity).
  assert (ED : (p ← process_extract_plane float_t bump_plane
                      (flat_plane 5 5 F32.zero) 1 GRAYS; pixel p 2 2)
               = Some (F32.fl 55 (-2)))
    by (vm_compute; reflexivity).
  rewrite E in ED. cbn [mbind option_bind] in ED.
  exists D, R. split; [exact E|]. split; [exact ER|].
  split; [exact ES|]. split; [exact ED|].
  apply (H 2 2 68 55 (-2)); try (cbn; lia); [exact ES|exact ED].
Defined.

(** C2 (counterexample): on the 8-bit plane of five by five samples 128,
    Extract at radius 1 gives the plane of 128, the difference
    [S - D] is the plane of zeros and Replace returns zeros, not 128. *)
Lemma C2_counterexample :
  exists R : Plane Z,
    grey_roundtrip = Some R /\
    pixel R 2 2 = Some 0 /\ pixel (flat_plane 5 5 128) 2 2 = Some 128.
Proof. eexists. repeat split; reflexivity. Qed.

(** C2 (amended): for an integer plane [S] of 8 to 16 bits whose
    samples are at most [2^bits - 1] and whose taps stay inside it,
    Extract gives a plane [D], and Replace of [D] and the low band
    re-centred on neutral, [S - D + neutral] clamped to [0, max],
    gives [S] again, sample by sample. *)
Theorem C2_integer_inverse_with_neutral_offset
    w (S dst0 dst1 : Plane Z) radius fi :
  8 <= bitsPerSample fi <= 16 ->
  plane_ok S -> plane_ok dst0 -> plane_ok dst1 ->
  same_geometry dst0 S -> same_geometry dst1 S ->
  1 <= radius ->
  2 * step_of radius <= p_width S - 1 ->
  2 * step_of radius <= p_height S - 1 ->
  bounded_image (image_of 0 S) (p_width S) (p_height S)
    (Spec.int_max (bitsPerSample fi)) ->
  exists D R : Plane Z,
    process_extract_plane (uint w) S dst0 radius fi = Some D /\
    ProcessReplacePlane (uint w) (MakeDiff_int (bitsPerSample fi) S D) D
      dst1 fi = Some R /\
    same_geometry R S /\
    shows R (image_of 0 S).
Proof.
  intros Hb HS H0 H1 G0 G1 Hr Htw Hth HB.
  destruct (Exact_facts.int_consts _ Hb) as [Hmx Hn].
  pose proof (shows_image_of 0 S HS) as HsS.
  destruct G0 as (G0w & G0h & G0s).
  destruct (extract_uint_correct w S dst0 radius fi (image_of 0 S))
    as (D & E & GD & LD & _ & HsD); try done.
  assert (GDS : same_geometry D S)
    by (apply (same_geometry_trans D dst0 S); by unfold same_geometry).
  assert (HD : plane_ok D) by (by apply (same_geometry_ok D dst0)).
  set (bits := bitsPerSample fi) in *.
  set (imgD := Exact.extract bits (image_of 0 S) (step_of radius)
                 (p_width S) (p_height S)) in *.
  set (imgL := fun x y =>
         Exact.clampZ (image_of 0 S x y - imgD x y + Spec.int_neutral bits)
           0 (Spec.int_max bits)).
  destruct G1 as (G1w & G1h & G1s).
  destruct (replace_uint_correct w (MakeDiff_int bits S D) D dst1 fi imgL imgD)
    as (R & ER & GR & _ & _ & HsR); try done.
  { destruct GDS as (? & ? & ?). unfold same_geometry. lia. }
  { apply (zip_shows
      (fun s d => Exact.clampZ (s - d + Spec.int_neutral bits)
                    0 (Spec.int_max bits)) S D (image_of 0 S) imgD); [done| |done].
    destruct GD as (GDw & GDh & _). intros x y Hx Hy. apply HsD; lia. }
  { intros x y Hx Hy.
    pose proof (clampZ_bounds
      (image_of 0 S x y - imgD x y + Spec.int_neutral bits)
      0 (Spec.int_max bits) ltac:(lia)). unfold imgL. lia. }
  { intros x y Hx Hy. unfold imgD, Exact.extract.
    pose proof (clampZ_bounds
      (Exact.round_half_away
         (256 * (image_of 0 S x y + Spec.int_neutral bits)
          - Exact.blurred256 (image_of 0 S) (step_of radius)
              (p_width S) (p_height S) x y))
      0 (Spec.int_max bits) ltac:(lia)). lia. }
  exists D, R. split; [exact E|]. split; [exact ER|].
  destruct GR as (GRw & GRh & GRs).
  split; [unfold same_geometry; lia|].
  intros x y Hx Hy. rewrite HsR by done. f_equal.
  destruct (Exact_facts.blurred_exact (image_of 0 S) (step_of radius)
              (p_width S) (p_height S) (Spec.int_max bits) 0 x y)
    as [_ HN]; try done; try (by apply taps_of_radius);
    try (unfold F32.mid; lia); try lia.
  unfold imgL, imgD, Exact.extract.
  apply inverse_Z; [done| |done]. apply HB; lia.
Qed.

Lemma C2_integer_inverse_with_neutral_offset_witness :
  exists D R : Plane Z,
    process_extract_plane uint8_t (flat_plane 5 5 128) (flat_plane 5 5 0)
      1 GRAY8 = Some D /\
    ProcessReplacePlane uint8_t (MakeDiff_int 8 (flat_plane 5 5 128) D) D
      (flat_plane 5 5 0) GRAY8 = Some R /\
    same_geometry R (flat_plane 5 5 128) /\
    shows R (image_of 0 (flat_plane 5 5 128)).
Proof.
  apply (C2_integer_inverse_with_neutral_offset 8
           (flat_plane 5 5 128) (flat_plane 5 5 0) (flat_plane 5 5 0) 1 GRAY8
           ltac:(cbn; lia)
           ltac:(apply plane_ok_flat; lia) ltac:(apply plane_ok_flat; lia)
           ltac:(apply plane_ok_flat; lia)
           ltac:(by unfold same_geometry) ltac:(by unfold same_geometry)
           ltac:(lia)
           ltac:(vm_compute; congruence) ltac:(vm_compute; congruence)).
  intros x y Hx Hy.
  rewrite (image_of_shows 0 (flat_plane 5 5 128) (fun _ _ => 128))
    by (done || apply shows_flat; lia).
  vm_compute. split; congruence.
Defined.

(** * Further properties of the code *)

(** ** What the loops leave untouched, and when they fail *)

Lemma raster_fill_rest {A} (body : Z -> Z -> list A -> option (list A))
    (F : Z -> Z -> A) (width height stride : Z) (d0 d' : list A) :
  0 <= width <= stride -> 0 <= height ->
  stride * height <= Z.of_nat (length d0) ->
  (forall x y d, 0 <= x < width -> 0 <= y < height ->
     body y x d = store d (y * stride + x) (F x y)) ->
  for_loop 0 height (fun y d => for_loop 0 width (body y) d) d0 = Some d' ->
  forall i, ~ in_window width height stride i -> load d' i = load d0 i.
Proof.
  intros Hw Hh Hlen Hbody E.
  destruct (for_loop_inv
    (fun y d => length d = length d0 /\
       forall i, ~ in_window width height stride i -> load d i = load d0 i)
    (fun y d => for_loop 0 width (body y) d) 0 height d0)
    as (d1 & E1 & _ & Hrest); [done|done| |].
  - intros y d Hy (Hl & Hrest).
    destruct (row_fill (body y) (fun x => F x y) (y * stride) width d)
      as (d1 & E1 & Hl1 & _ & Hr); [nia|lia|nia| |].
    { intros x d2 Hx. by apply Hbody. }
    exists d1. split; [done|]. split; [congruence|].
    intros i Hi. rewrite Hr; [by apply Hrest|].
    intros Hin. apply Hi. exists (i - y * stride), y. lia.
  - rewrite E in E1. by injection E1 as ->.
Qed.

Lemma for_iter_Some {S} (body : Z -> S -> option S) n lo s s' :
  for_iter n lo body s = Some s' ->
  forall i, lo <= i < lo + Z.of_nat n -> exists t t', body i t = Some t'.
Proof.
  revert lo s. induction n as [|n IH]; intros lo s E i Hi; [lia|].
  cbn [for_iter] in E. destruct (body lo s) as [s1|] eqn:E1; [|done].
  destruct (Z.eq_dec i lo) as [->|Hne]; [by eauto|].
  apply (IH (lo + 1) s1 E). lia.
Qed.

Lemma for_loop_Some {S} (body : Z -> S -> option S) lo hi s s' :
  for_loop lo hi body s = Some s' ->
  forall i, lo <= i < hi -> exists t t', body i t = Some t'.
Proof.
  unfold for_loop. intros E i Hi. apply (for_iter_Some _ _ _ _ _ E). lia.
Qed.

Lemma for_loop_None {S} (body : Z -> S -> option S) lo hi s i :
  lo <= i < hi -> (forall t, body i t = None) -> for_loop lo hi body s = None.
Proof.
  intros Hi Hb. destruct (for_loop lo hi body s) as [s'|] eqn:E; [|done].
  destruct (for_loop_Some _ _ _ _ _ E i Hi) as (t & t' & Et).
  by rewrite Hb in Et.
Qed.

Lemma load_None_ge {A} (b : list A) i :
  Z.of_nat (length b) <= i -> load b i = None.
Proof.
  intros Hi. unfold load. destruct (Z.ltb_spec i 0); [done|].
  apply lookup_ge_None. lia.
Qed.

Lemma for_iter_None_inv {S} (I : Z -> S -> Prop) (body : Z -> S -> option S)
    n lo s i :
  I lo s ->
  (forall j t t', lo <= j -> I j t -> body j t = Some t' -> I (j + 1) t') ->
  lo <= i < lo + Z.of_nat n ->
  (forall t, I i t -> body i t = None) ->
  for_iter n lo body s = None.
Proof.
  revert lo s. induction n as [|n IH]; intros lo s HI Hstep Hi Hfail; [lia|].
  cbn [for_iter]. destruct (body lo s) as [s1|] eqn:E1; [|done].
  destruct (Z.eq_dec i lo) as [->|Hne]; [by rewrite Hfail in E1|].
  apply (IH (lo + 1) s1).
  - by apply (Hstep lo s).
  - intros j t t' Hj. apply Hstep. lia.
  - lia.
  - done.
Qed.

Lemma conv_v_and_extract_rest T (temp : list float)
    (src dst d : list (sample T)) width height src_stride dst_stride step fi
    (img : Z -> Z -> sample T) (H : Z -> Z -> float) :
  0 <= width <= src_stride -> 0 <= width <= dst_stride -> 0 <= height ->
  dst_stride * height <= Z.of_nat (length dst) ->
  taps_in_range step height ->
  (forall x y, 0 <= x < width -> 0 <= y < height ->
     load src (y * src_stride + x) = Some (img x y)) ->
  (forall x y, 0 <= x < width -> 0 <= y < height ->
     load temp (y * width + x) = Some (H x y)) ->
  conv_v_and_extract T temp src dst width height src_stride dst_stride
    step fi = Some d ->
  forall i, ~ in_window width height dst_stride i -> load d i = load dst i.
Proof.
  intros Hws Hwd Hh Hlen Htaps Hsrc Htemp E.
  unfold conv_v_and_extract in E.
  apply (raster_fill_rest
    (fun y x d =>
       sum ← for_loop (-2) 3 (conv_v_tap temp width height step x y) F32.zero;
       o ← load src (y * src_stride + x);
       store d (y * dst_stride + x)
         (write_back T (get_max T fi)
            (F32.add (F32.sub (to_float T o) (F32.div sum (F32.of_int 256)))
               (get_neutral T fi))))
    (fun x y =>
       write_back T (get_max T fi)
         (F32.add
            (F32.sub (to_float T (img x y))
               (F32.div
                  (Spec.sum5 (fun k =>
                     F32.mul (H x (mirror_boundary (y + k * step) height))
                             (F32.of_int (Spec.kernel (k + 2)))))
                  (F32.of_int 256)))
            (get_neutral T fi)))
    width height dst_stride dst d); [done..| |exact E].
  intros x y d2 Hx Hy.
  rewrite (conv_v_taps temp width height step x y
             (fun k => H x (mirror_boundary (y + k * step) height))).
  - cbn [mbind option_bind]. rewrite Hsrc by done. reflexivity.
  - intros k Hk. apply Htemp; [done|]. by apply Htaps.
Qed.

Lemma process_extract_plane_rest T (src dst dst' : Plane (sample T)) radius fi :
  plane_ok src -> plane_ok dst ->
  p_width dst = p_width src -> p_height dst = p_height src ->
  taps_in_range (step_of radius) (p_width src) ->
  taps_in_range (step_of radius) (p_height src) ->
  process_extract_plane T src dst radius fi = Some dst' ->
  forall i, ~ in_window (p_width dst) (p_height dst) (p_stride dst) i ->
    load (p_data dst') i = load (p_data dst) i.
Proof.
  intros Hps Hpd Ew Eh Htw Hth E.
  pose proof (shows_image_of (of_float T F32.zero) src Hps) as Himg.
  destruct Hps as (Hws & Hhs & Hls). destruct Hpd as (Hwd & Hhd & Hld).
  unfold process_extract_plane in E. cbv zeta in E.
  destruct (conv_h_correct T (p_data src)
              (replicate (Z.to_nat (p_width src * p_height src)) F32.zero)
              (p_width src) (p_height src) (p_stride src) (step_of radius)
              (image_of (of_float T F32.zero) src))
    as (temp & E1 & _ & Htemp); [done|done| |done| |].
  { rewrite length_replicate. nia. }
  { intros x y Hx Hy. by apply Himg. }
  rewrite E1 in E. cbn [mbind option_bind] in E.
  destruct (conv_v_and_extract T temp (p_data src) (p_data dst) (p_width src)
              (p_height src) (p_stride src) (p_stride dst) (step_of radius) fi)
    as [d|] eqn:Ed; [|done].
  cbn [mbind option_bind] in E. injection E as <-.
  cbn [with_data p_data]. rewrite Ew, Eh.
  apply (conv_v_and_extract_rest T temp (p_data src) (p_data dst) d
           (p_width src) (p_height src) (p_stride src) (p_stride dst)
           (step_of radius) fi (image_of (of_float T F32.zero) src)
           (Spec.hpass (fun x y =>
              to_float T (image_of (of_float T F32.zero) src x y))
              (step_of radius) (p_width src)));
    try done; try lia.
Qed.

Lemma ProcessReplacePlane_rest T (base detail dst dst' : Plane (sample T)) fi :
  plane_ok dst -> plane_ok base -> plane_ok detail ->
  same_geometry base dst -> same_geometry detail dst ->
  ProcessReplacePlane T base detail dst fi = Some dst' ->
  forall i, ~ in_window (p_width dst) (p_height dst) (p_stride dst) i ->
    load (p_data dst') i = load (p_data dst) i.
Proof.
  intros Hp Hpb Hpd (Ebw & Ebh & Ebs) (Edw & Edh & Eds) E.
  pose proof (shows_image_of (of_float T F32.zero) base Hpb) as Hb.
  pose proof (shows_image_of (of_float T F32.zero) detail Hpd) as Hd.
  destruct Hp as (Hw & Hh & Hlen).
  unfold ProcessReplacePlane in E. cbv zeta in E.
  destruct (for_loop_inv
    (fun y (st : Z * list (sample T)) =>
       st.1 = y * p_stride dst /\
       length st.2 = length (p_data dst) /\
       forall i, ~ in_window (p_width dst) (p_height dst) (p_stride dst) i ->
         load st.2 i = load (p_data dst) i)
    (fun y '(row, dstp) =>
       dstp' ← for_loop 0 (p_width dst) (fun x dstp =>
           b ← load (p_data base) (row + x);
           d ← load (p_data detail) (row + x);
           store dstp (row + x)
             (write_back T (get_max T fi)
                (F32.sub (F32.add (to_float T b) (to_float T d))
                   (get_neutral T fi)))) dstp;
       Some (row + p_stride dst, dstp'))
    0 (p_height dst) (0, p_data dst)) as (st & E1 & _ & _ & Hrest);
    [done| |..].
  - cbn [fst snd]. split; [lia|]. split; [reflexivity|]. done.
  - intros y [row dstp] Hy (Hr & Hl & Hrest). cbn [fst snd] in Hr, Hl, Hrest.
    subst row.
    destruct (row_fill
      (fun x dstp =>
         b ← load (p_data base) (y * p_stride dst + x);
         d ← load (p_data detail) (y * p_stride dst + x);
         store dstp (y * p_stride dst + x)
           (write_back T (get_max T fi)
              (F32.sub (F32.add (to_float T b) (to_float T d))
                 (get_neutral T fi))))
      (fun x =>
         write_back T (get_max T fi)
           (F32.sub
              (F32.add
                 (to_float T (image_of (of_float T F32.zero) base x y))
                 (to_float T (image_of (of_float T F32.zero) detail x y)))
              (get_neutral T fi)))
      (y * p_stride dst) (p_width dst) dstp)
      as (d1 & Ed1 & Hl1 & _ & Hr); [nia|lia|nia| |].
    { intros x d2 Hx.
      pose proof (Hb x y ltac:(lia) ltac:(lia)) as Hbx.
      pose proof (Hd x y ltac:(lia) ltac:(lia)) as Hdx.
      unfold pixel in Hbx, Hdx. rewrite Ebs in Hbx. rewrite Eds in Hdx.
      rewrite Hbx, Hdx. reflexivity. }
    rewrite Ed1. cbn [mbind option_bind].
    eexists. split; [reflexivity|]. cbn [fst snd].
    split; [lia|]. split; [congruence|].
    intros i Hi. rewrite Hr; [by apply Hrest|].
    intros Hin. apply Hi. exists (i - y * p_stride dst), y. lia.
  - rewrite E1 in E. cbn [mbind option_bind] in E. injection E as <-.
    exact Hrest.
Qed.

(** ** Locality *)

Lemma detail_local (f g : Z -> Z -> float) neutral step width height x y :
  (forall j k, -2 <= j <= 2 -> -2 <= k <= 2 ->
     f (mirror_boundary (x + j * step) width)
       (mirror_boundary (y + k * step) height)
     = g (mirror_boundary (x + j * step) width)
         (mirror_boundary (y + k * step) height)) ->
  f x y = g x y ->
  Spec.detail f neutral step width height x y
  = Spec.detail g neutral step width height x y.
Proof.
  intros Hfg Hxy. unfold Spec.detail, Spec.blurred. rewrite Hxy.
  do 3 f_equal. apply Exact_facts.sum5_ext. intros k Hk. f_equal.
  unfold Spec.hpass. apply Exact_facts.sum5_ext. intros j Hj. f_equal.
  by apply Hfg.
Qed.

Lemma taps_in_range_iff step size :
  1 <= step -> 1 <= size ->
  taps_in_range step size <-> 2 * step <= size - 1.
Proof.
  intros Hs Hsz. split; [|apply mirror_in_range; lia].
  intros H. specialize (H 0 (-2) ltac:(lia) ltac:(lia)).
  unfold mirror_boundary in H.
  destruct (Z.ltb_spec (0 + -2 * step) 0); lia.
Qed.

Lemma bounded_image_Forall (p : Plane Z) w h B :
  0 <= B -> Forall (fun v => 0 <= v <= B) (p_data p) ->
  bounded_image (image_of 0 p) w h B.
Proof.
  intros HB Hall x y _ _. unfold image_of, pixel, load.
  destruct (Z.ltb_spec (y * p_stride p + x) 0); [cbn; lia|].
  destruct (p_data p !! Z.to_nat (y * p_stride p + x)) as [v|] eqn:E;
    [|cbn; lia].
  cbn. by apply (Forall_lookup_1 _ _ _ _ Hall E).
Qed.

Lemma ramp_plane_ok : plane_ok ramp_plane.
Proof. unfold plane_ok. cbn. lia. Qed.

Lemma blank_plane_ok : plane_ok blank_plane.
Proof. unfold plane_ok. cbn. lia. Qed.

Lemma ramp_plane_bounded :
  bounded_image (image_of 0 ramp_plane) 5 5 (Spec.int_max 8).
Proof.
  apply bounded_image_Forall; [by vm_compute|].
  unfold ramp_plane, Spec.int_max. cbn [p_data].
  repeat constructor; lia.
Qed.

(** ** The numeric core on integer planes *)

(** X1: on an integer plane of 8 to 16 bits with samples in
    [0, 2^bits - 1] and taps inside the plane, the float computation of
    Extract has no rounding error: every output sample is
    [source + neutral - blurred], with the exact blurred value [N / 256],
    rounded half away from zero and clamped to [0, 2^bits - 1]. *)
Theorem X1_extract_integer_exact w (src dst : Plane Z) radius fi :
  8 <= bitsPerSample fi <= 16 ->
  plane_ok src -> plane_ok dst ->
  p_width dst = p_width src -> p_height dst = p_height src ->
  1 <= radius ->
  2 * step_of radius <= p_width src - 1 ->
  2 * step_of radius <= p_height src - 1 ->
  bounded_image (image_of 0 src) (p_width src) (p_height src)
    (Spec.int_max (bitsPerSample fi)) ->
  exists dst' : Plane Z,
    process_extract_plane (uint w) src dst radius fi = Some dst' /\
    same_geometry dst' dst /\
    shows dst' (fun x y =>
      Exact.clampZ
        (Exact.round_half_away
           (256 * (image_of 0 src x y + 2 ^ (bitsPerSample fi - 1))
            - Exact.blurred256 (image_of 0 src) (step_of radius)
                (p_width src) (p_height src) x y))
        0 (2 ^ bitsPerSample fi - 1)).
Proof.
  intros Hb Hps Hpd Ew Eh Hr Htw Hth HB.
  destruct (extract_uint_correct w src dst radius fi (image_of 0 src))
    as (dst' & E & Hg & _ & _ & Hx); try done; [by apply shows_image_of|].
  exists dst'. split; [exact E|]. split; [exact Hg|exact Hx].
Qed.

Lemma X1_extract_integer_exact_witness :
  exists dst' : Plane Z,
    process_extract_plane uint8_t ramp_plane blank_plane 1 GRAY8 = Some dst' /\
    pixel dst' 4 4 = Some 186.
Proof.
  destruct (X1_extract_integer_exact 8 ramp_plane blank_plane 1 GRAY8
              ltac:(cbn; lia) ramp_plane_ok blank_plane_ok eq_refl eq_refl
              ltac:(lia) ltac:(vm_compute; congruence)
              ltac:(vm_compute; congruence) ramp_plane_bounded)
    as (dst' & E & (Gw & Gh & _) & Hs).
  exists dst'. split; [exact E|].
  rewrite (Hs 4 4) by (rewrite ?Gw, ?Gh; cbn; lia). reflexivity.
Defined.

(** X2: on integer samples between 0 and [B < 2^20] the horizontal pass
    is exact: the float buffer holds, at every position, the integer
    5-tap sum of the mirrored samples of the row, unnormalized and at
    most [16 * B]. *)
Theorem X2_conv_h_integer_exact w (src : Plane Z) step B :
  plane_ok src -> 0 <= step -> 2 * step <= p_width src - 1 ->
  16 * B < 2 ^ 24 ->
  bounded_image (image_of 0 src) (p_width src) (p_height src) B ->
  exists temp : list float,
    conv_h (uint w) (p_data src)
      (replicate (Z.to_nat (p_width src * p_height src)) F32.zero)
      (p_width src) (p_height src) (p_stride src) step = Some temp /\
    forall x y, 0 <= x < p_width src -> 0 <= y < p_height src ->
      load temp (y * p_width src + x)
      = Some (F32.of_int (Exact.hpass (image_of 0 src) step (p_width src) x y))
      /\ 0 <= Exact.hpass (image_of 0 src) step (p_width src) x y <= 16 * B.
Proof.
  intros Hps Hs Htw HB Hbd.
  pose proof (mirror_in_range step _ Hs Htw) as Tw.
  pose proof (shows_image_of 0 src Hps) as Himg.
  destruct (conv_h_correct (uint w) (p_data src)
              (replicate (Z.to_nat (p_width src * p_height src)) F32.zero)
              (p_width src) (p_height src) (p_stride src) step
              (image_of 0 src))
    as (temp & E1 & _ & Htemp).
  { apply Hps. } { apply Hps. }
  { rewrite length_replicate. destruct Hps as (? & ? & _). nia. }
  { exact Tw. }
  { intros x y Hx Hy. by apply Himg. }
  exists temp. split; [exact E1|].
  intros x y Hx Hy. rewrite Htemp by done.
  destruct (Exact_facts.hpass_exact (image_of 0 src) step (p_width src)
              (p_height src) B 0 x y) as [Eh Hb]; try done.
  split; [|exact Hb]. f_equal. cbn [to_float uint].
  rewrite F32_facts.of_int_fl, <- Eh. reflexivity.
Qed.

Lemma X2_conv_h_integer_exact_witness :
  exists temp : list float,
    conv_h uint8_t (p_data ramp_plane) (replicate 25 F32.zero) 5 5 8 1
    = Some temp /\
    load temp 0 = Some (F32.of_int 120).
Proof.
  destruct (X2_conv_h_integer_exact 8 ramp_plane 1 255 ramp_plane_ok
              ltac:(lia) ltac:(cbn; lia) ltac:(lia) ramp_plane_bounded)
    as (temp & E & H).
  exists temp. split; [exact E|].
  destruct (H 0 0 ltac:(cbn; lia) ltac:(cbn; lia)) as [H0 _]. exact H0.
Defined.

(** X3: on such a plane every sample Extract writes is a sample of the
    representation, between 0 and [2^bits - 1]. *)
Theorem X3_extract_integer_in_range w (src dst : Plane Z) radius fi :
  8 <= bitsPerSample fi <= 16 ->
  plane_ok src -> plane_ok dst ->
  p_width dst = p_width src -> p_height dst = p_height src ->
  1 <= radius ->
  2 * step_of radius <= p_width src - 1 ->
  2 * step_of radius <= p_height src - 1 ->
  bounded_image (image_of 0 src) (p_width src) (p_height src)
    (Spec.int_max (bitsPerSample fi)) ->
  exists dst' : Plane Z,
    process_extract_plane (uint w) src dst radius fi = Some dst' /\
    bounded_image (image_of 0 dst') (p_width dst) (p_height dst)
      (2 ^ bitsPerSample fi - 1).
Proof.
  intros Hb Hps Hpd Ew Eh Hr Htw Hth HB.
  destruct (Exact_facts.int_consts _ Hb) as [Hmx Hn].
  destruct (extract_uint_correct w src dst radius fi (image_of 0 src))
    as (dst' & E & (Gw & Gh & _) & _ & _ & Hx); try done;
    [by apply shows_image_of|].
  exists dst'. split; [exact E|].
  intros x y Hx' Hy'.
  rewrite (image_of_shows 0 dst' _ x y Hx) by lia.
  apply clampZ_bounds. unfold Spec.int_max in Hmx. lia.
Qed.

Lemma X3_extract_integer_in_range_witness :
  exists dst' : Plane Z,
    process_extract_plane uint8_t ramp_plane blank_plane 1 GRAY8 = Some dst' /\
    0 <= image_of 0 dst' 0 0 <= 255.
Proof.
  destruct (X3_extract_integer_in_range 8 ramp_plane blank_plane 1 GRAY8
              ltac:(cbn; lia) ramp_plane_ok blank_plane_ok eq_refl eq_refl
              ltac:(lia) ltac:(vm_compute; congruence)
              ltac:(vm_compute; congruence) ramp_plane_bounded)
    as (dst' & E & H).
  exists dst'. split; [exact E|]. apply (H 0 0); cbn; lia.
Defined.

(** X4: Replace on integer planes of one geometry with samples below
    [2^16] writes samples between 0 and [2^bits - 1]: the sum saturates. *)
Theorem X4_replace_integer_in_range w (base detail dst : Plane Z) fi :
  8 <= bitsPerSample fi <= 16 ->
  plane_ok base -> plane_ok detail -> plane_ok dst ->
  same_geometry base dst -> same_geometry detail dst ->
  bounded_image (image_of 0 base) (p_width dst) (p_height dst) (2 ^ 16 - 1) ->
  bounded_image (image_of 0 detail) (p_width dst) (p_height dst) (2 ^ 16 - 1) ->
  exists dst' : Plane Z,
    ProcessReplacePlane (uint w) base detail dst fi = Some dst' /\
    bounded_image (image_of 0 dst') (p_width dst) (p_height dst)
      (2 ^ bitsPerSample fi - 1).
Proof.
  intros Hb Hpb Hpd Hp Gb Gd Bb Bd.
  destruct (Exact_facts.int_consts _ Hb) as [Hmx Hn].
  destruct (replace_uint_correct w base detail dst fi
              (image_of 0 base) (image_of 0 detail))
    as (dst' & E & (Gw & Gh & _) & _ & _ & Hx); try done;
    try (by apply shows_image_of).
  exists dst'. split; [exact E|].
  intros x y Hx' Hy'.
  rewrite (image_of_shows 0 dst' _ x y Hx) by lia.
  apply clampZ_bounds. unfold Spec.int_max in Hmx. lia.
Qed.

Lemma X4_replace_integer_in_range_witness :
  exists dst' : Plane Z,
    ProcessReplacePlane uint8_t ramp_plane ramp_plane blank_plane GRAY8
    = Some dst' /\
    0 <= image_of 0 dst' 4 4 <= 255.
Proof.
  assert (B : bounded_image (image_of 0 ramp_plane) 5 5 (2 ^ 16 - 1)).
  { intros x y Hx Hy. pose proof (ramp_plane_bounded x y Hx Hy) as H.
    unfold Spec.int_max in H. lia. }
  destruct (X4_replace_integer_in_range 8 ramp_plane ramp_plane blank_plane
              GRAY8 ltac:(cbn; lia) ramp_plane_ok ramp_plane_ok blank_plane_ok
              ltac:(by unfold same_geometry) ltac:(by unfold same_geometry)
              B B)
    as (dst' & E & H).
  exists dst'. split; [exact E|]. apply (H 4 4); cbn; lia.
Defined.

(** ** What the passes touch, and what they read *)

(** X5: Extract keeps the geometry and the length of the destination
    buffer and writes its window only: the padding between the rows and
    everything after the last row are as they were. *)
Theorem X5_extract_writes_only_the_window
    (T : PixelType) (src dst : Plane (sample T)) radius fi :
  plane_ok src -> plane_ok dst ->
  p_width dst = p_width src -> p_height dst = p_height src ->
  1 <= radius ->
  2 * step_of radius <= p_width src - 1 ->
  2 * step_of radius <= p_height src - 1 ->
  exists dst' : Plane (sample T),
    process_extract_plane T src dst radius fi = Some dst' /\
    same_geometry dst' dst /\
    length (p_data dst') = length (p_data dst) /\
    forall i, ~ in_window (p_width dst) (p_height dst) (p_stride dst) i ->
      load (p_data dst') i = load (p_data dst) i.
Proof.
  intros Hps Hpd Ew Eh Hr Htw Hth.
  pose proof (taps_of_radius radius _ Hr Htw) as Tw.
  pose proof (taps_of_radius radius _ Hr Hth) as Th.
  destruct (process_extract_plane_correct T src dst radius fi
              (image_of (of_float T F32.zero) src) Hps Hpd Ew Eh Tw Th
              (shows_image_of _ src Hps))
    as (dst' & E & Hg & Hl & _).
  exists dst'. split; [exact E|]. split; [exact Hg|]. split; [exact Hl|].
  by apply (process_extract_plane_rest T src dst dst' radius fi).
Qed.

Lemma X5_extract_writes_only_the_window_witness :
  exists dst' : Plane Z,
    process_extract_plane uint8_t ramp_plane blank_plane 1 GRAY8 = Some dst' /\
    load (p_data dst') 5 = Some 7.
Proof.
  destruct (X5_extract_writes_only_the_window uint8_t ramp_plane blank_plane
              1 GRAY8 ramp_plane_ok blank_plane_ok eq_refl eq_refl ltac:(lia)
              ltac:(vm_compute; congruence) ltac:(vm_compute; congruence))
    as (dst' & E & _ & _ & H).
  exists dst'. split; [exact E|]. rewrite H; [reflexivity|].
  intros (x & y & Hx & Hy & Hi). cbn in Hx, Hy, Hi. lia.
Defined.

(** X6: Replace keeps the geometry and the length of the destination
    buffer and writes its window only. *)
Theorem X6_replace_writes_only_the_window
    (T : PixelType) (base detail dst : Plane (sample T)) fi :
  plane_ok base -> plane_ok detail -> plane_ok dst ->
  same_geometry base dst -> same_geometry detail dst ->
  exists dst' : Plane (sample T),
    ProcessReplacePlane T base detail dst fi = Some dst' /\
    same_geometry dst' dst /\
    length (p_data dst') = length (p_data dst) /\
    forall i, ~ in_window (p_width dst) (p_height dst) (p_stride dst) i ->
      load (p_data dst') i = load (p_data dst) i.
Proof.
  intros Hpb Hpd Hp Gb Gd.
  destruct (ProcessReplacePlane_correct T base detail dst fi
              (image_of (of_float T F32.zero) base)
              (image_of (of_float T F32.zero) detail) Hp Gb Gd
              (shows_image_of _ base Hpb) (shows_image_of _ detail Hpd))
    as (dst' & E & Hg & Hl & _).
  exists dst'. split; [exact E|]. split; [exact Hg|]. split; [exact Hl|].
  by apply (ProcessReplacePlane_rest T base detail dst dst' fi).
Qed.

Lemma X6_replace_writes_only_the_window_witness :
  exists dst' : Plane Z,
    ProcessReplacePlane uint8_t ramp_plane ramp_plane blank_plane GRAY8
    = Some dst' /\
    load (p_data dst') 39 = Some 7.
Proof.
  destruct (X6_replace_writes_only_the_window uint8_t ramp_plane ramp_plane
              blank_plane GRAY8 ramp_plane_ok ramp_plane_ok blank_plane_ok
              ltac:(by unfold same_geometry) ltac:(by unfold same_geometry))
    as (dst' & E & _ & _ & H).
  exists dst'. split; [exact E|]. rewrite H; [reflexivity|].
  intros (x & y & Hx & Hy & Hi). cbn in Hx, Hy, Hi. lia.
Defined.

(** X7: the sample Extract writes at [(x, y)] depends on the source only
    through the 25 samples at the mirrored taps of column [x] and row
    [y]: two sources that agree there give the same sample. *)
Theorem X7_extract_is_local
    (T : PixelType) (src1 src2 dst1 dst2 : Plane (sample T)) radius fi x y :
  plane_ok src1 -> plane_ok src2 -> plane_ok dst1 -> plane_ok dst2 ->
  same_geometry src2 src1 ->
  p_width dst1 = p_width src1 -> p_height dst1 = p_height src1 ->
  p_width dst2 = p_width src1 -> p_height dst2 = p_height src1 ->
  1 <= radius ->
  2 * step_of radius <= p_width src1 - 1 ->
  2 * step_of radius <= p_height src1 - 1 ->
  0 <= x < p_width src1 -> 0 <= y < p_height src1 ->
  (forall j k, -2 <= j <= 2 -> -2 <= k <= 2 ->
     pixel src1 (mirror_boundary (x + j * step_of radius) (p_width src1))
                (mirror_boundary (y + k * step_of radius) (p_height src1))
     = pixel src2 (mirror_boundary (x + j * step_of radius) (p_width src1))
                  (mirror_boundary (y + k * step_of radius) (p_height src1))) ->
  exists d1 d2 : Plane (sample T),
    process_extract_plane T src1 dst1 radius fi = Some d1 /\
    process_extract_plane T src2 dst2 radius fi = Some d2 /\
    pixel d1 x y = pixel d2 x y.
Proof.
  intros Hp1 Hp2 Hd1 Hd2 (Gw & Gh & Gs) Ew1 Eh1 Ew2 Eh2 Hr Htw Hth Hx Hy Hag.
  pose proof (taps_of_radius radius _ Hr Htw) as Tw.
  pose proof (taps_of_radius radius _ Hr Hth) as Th.
  set (d0 := of_float T F32.zero).
  destruct (process_extract_plane_correct T src1 dst1 radius fi
              (image_of d0 src1) Hp1 Hd1 Ew1 Eh1 Tw Th
              (shows_image_of _ src1 Hp1))
    as (d1 & E1 & (G1w & G1h & _) & _ & H1).
  destruct (process_extract_plane_correct T src2 dst2 radius fi
              (image_of d0 src2) Hp2 Hd2)
    as (d2 & E2 & (G2w & G2h & _) & _ & H2);
    [lia|lia|by rewrite Gw|by rewrite Gh|by apply shows_image_of|].
  exists d1, d2. split; [exact E1|]. split; [exact E2|].
  rewrite H1, H2 by lia. rewrite Gw, Gh. do 2 f_equal.
  assert (Hloc : forall j k, -2 <= j <= 2 -> -2 <= k <= 2 ->
    image_of d0 src1
      (mirror_boundary (x + j * step_of radius) (p_width src1))
      (mirror_boundary (y + k * step_of radius) (p_height src1))
    = image_of d0 src2
        (mirror_boundary (x + j * step_of radius) (p_width src1))
        (mirror_boundary (y + k * step_of radius) (p_height src1))).
  { intros j k Hj Hk. unfold image_of. by rewrite Hag. }
  apply detail_local.
  - intros j k Hj Hk. f_equal. by apply Hloc.
  - f_equal. specialize (Hloc 0 0 ltac:(lia) ltac:(lia)).
    unfold mirror_boundary in Hloc.
    rewrite !Z.mul_0_l, !Z.add_0_r in Hloc.
    destruct (Z.ltb_spec x 0); [lia|]. destruct (Z.geb_spec x (p_width src1)); [lia|].
    destruct (Z.ltb_spec y 0); [lia|]. destruct (Z.geb_spec y (p_height src1)); [lia|].
    exact Hloc.
Qed.

Lemma X7_extract_is_local_witness :
  exists d1 d2 : Plane Z,
    process_extract_plane uint8_t ramp_plane blank_plane 1 GRAY8 = Some d1 /\
    process_extract_plane uint8_t ramp_plane ramp_plane 1 GRAY8 = Some d2 /\
    pixel d1 2 2 = pixel d2 2 2.
Proof.
  apply (X7_extract_is_local uint8_t ramp_plane ramp_plane blank_plane
           ramp_plane 1 GRAY8 2 2 ramp_plane_ok ramp_plane_ok blank_plane_ok
           ramp_plane_ok ltac:(by unfold same_geometry)
           eq_refl eq_refl eq_refl eq_refl ltac:(lia)
           ltac:(vm_compute; congruence) ltac:(vm_compute; congruence)
           ltac:(cbn; lia) ltac:(cbn; lia)).
  reflexivity.
Defined.

(** X8: for a radius [r] from 1 to 30, where the step [1 << (r - 1)] and
    twice the step are values of [int], the taps stay inside an axis
    exactly when the axis has at least [2^r + 1] samples. *)
Theorem X8_taps_in_range_iff_size radius size :
  1 <= radius <= 30 -> 1 <= size ->
  (taps_in_range (step_of radius) size <-> 2 ^ radius + 1 <= size).
Proof.
  intros [Hr _] Hs. pose proof (step_of_pos radius Hr).
  rewrite taps_in_range_iff by lia.
  unfold step_of. rewrite Z.shiftl_1_l.
  replace radius with (Z.succ (radius - 1)) at 2 by lia.
  rewrite Z.pow_succ_r by lia. lia.
Qed.

Lemma X8_taps_in_range_iff_size_witness :
  taps_in_range (step_of 2) 5 /\ ~ taps_in_range (step_of 2) 4.
Proof.
  split.
  - apply (X8_taps_in_range_iff_size 2 5); lia.
  - intros H. apply (X8_taps_in_range_iff_size 2 4) in H; lia.
Defined.

Lemma unsupported_format_spec f :
  unsupported_format f = false <-> supported f.
Proof.
  unfold unsupported_format, supported.
  destruct (Z.ltb_spec (bitsPerSample f) 8), (Z.gtb_spec (bitsPerSample f) 16),
    (Z.eqb_spec (bitsPerSample f) 32), (sampleType f);
    cbn; split; intros Hx; try done; try lia;
    try (destruct Hx as [[? ?]|[? ?]]; done || lia);
    try (left; split; [lia|done]); try (right; split; [lia|done]).
Qed.


Lemma blurred256_transposed (img : Z -> Z -> Z) step width height x y :
  Exact.blurred256 (transposed img) step height width y x
  = Exact.blurred256 img step width height x y.
Proof.
  destruct Exact_facts.kernel_values as (K0 & K1 & K2 & K3 & K4).
  unfold Exact.blurred256, Exact.hpass, Exact.sum5, transposed.
  rewrite K0, K1, K2, K3, K4. ring.
Qed.

Lemma ramp_columns_ok : plane_ok ramp_columns.
Proof. unfold plane_ok. cbn. lia. Qed.

(** ** The constructors *)

(** X9: [ExtractCreate] creates the filter exactly when the radius is at
    least 1, the clip has a constant format and that format is 8 to 16
    bit integer or 32 bit float; the filter then has the name
    ExtractFrequency and its instance data keep the clip, the clip's
    video info and the radius.  Nothing is said of the [vi] argument of
    the call, [&d->vi], which is not sequenced with [d.release()]. *)
Theorem X9_ExtractCreate_accepts_iff isConstant clip r :
  (rejected (ExtractCreate isConstant clip r) = false <->
   1 <= radius_of r /\ isConstant clip = true /\ supported (format clip)) /\
  (forall name vi d,
     ExtractCreate isConstant clip r = createVideoFilter name vi d ->
     name = "ExtractFrequency"%string /\
     d = {| d_node := clip; d_vi := clip; d_radius := radius_of r |}).
Proof.
  unfold ExtractCreate. fold (radius_of r).
  pose proof (unsupported_format_spec (format clip)) as Hu.
  destruct (Z.ltb_spec (radius_of r) 1), (isConstant clip),
    (unsupported_format (format clip)); cbn; (split; [split|]);
    try done; try lia; try tauto;
    try (intros (? & ? & Hs); apply Hu in Hs; done);
    try (intros name vi d [= <- <- <-]; done).
Qed.

Lemma X9_ExtractCreate_accepts_iff_witness :
  rejected (ExtractCreate vsh_isConstantVideoFormat (clip_info GRAY16 8 8)
              (Some 2)) = false.
Proof.
  apply (X9_ExtractCreate_accepts_iff vsh_isConstantVideoFormat
           (clip_info GRAY16 8 8) (Some 2)).
  split; [by vm_compute|]. split; [reflexivity|].
  left. cbn. split; [lia|reflexivity].
Defined.

(** X10: the order of the checks of [ExtractCreate].  A radius below 1
    gives the radius error whatever the clip is; otherwise a clip of
    variable format gives the constant-format error whatever its format
    is; the format error is left for constant clips. *)
Theorem X10_ExtractCreate_error_order isConstant clip r :
  (radius_of r < 1 ->
   ExtractCreate isConstant clip r
   = mapSetError "ExtractFrequency: radius must be >= 1") /\
  (1 <= radius_of r -> isConstant clip = false ->
   ExtractCreate isConstant clip r
   = mapSetError
       "ExtractFrequency: only clips with constant format are accepted") /\
  (1 <= radius_of r -> isConstant clip = true ->
   ~ supported (format clip) ->
   ExtractCreate isConstant clip r
   = mapSetError
       "ExtractFrequency: only 8-16 bit integer or 32 bit float input are accepted").
Proof.
  unfold ExtractCreate. fold (radius_of r).
  pose proof (unsupported_format_spec (format clip)) as Hu.
  destruct (Z.ltb_spec (radius_of r) 1).
  - split; [done|]. split; intros; lia.
  - split; [intros; lia|]. split.
    + by intros _ ->.
    + intros _ -> Hn. cbn.
      destruct (unsupported_format (format clip)); [done|].
      exfalso. apply Hn. by apply Hu.
Qed.

Lemma X10_ExtractCreate_error_order_witness :
  ExtractCreate vsh_isConstantVideoFormat variable_clip (Some 0)
  = mapSetError "ExtractFrequency: radius must be >= 1" /\
  ExtractCreate vsh_isConstantVideoFormat variable_clip None
  = mapSetError
      "ExtractFrequency: only clips with constant format are accepted".
Proof.
  split.
  - apply (X10_ExtractCreate_error_order vsh_isConstantVideoFormat
             variable_clip (Some 0)). by vm_compute.
  - apply (X10_ExtractCreate_error_order vsh_isConstantVideoFormat
             variable_clip None); [by vm_compute|reflexivity].
Defined.

(** X11: [ReplaceCreate] creates the filter exactly when the two formats
    are the same, the base has a constant format and that format is 8 to
    16 bit integer or 32 bit float; the filter then has the name
    ReplaceFrequency and its instance data keep the two clips and the
    base's video info.  The format mismatch is reported first.  Nothing
    is said of the [vi] argument of the call, [&d->vi], which is not
    sequenced with [d.release()]. *)
Theorem X11_ReplaceCreate_accepts_iff isConstant isSame base detail :
  (rejected (ReplaceCreate isConstant isSame base detail) = false <->
   isSame (format base) (format detail) = true /\
   isConstant base = true /\ supported (format base)) /\
  (isSame (format base) (format detail) = false ->
   ReplaceCreate isConstant isSame base detail
   = mapSetError
       "ReplaceFrequency: base and detail must have the same format and dimensions") /\
  (forall name vi d,
     ReplaceCreate isConstant isSame base detail = createVideoFilter name vi d ->
     name = "ReplaceFrequency"%string /\
     d = {| r_base := base; r_detail := detail; r_vi := base |}).
Proof.
  unfold ReplaceCreate.
  pose proof (unsupported_format_spec (format base)) as Hu.
  destruct (isSame (format base) (format detail)), (isConstant base),
    (unsupported_format (format base)); cbn; (split; [split|split]);
    try done; try tauto;
    try (intros (? & ? & Hs); apply Hu in Hs; done);
    try (intros name vi d [= <- <- <-]; done).
Qed.

Lemma X11_ReplaceCreate_accepts_iff_witness :
  ReplaceCreate vsh_isConstantVideoFormat vsh_isSameVideoFormat
    (clip_info GRAY8 8 8) (clip_info GRAY16 8 8)
  = mapSetError
      "ReplaceFrequency: base and detail must have the same format and dimensions".
Proof.
  apply (X11_ReplaceCreate_accepts_iff vsh_isConstantVideoFormat
           vsh_isSameVideoFormat (clip_info GRAY8 8 8) (clip_info GRAY16 8 8)).
  reflexivity.
Defined.

(** ** Replace *)

(** X12: on integer planes of 8 to 16 bits, Replace with a detail plane
    that is neutral everywhere returns the samples of the base. *)
Theorem X12_replace_neutral_detail_returns_base
    w (base detail dst : Plane Z) fi :
  8 <= bitsPerSample fi <= 16 ->
  plane_ok base -> plane_ok dst ->
  same_geometry base dst -> same_geometry detail dst ->
  bounded_image (image_of 0 base) (p_width dst) (p_height dst)
    (2 ^ bitsPerSample fi - 1) ->
  shows detail (fun _ _ => 2 ^ (bitsPerSample fi - 1)) ->
  exists dst' : Plane Z,
    ProcessReplacePlane (uint w) base detail dst fi = Some dst' /\
    same_geometry dst' dst /\
    forall x y, 0 <= x < p_width dst -> 0 <= y < p_height dst ->
      pixel dst' x y = pixel base x y.
Proof.
  intros Hb Hpb Hpd Gb Gd Hbnd Hdet.
  assert (Hp16 : 2 ^ bitsPerSample fi <= 2 ^ 16)
    by (apply Z.pow_le_mono_r; lia).
  assert (Hn : 0 < 2 ^ (bitsPerSample fi - 1) < 2 ^ bitsPerSample fi).
  { split; [apply Z.pow_pos_nonneg; lia|apply Z.pow_lt_mono_r; lia]. }
  destruct (replace_uint_correct w base detail dst fi (image_of 0 base)
              (fun _ _ => 2 ^ (bitsPerSample fi - 1)) Hb Hpd Gb Gd
              (shows_image_of 0 base Hpb) Hdet)
    as (dst' & E & Hg & _ & _ & Hs).
  - intros x y Hx Hy. specialize (Hbnd x y Hx Hy). lia.
  - intros x y _ _. lia.
  - exists dst'. split; [exact E|]. split; [exact Hg|].
    intros x y Hx Hy. destruct Hg as (Gw & Gh & _), Gb as (Bw & Bh & _).
    rewrite Hs by lia.
    rewrite (shows_image_of 0 base Hpb x y) by lia. f_equal.
    unfold Exact.replace, Spec.int_neutral, Spec.int_max.
    specialize (Hbnd x y Hx Hy). rewrite clampZ_id by lia. lia.
Qed.

Lemma X12_replace_neutral_detail_returns_base_witness :
  exists dst' : Plane Z,
    ProcessReplacePlane uint8_t ramp_plane
      {| p_width := 5; p_height := 5; p_stride := 8;
         p_data := replicate 40 128 |} blank_plane GRAY8 = Some dst' /\
    pixel dst' 4 4 = Some 255.
Proof.
  destruct (X12_replace_neutral_detail_returns_base 8 ramp_plane
              {| p_width := 5; p_height := 5; p_stride := 8;
                 p_data := replicate 40 128 |} blank_plane GRAY8
              ltac:(cbn; lia) ramp_plane_ok blank_plane_ok
              ltac:(by unfold same_geometry) ltac:(by unfold same_geometry)
              ramp_plane_bounded)
    as (dst' & E & _ & H).
  - intros x y Hx Hy. cbn in Hx, Hy.
    assert (Hc : (x = 0 \/ x = 1 \/ x = 2 \/ x = 3 \/ x = 4) /\
                 (y = 0 \/ y = 1 \/ y = 2 \/ y = 3 \/ y = 4)) by lia.
    destruct Hc as [Hc1 Hc2].
    repeat (destruct Hc1 as [->|Hc1]); try subst x;
      repeat (destruct Hc2 as [->|Hc2]); try subst y; reflexivity.
  - exists dst'. split; [exact E|]. rewrite H by (cbn; lia). reflexivity.
Defined.


(** X14: Replace reads base and detail with the geometry of the
    destination: when the buffer of either of them ends before the last
    sample of that window, a read falls outside it. *)
Theorem X14_replace_reads_inputs_with_destination_geometry
    (T : PixelType) (base detail dst : Plane (sample T)) fi :
  0 < p_width dst -> 0 < p_height dst -> 0 <= p_stride dst ->
  Z.of_nat (length (p_data base))
    <= (p_height dst - 1) * p_stride dst + (p_width dst - 1) \/
  Z.of_nat (length (p_data detail))
    <= (p_height dst - 1) * p_stride dst + (p_width dst - 1) ->
  ProcessReplacePlane T base detail dst fi = None.
Proof.
  intros Hw Hh Hs Hshort. unfold ProcessReplacePlane. cbv zeta.
  unfold for_loop at 1.
  rewrite (for_iter_None_inv
    (fun y (st : Z * list (sample T)) => st.1 = y * p_stride dst)
    _ _ 0 (0, p_data dst) (p_height dst - 1)); [reflexivity|done| | |].
  - intros j [row dstp] [row' dstp'] Hj Hr Eb. cbn [fst] in *.
    destruct (for_loop 0 (p_width dst) _ dstp); [|done].
    cbn [mbind option_bind] in Eb. injection Eb as <- _. lia.
  - lia.
  - intros [row dstp] Hr. cbn [fst] in Hr. subst row.
    rewrite (for_loop_None _ 0 (p_width dst) dstp (p_width dst - 1));
      [reflexivity|lia|].
    intros t. destruct Hshort as [Hb|Hd].
    + by rewrite (load_None_ge (p_data base)) by lia.
    + rewrite (load_None_ge (p_data detail)) by lia.
      by destruct (load (p_data base) _).
Qed.

Lemma X14_replace_reads_inputs_with_destination_geometry_witness :
  ProcessReplacePlane uint8_t (flat_plane 4 4 100) (flat_plane 2 2 128)
    (flat_plane 4 4 0) GRAY8 = None.
Proof.
  apply (X14_replace_reads_inputs_with_destination_geometry uint8_t
           (flat_plane 4 4 100) (flat_plane 2 2 128) (flat_plane 4 4 0) GRAY8);
    [by vm_compute|by vm_compute|by vm_compute|right; by vm_compute].
Defined.

(** ** Symmetries of Extract *)

(** X15: on integer planes of 8 to 16 bits the order of the two passes
    does not show: Extract of the transposed plane is the transposed
    Extract. *)
Theorem X15_extract_integer_commutes_with_transposition
    w (src srcT dst dstT : Plane Z) radius fi :
  8 <= bitsPerSample fi <= 16 ->
  plane_ok src -> plane_ok srcT -> plane_ok dst -> plane_ok dstT ->
  p_width srcT = p_height src -> p_height srcT = p_width src ->
  p_width dst = p_width src -> p_height dst = p_height src ->
  p_width dstT = p_height src -> p_height dstT = p_width src ->
  1 <= radius ->
  2 * step_of radius <= p_width src - 1 ->
  2 * step_of radius <= p_height src - 1 ->
  bounded_image (image_of 0 src) (p_width src) (p_height src)
    (Spec.int_max (bitsPerSample fi)) ->
  (forall x y, 0 <= x < p_width src -> 0 <= y < p_height src ->
     pixel srcT y x = pixel src x y) ->
  exists d dT : Plane Z,
    process_extract_plane (uint w) src dst radius fi = Some d /\
    process_extract_plane (uint w) srcT dstT radius fi = Some dT /\
    forall x y, 0 <= x < p_width src -> 0 <= y < p_height src ->
      pixel dT y x = pixel d x y.
Proof.
  intros Hb Hps HpT Hpd HpdT EwT EhT Ew Eh EwdT EhdT Hr Htw Hth Hbnd Htr.
  destruct (extract_uint_correct w src dst radius fi (image_of 0 src)
              Hb Hps Hpd Ew Eh Hr Htw Hth (shows_image_of 0 src Hps) Hbnd)
    as (d & E & (Gw & Gh & _) & _ & _ & Hs).
  destruct (extract_uint_correct w srcT dstT radius fi
              (transposed (image_of 0 src)) Hb HpT HpdT)
    as (dT & ET & (GwT & GhT & _) & _ & _ & HsT); try lia.
  - intros x y Hx Hy. unfold transposed. rewrite Htr by lia.
    apply (shows_image_of 0 src Hps); lia.
  - intros x y Hx Hy. unfold transposed. apply Hbnd; lia.
  - exists d, dT. split; [exact E|]. split; [exact ET|].
    intros x y Hx Hy. rewrite Hs, HsT by lia. f_equal.
    rewrite EwT, EhT. unfold Exact.extract.
    rewrite blurred256_transposed. reflexivity.
Qed.

Lemma X15_extract_integer_commutes_with_transposition_witness :
  exists d dT : Plane Z,
    process_extract_plane uint8_t ramp_plane blank_plane 1 GRAY8 = Some d /\
    process_extract_plane uint8_t ramp_columns ramp_columns 1 GRAY8
    = Some dT /\
    pixel dT 4 0 = pixel d 0 4.
Proof.
  destruct (X15_extract_integer_commutes_with_transposition 8 ramp_plane
              ramp_columns blank_plane ramp_columns 1 GRAY8
              ltac:(cbn; lia) ramp_plane_ok ramp_columns_ok blank_plane_ok
              ramp_columns_ok eq_refl eq_refl eq_refl eq_refl eq_refl eq_refl
              ltac:(lia) ltac:(vm_compute; congruence)
              ltac:(vm_compute; congruence) ramp_plane_bounded)
    as (d & dT & E & ET & H).
  - intros x y Hx Hy. cbn in Hx, Hy.
    assert (Hc : (x = 0 \/ x = 1 \/ x = 2 \/ x = 3 \/ x = 4) /\
                 (y = 0 \/ y = 1 \/ y = 2 \/ y = 3 \/ y = 4)) by lia.
    destruct Hc as [Hc1 Hc2].
    repeat (destruct Hc1 as [->|Hc1]); try subst x;
      repeat (destruct Hc2 as [->|Hc2]); try subst y; reflexivity.
  - exists d, dT. split; [exact E|]. split; [exact ET|].
    apply H; cbn; lia.
Defined.

(** X16: the reflection treats the two ends of an axis alike: mirroring
    the position counted from the far end gives the mirrored index
    counted from the far end. *)
Theorem X16_mirror_boundary_symmetric size pos :
  0 <= size ->
  mirror_boundary (size - 1 - pos) size = size - 1 - mirror_boundary pos size.
Proof.
  intros Hs. unfold mirror_boundary.
  destruct (Z.ltb_spec pos 0), (Z.geb_spec pos size),
    (Z.ltb_spec (size - 1 - pos) 0), (Z.geb_spec (size - 1 - pos) size); lia.
Qed.

Lemma X16_mirror_boundary_symmetric_witness :
  mirror_boundary (5 - 1 - 6) 5 = 5 - 1 - mirror_boundary 6 5.
Proof. apply (X16_mirror_boundary_symmetric 5 6). lia. Defined.

(** ** Planes too small for the radius *)

(** X17: for a radius from 1 to 30, where the step [1 << (radius - 1)]
    and twice the step are values of [int], Extract on a plane with fewer
    than [2^radius + 1] columns or rows reads before the start of a
    buffer: the last column takes its tap [k = 2] from a negative offset
    of the source row, and the last row takes it from a negative row of
    the float buffer. *)
Theorem X17_extract_small_plane_reads_out_of_bounds
    (T : PixelType) (src dst : Plane (sample T)) radius fi :
  0 < p_width src -> 0 < p_height src -> 1 <= radius <= 30 ->
  p_width src < 2 ^ radius + 1 \/ p_height src < 2 ^ radius + 1 ->
  process_extract_plane T src dst radius fi = None.
Proof.
  intros Hw Hh [Hr _] Hsmall.
  pose proof (step_of_pos radius Hr) as Hstep.
  assert (Hpow : 2 ^ radius = 2 * step_of radius).
  { unfold step_of. rewrite Z.shiftl_1_l.
    replace radius with (Z.succ (radius - 1)) at 1 by lia.
    rewrite Z.pow_succ_r by lia. reflexivity. }
  unfold process_extract_plane. cbv zeta.
  destruct (Z_lt_le_dec (p_width src) (2 ^ radius + 1)) as [Hlt|Hge].
  - (* the horizontal pass, first row, last column *)
    assert (E : conv_h T (p_data src)
                  (replicate (Z.to_nat (p_width src * p_height src)) F32.zero)
                  (p_width src) (p_height src) (p_stride src)
                  (step_of radius) = None); [|by rewrite E].
    unfold conv_h. apply (for_loop_None _ 0 _ _ 0); [lia|]. intros t.
    apply (for_loop_None _ 0 _ _ (p_width src - 1)); [lia|]. intros t'.
    rewrite (for_loop_None _ (-2) 3 _ 2); [reflexivity|lia|]. intros sum.
    unfold conv_h_tap. cbv zeta.
    assert (El : load (p_data src)
                   (0 * p_stride src
                    + mirror_boundary (p_width src - 1 + 2 * step_of radius)
                        (p_width src)) = None); [|by rewrite El].
    unfold load, mirror_boundary.
    destruct (Z.ltb_spec (p_width src - 1 + 2 * step_of radius) 0); [lia|].
    destruct (Z.geb_spec (p_width src - 1 + 2 * step_of radius) (p_width src));
      [|lia].
    destruct (Z.ltb_spec (0 * p_stride src
      + (2 * p_width src - 2 - (p_width src - 1 + 2 * step_of radius))) 0);
      [reflexivity|lia].
  - (* the vertical pass, last row, first column *)
    destruct Hsmall as [?|Hlt]; [lia|].
    destruct (conv_h T _ _ _ _ _ _) as [temp|]; [|reflexivity].
    cbn [mbind option_bind].
    assert (E : conv_v_and_extract T temp (p_data src) (p_data dst)
                  (p_width src) (p_height src) (p_stride src) (p_stride dst)
                  (step_of radius) fi = None); [|by rewrite E].
    unfold conv_v_and_extract. cbv zeta.
    apply (for_loop_None _ 0 _ _ (p_height src - 1)); [lia|]. intros t.
    apply (for_loop_None _ 0 _ _ 0); [lia|]. intros t'.
    rewrite (for_loop_None _ (-2) 3 _ 2); [reflexivity|lia|]. intros sum.
    unfold conv_v_tap. cbv zeta.
    assert (El : load temp
                   (mirror_boundary (p_height src - 1 + 2 * step_of radius)
                      (p_height src) * p_width src + 0) = None);
      [|by rewrite El].
    unfold load, mirror_boundary.
    destruct (Z.ltb_spec (p_height src - 1 + 2 * step_of radius) 0); [lia|].
    destruct (Z.geb_spec (p_height src - 1 + 2 * step_of radius)
                (p_height src)); [|lia].
    destruct (Z.ltb_spec
      ((2 * p_height src - 2 - (p_height src - 1 + 2 * step_of radius))
       * p_width src + 0) 0); [reflexivity|nia].
Qed.

Lemma X17_extract_small_plane_reads_out_of_bounds_witness :
  process_extract_plane uint8_t ramp_plane blank_plane 3 GRAY8 = None.
Proof.
  apply (X17_extract_small_plane_reads_out_of_bounds uint8_t ramp_plane
           blank_plane 3 GRAY8); cbn; lia.
Defined.
